(** * Appointy calendar sync: a shallow embedding of the feed pipeline

    The repository scrapes a booking page, normalises the date/time text it
    finds into appointments, encodes them as an iCalendar document and
    serves that document behind an access token with a 15 minute cache.

    Four programs of the repository are embedded, each in a module of
    its own:
    - [Scraper]  : src/scraper.js, the Browserless scraper (the three DOM
                   strategies, parseAppointment, parseDate, parseDateTime);
    - [Calendar] : src/calendar.js (generateCalendar, generateUID);
    - [Api]      : api/calendar.js, the serverless handler (token test,
                   cache, extractAppointmentsFromHTML, parseAppointment,
                   generateICS);
    - [Server]   : src/server.js, the Express server (the route
                   GET /calendar/:token, parseAppointmentData, generateICS).

    Around them:
    - [ServerPage]  : src/server.js, what is read off the page text
                      (extractAppointments and the scroll loop of
                      scrapeAppointments);
    - [Web]         : the sessions and cookies of src/server.js and
                      api/admin.js (validateSession, parseCookies);
    - [ServerAdmin] : src/server.js, the routes /admin, /health and /;
    - [ApiAdmin]    : api/admin.js (the handler, createSession, getConfig,
                      saveConfig) and getConfig of api/calendar.js;
    - [ApiHealth]   : api/health.js;
    - [Flare]       : api/calendar.js, the requests that
                      scrapeWithFlaresolverr sends to FlareSolverr.

    The JavaScript run time the code leans on (string truthiness, parseInt,
    regular expressions, Date arithmetic, MD5, Buffer comparison) lives in
    module [JS].

    Modelling choices:
    - JavaScript strings are represented by their UTF-8 bytes (Rocq
      [string]), which is what [Buffer.from] and the MD5 hash read; on
      ASCII text, which is what every pattern of the program targets, byte
      positions and UTF-16 positions coincide;
    - a valid [Date] is its time value in milliseconds; local time is UTC
      plus a constant offset [tza];
    - [new Date(text)] on free-form text, which the language leaves to the
      engine, is a parameter [Date_parse]; so is [calendar.toString()] of
      ical-generator, [ical_toString], applied to the calendar object that
      the code builds;
    - the DOM is the function from a selector to the elements it matches;
    - a handler runs on a world made of the module-level cache, the wall
      clock and the record of the calls it makes; the page-fetching
      collaborator is given by what its call returns or throws and by the
      time it takes.  One request is served at a time;
    - the admin handlers run on the stored configuration and the session
      map; the clock stands still while one of them runs, the values that
      [crypto.randomBytes] draws are given with the request, a form field
      is a string or absent, and an HTML page is the call that renders
      it;
    - FlareSolverr is what it answers to each call of a scrape, and the
      calls are recorded in the order in which they are made. *)

From Stdlib Require Import ZArith List String Ascii Bool Lia.
Import ListNotations.
Local Open Scope string_scope.
Local Open Scope Z_scope.

(* ================================================================== *)
(** * The JavaScript run time                                          *)
(* ================================================================== *)

Module JS.

(** ** Values that may be absent

    A property that is [undefined] or [null] is [None].  [truthy] is the
    test JavaScript applies in [if (x)], [!x], [x && y] and [x || y] when
    [x] is a string or absent: the empty string is falsy. *)

Definition truthy (x : option string) : bool :=
  match x with
  | None => false
  | Some s => negb (s =? "")%string
  end.

(** [x || d] for an optional string [x] and a string default [d]. *)
Definition or_default (x : option string) (d : string) : string :=
  match x with
  | Some s => if (s =? "")%string then d else s
  | None => d
  end.

(** [x === lit] for an optional string against a string literal. *)
Definition strict_eq (x : option string) (lit : string) : bool :=
  match x with
  | Some s => (s =? lit)%string
  | None => false
  end.

(** ** Characters *)

Definition code (a : ascii) : Z := Z.of_N (N_of_ascii a).

Definition is_digit (a : ascii) : bool := (48 <=? code a) && (code a <=? 57).
Definition is_upper (a : ascii) : bool := (65 <=? code a) && (code a <=? 90).
Definition is_lower (a : ascii) : bool := (97 <=? code a) && (code a <=? 122).

(** [\w] : letters, digits and underscore. *)
Definition is_word (a : ascii) : bool :=
  is_digit a || is_upper a || is_lower a || (code a =? 95).

(** [\s] on ASCII text: space, tab, line feed, vertical tab, form feed,
    carriage return. *)
Definition is_space (a : ascii) : bool :=
  (code a =? 32) || ((9 <=? code a) && (code a <=? 13)).

Definition to_upper (a : ascii) : ascii :=
  if is_lower a then ascii_of_N (Z.to_N (code a - 32)) else a.

Definition to_lower (a : ascii) : ascii :=
  if is_upper a then ascii_of_N (Z.to_N (code a + 32)) else a.

Fixpoint toUpperCase (s : string) : string :=
  match s with
  | EmptyString => EmptyString
  | String a s' => String (to_upper a) (toUpperCase s')
  end.

Fixpoint toLowerCase (s : string) : string :=
  match s with
  | EmptyString => EmptyString
  | String a s' => String (to_lower a) (toLowerCase s')
  end.

(** ** parseInt

    [parseInt] reads the longest prefix of decimal digits (after optional
    white space) and yields NaN, here [None], when there is none.  Every
    argument the program passes is a capture of [\d{1,2}], [\d{2}] or
    [\d{2,4}], possibly prefixed by the literal ["20"], so signs and the
    hexadecimal prefix never arise. *)

Fixpoint digits_value (s : string) (acc : Z) : Z :=
  match s with
  | String a s' => if is_digit a then digits_value s' (10 * acc + (code a - 48)) else acc
  | EmptyString => acc
  end.

Fixpoint skip_spaces (s : string) : string :=
  match s with
  | String a s' => if is_space a then skip_spaces s' else s
  | EmptyString => s
  end.

Definition parseInt (s : string) : option Z :=
  match skip_spaces s with
  | String a _ as t => if is_digit a then Some (digits_value t 0) else None
  | EmptyString => None
  end.

(** ** Substrings *)

(** The double quote character, and the selector [[name*="value"]]. *)
Definition dq : string := String (ascii_of_nat 34) EmptyString.

Definition attr_contains (name value : string) : string :=
  "[" ++ name ++ "*=" ++ dq ++ value ++ dq ++ "]".

(** [s.substring(from, to)] with both bounds already clamped to be
    non-negative; bounds past the end are clamped by [substring]. *)
Definition substring_js (from to : nat) (s : string) : string :=
  substring from (to - from) s.

(** [s.trim()] on ASCII white space. *)
Fixpoint rev_string (s acc : string) : string :=
  match s with
  | EmptyString => acc
  | String a s' => rev_string s' (String a acc)
  end.

Definition trim (s : string) : string :=
  rev_string (skip_spaces (rev_string (skip_spaces s) "")) "".

Fixpoint drop (n : nat) (s : string) : string :=
  match n, s with
  | S n', String _ s' => drop n' s'
  | _, _ => s
  end.

(** ** Regular expressions

    A backtracking matcher in continuation-passing style, after the
    matcher of the ECMAScript specification: alternatives are tried left
    to right, a greedy quantifier tries one more iteration before it tries
    the continuation, a lazy one the other way round, and an iteration that
    consumes nothing once the minimum is reached is rejected.  The [i] flag
    is expressed in the character predicates ([lit_i]).  Captures are not
    cleared between the iterations of a quantifier: no pattern of the
    program repeats a group that contains a capture more than once. *)

Inductive regex : Type :=
| Eps
| Chr (p : ascii -> bool)
| Seq (r1 r2 : regex)
| Alt (r1 r2 : regex)
| Rep (greedy : bool) (lo : nat) (hi : option nat) (r : regex)
| Grp (n : nat) (r : regex).

Definition captures := list (nat * string).

Fixpoint capture (n : nat) (c : captures) : option string :=
  match c with
  | [] => None
  | (k, v) :: c' => if Nat.eqb k n then Some v else capture n c'
  end.

Definition cont := string -> captures -> option (string * captures).

Definition hi_zero (hi : option nat) : bool :=
  match hi with Some O => true | _ => false end.

Fixpoint rep_loop (m : string -> captures -> cont -> option (string * captures))
    (fuel : nat) (greedy : bool) (lo : nat) (hi : option nat)
    (x : string) (c : captures) (k : cont) : option (string * captures) :=
  if hi_zero hi then k x c else
  match fuel with
  | O => if Nat.eqb lo 0 then k x c else None
  | S fuel' =>
      let d : cont := fun y cy =>
        if Nat.eqb lo 0 && Nat.eqb (length y) (length x) then None
        else rep_loop m fuel' greedy (Nat.pred lo) (option_map Nat.pred hi) y cy k in
      if negb (Nat.eqb lo 0) then m x c d
      else if greedy then
        match m x c d with Some z => Some z | None => k x c end
      else
        match k x c with Some z => Some z | None => m x c d end
  end.

Fixpoint match_re (r : regex) (x : string) (c : captures) (k : cont)
    {struct r} : option (string * captures) :=
  match r with
  | Eps => k x c
  | Chr p =>
      match x with
      | String a x' => if p a then k x' c else None
      | EmptyString => None
      end
  | Seq r1 r2 => match_re r1 x c (fun y cy => match_re r2 y cy k)
  | Alt r1 r2 =>
      match match_re r1 x c k with
      | Some z => Some z
      | None => match_re r2 x c k
      end
  | Rep greedy lo hi r1 =>
      rep_loop (fun y cy k' => match_re r1 y cy k') (lo + length x) greedy lo hi x c k
  | Grp n r1 =>
      match_re r1 x c
        (fun y cy => k y ((n, substring 0 (length x - length y) x) :: cy))
  end.

(** The result of [RegExp.prototype.exec] and of [String.prototype.match]
    with a non-global pattern: where the match starts, the matched text
    ([m[0]]), the capture groups ([m[1]], ...) and where it ends. *)
Record MatchResult : Type := mkMatch {
  index : nat;
  matched : string;
  groups : captures;
  lastIndex : nat
}.

Definition group (n : nat) (m : MatchResult) : option string := capture n (groups m).

(** Leftmost match in [x], the text that starts at position [idx]. *)
Fixpoint search (r : regex) (x : string) (idx : nat) : option MatchResult :=
  match match_re r x [] (fun y cy => Some (y, cy)) with
  | Some (y, cy) =>
      let len := (length x - length y)%nat in
      Some (mkMatch idx (substring 0 len x) cy (idx + len))
  | None =>
      match x with
      | String _ x' => search r x' (S idx)
      | EmptyString => None
      end
  end.

(** [r.exec(s)] with [r.lastIndex = from]. *)
Definition exec_at (r : regex) (s : string) (from : nat) : option MatchResult :=
  if (length s <? from)%nat then None else search r (drop from s) from.

(** [s.match(r)] for a pattern without the [g] flag. *)
Definition match_first (r : regex) (s : string) : option MatchResult :=
  exec_at r s 0.

(** Every match of a global pattern, left to right and without overlap:
    [s.matchAll(r)], the [while ((m = r.exec(s)) !== null)] loop, and the
    matches that [s.match(r)] and [s.replace(r, ...)] visit. *)
Fixpoint exec_loop (fuel : nat) (r : regex) (s : string) (from : nat)
    : list MatchResult :=
  match fuel with
  | O => []
  | S fuel' =>
      match exec_at r s from with
      | None => []
      | Some m =>
          let next := if Nat.eqb (lastIndex m) (index m)
                      then S (lastIndex m) else lastIndex m in
          m :: exec_loop fuel' r s next
      end
  end.

Definition matchAll (r : regex) (s : string) : list MatchResult :=
  exec_loop (S (length s)) r s 0.

(** [s.match(r)] for a global pattern: the matched texts, or [null]. *)
Definition match_global (r : regex) (s : string) : option (list string) :=
  match matchAll r s with
  | [] => None
  | ms => Some (map matched ms)
  end.

(** [s.replace(r, by)] for a global pattern and a replacement without
    [$] references. *)
Fixpoint splice (ms : list MatchResult) (by_ : string) (s : string) (pos : nat)
    : string :=
  match ms with
  | [] => drop pos s
  | m :: ms' =>
      substring pos (index m - pos) s ++ by_ ++ splice ms' by_ s (lastIndex m)
  end.

Definition replace_all (r : regex) (by_ : string) (s : string) : string :=
  splice (matchAll r s) by_ s 0.

(** *** Pattern syntax *)

Definition chr (a : string) : regex :=
  match a with
  | String a0 _ => Chr (Ascii.eqb a0)
  | EmptyString => Eps
  end.

Fixpoint seq (rs : list regex) : regex :=
  match rs with
  | [] => Eps
  | [r] => r
  | r :: rs' => Seq r (seq rs')
  end.

Fixpoint alt (rs : list regex) : regex :=
  match rs with
  | [] => Chr (fun _ => false)
  | [r] => r
  | r :: rs' => Alt r (alt rs')
  end.

(** A literal of a case-sensitive pattern. *)
Fixpoint lit (s : string) : regex :=
  match s with
  | EmptyString => Eps
  | String a EmptyString => Chr (Ascii.eqb a)
  | String a s' => Seq (Chr (Ascii.eqb a)) (lit s')
  end.

(** A literal of a pattern with the [i] flag. *)
Definition eqb_i (a b : ascii) : bool := Ascii.eqb (to_upper a) (to_upper b).

Fixpoint lit_i (s : string) : regex :=
  match s with
  | EmptyString => Eps
  | String a EmptyString => Chr (eqb_i a)
  | String a s' => Seq (Chr (eqb_i a)) (lit_i s')
  end.

(** Character classes: [one_of "/-"] is [[\/\-]], [none_of ">"] is [[^>]]. *)
Fixpoint mem (a : ascii) (s : string) : bool :=
  match s with
  | EmptyString => false
  | String b s' => Ascii.eqb a b || mem a s'
  end.

Definition one_of (s : string) : regex := Chr (fun a => mem a s).
Definition none_of (s : string) : regex := Chr (fun a => negb (mem a s)).
Definition any : regex := Chr (fun _ => true).

Definition d : regex := Chr is_digit.
Definition w : regex := Chr is_word.
Definition sp : regex := Chr is_space.

(** Greedy quantifiers [r*], [r+], [r?], [r{lo,hi}] and the lazy [r*?]. *)
Definition star (r : regex) : regex := Rep true 0 None r.
Definition plus (r : regex) : regex := Rep true 1 None r.
Definition opt (r : regex) : regex := Rep true 0 (Some 1%nat) r.
Definition times (lo hi : nat) (r : regex) : regex := Rep true lo (Some hi) r.
Definition star_lazy (r : regex) : regex := Rep false 0 None r.

(** ** Date

    A valid [Date] is its time value: milliseconds since the epoch, UTC.
    Local time is UTC shifted by [tza] milliseconds, the offset of the
    host's time zone, taken constant (daylight-saving transitions are not
    modelled).  Day and calendar arithmetic follow the abstract operations
    of the ECMAScript specification (Day, MakeDay, MakeTime, MakeDate) on
    the proleptic Gregorian calendar. *)

Definition msPerDay : Z := 86400000.
Definition msPerHour : Z := 3600000.
Definition msPerMinute : Z := 60000.
Definition msPerSecond : Z := 1000.

Definition Day (t : Z) : Z := t / msPerDay.
Definition TimeWithinDay (t : Z) : Z := t mod msPerDay.

(** Days since the epoch of the civil date [y]-[m]-[dd], [m] in 1..12. *)
Definition days_from_civil (y m dd : Z) : Z :=
  let y' := if m <=? 2 then y - 1 else y in
  let era := y' / 400 in
  let yoe := y' - era * 400 in
  let mp := if 2 <? m then m - 3 else m + 9 in
  let doy := (153 * mp + 2) / 5 + dd - 1 in
  let doe := yoe * 365 + yoe / 4 - yoe / 100 + doy in
  era * 146097 + doe - 719468.

(** The civil date (year, month 1..12, day of month) of a day number. *)
Definition civil_from_days (z : Z) : Z * Z * Z :=
  let z' := z + 719468 in
  let era := z' / 146097 in
  let doe := z' - era * 146097 in
  let yoe := (doe - doe / 1460 + doe / 36524 - doe / 146096) / 365 in
  let doy := doe - (365 * yoe + yoe / 4 - yoe / 100) in
  let mp := (5 * doy + 2) / 153 in
  let dd := doy - (153 * mp + 2) / 5 + 1 in
  let m := if mp <? 10 then mp + 3 else mp - 9 in
  (yoe + era * 400 + (if m <=? 2 then 1 else 0), m, dd).

(** [MakeDay(year, month, date)] with a 0-based month that may overflow. *)
Definition MakeDay (year month date : Z) : Z :=
  days_from_civil (year + month / 12) (month mod 12 + 1) 1 + date - 1.

Definition MakeTime (h m s ms : Z) : Z :=
  h * msPerHour + m * msPerMinute + s * msPerSecond + ms.

Definition MakeDate (day time : Z) : Z := day * msPerDay + time.

Section LocalTime.

Variable tza : Z.

Definition LocalTime (t : Z) : Z := t + tza.
Definition UTC (t : Z) : Z := t - tza.

(** [new Date(year, monthIndex, day, h, m, s, ms)]: a year from 0 to 99
    means 1900 + year. *)
Definition Date_of_fields (year month date h m s ms : Z) : Z :=
  let yr := if (0 <=? year) && (year <=? 99) then 1900 + year else year in
  UTC (MakeDate (MakeDay yr month date) (MakeTime h m s ms)).

(** [d.setHours(h, m, s, ms)], returning the updated time value. *)
Definition setHours (t h m s ms : Z) : Z :=
  UTC (MakeDate (Day (LocalTime t)) (MakeTime h m s ms)).

(** [d.getHours()], [d.getMinutes()] and the local day number. *)
Definition getHours (t : Z) : Z := TimeWithinDay (LocalTime t) / msPerHour.
Definition getMinutes (t : Z) : Z := (TimeWithinDay (LocalTime t) / msPerMinute) mod 60.
Definition localDay (t : Z) : Z := Day (LocalTime t).

End LocalTime.

(** Decimal digits, zero padded on the left to [width] places. *)
Definition digit_char (n : Z) : ascii := ascii_of_N (Z.to_N (48 + n mod 10)).

Fixpoint pad (width : nat) (n : Z) : string :=
  match width with
  | O => ""
  | S width' => pad width' (n / 10) ++ String (digit_char n) ""
  end.

(** [d.toISOString()]: YYYY-MM-DDTHH:mm:ss.sssZ, with a signed six digit
    year outside 0..9999. *)
Definition iso_year (y : Z) : string :=
  if (0 <=? y) && (y <=? 9999) then pad 4 y
  else (if y <? 0 then "-" else "+") ++ pad 6 (Z.abs y).

Definition toISOString (t : Z) : string :=
  let '(y, m, dd) := civil_from_days (Day t) in
  let tod := TimeWithinDay t in
  iso_year y ++ "-" ++ pad 2 m ++ "-" ++ pad 2 dd ++ "T"
    ++ pad 2 (tod / msPerHour) ++ ":" ++ pad 2 ((tod / msPerMinute) mod 60) ++ ":"
    ++ pad 2 ((tod / msPerSecond) mod 60) ++ "." ++ pad 3 (tod mod 1000) ++ "Z".

(** ** Buffer and crypto *)

(** [Buffer.from(s)]: the UTF-8 bytes of [s]. *)
Fixpoint Buffer_from (s : string) : list Z :=
  match s with
  | EmptyString => []
  | String a s' => code a :: Buffer_from s'
  end.

(** The comparison behind [crypto.timingSafeEqual] on buffers of one
    length: every byte pair is combined, with no exit on the first
    difference. *)
Fixpoint xor_fold (a b : list Z) (acc : Z) : Z :=
  match a, b with
  | x :: a', y :: b' => xor_fold a' b' (Z.lor acc (Z.lxor x y))
  | _, _ => acc
  end.

Definition ct_equal (a b : list Z) : bool := xor_fold a b 0 =? 0.

(** *** MD5 (RFC 1321), on 32-bit words held in [Z]. *)

Module MD5.

Definition mask : Z := 0xFFFFFFFF.
Definition add32 (x y : Z) : Z := Z.land (x + y) mask.
Definition not32 (x : Z) : Z := Z.lxor x mask.
Definition rotl (x n : Z) : Z :=
  Z.lor (Z.land (Z.shiftl x n) mask) (Z.shiftr x (32 - n)).

Definition K : list Z :=
  [ 0xd76aa478; 0xe8c7b756; 0x242070db; 0xc1bdceee;
    0xf57c0faf; 0x4787c62a; 0xa8304613; 0xfd469501;
    0x698098d8; 0x8b44f7af; 0xffff5bb1; 0x895cd7be;
    0x6b901122; 0xfd987193; 0xa679438e; 0x49b40821;
    0xf61e2562; 0xc040b340; 0x265e5a51; 0xe9b6c7aa;
    0xd62f105d; 0x02441453; 0xd8a1e681; 0xe7d3fbc8;
    0x21e1cde6; 0xc33707d6; 0xf4d50d87; 0x455a14ed;
    0xa9e3e905; 0xfcefa3f8; 0x676f02d9; 0x8d2a4c8a;
    0xfffa3942; 0x8771f681; 0x6d9d6122; 0xfde5380c;
    0xa4beea44; 0x4bdecfa9; 0xf6bb4b60; 0xbebfbc70;
    0x289b7ec6; 0xeaa127fa; 0xd4ef3085; 0x04881d05;
    0xd9d4d039; 0xe6db99e5; 0x1fa27cf8; 0xc4ac5665;
    0xf4292244; 0x432aff97; 0xab9423a7; 0xfc93a039;
    0x655b59c3; 0x8f0ccc92; 0xffeff47d; 0x85845dd1;
    0x6fa87e4f; 0xfe2ce6e0; 0xa3014314; 0x4e0811a1;
    0xf7537e82; 0xbd3af235; 0x2ad7d2bb; 0xeb86d391 ].

Definition shifts : list Z :=
  [ 7; 12; 17; 22; 7; 12; 17; 22; 7; 12; 17; 22; 7; 12; 17; 22;
    5; 9; 14; 20; 5; 9; 14; 20; 5; 9; 14; 20; 5; 9; 14; 20;
    4; 11; 16; 23; 4; 11; 16; 23; 4; 11; 16; 23; 4; 11; 16; 23;
    6; 10; 15; 21; 6; 10; 15; 21; 6; 10; 15; 21; 6; 10; 15; 21 ].

Definition state : Type := Z * Z * Z * Z.

Definition init : state := (0x67452301, 0xefcdab89, 0x98badcfe, 0x10325476).

(** One of the 64 steps on the sixteen message words [M]. *)
Definition step (M : list Z) (st : state) (i : nat) : state :=
  let '(A, B, C, D) := st in
  let iz := Z.of_nat i in
  let '(F, g) :=
    if iz <? 16 then (Z.lor (Z.land B C) (Z.land (not32 B) D), iz)
    else if iz <? 32 then (Z.lor (Z.land D B) (Z.land (not32 D) C), (5 * iz + 1) mod 16)
    else if iz <? 48 then (Z.lxor (Z.lxor B C) D, (3 * iz + 5) mod 16)
    else (Z.lxor C (Z.lor B (not32 D)), (7 * iz) mod 16) in
  let F' := add32 (add32 (add32 F A) (nth i K 0)) (nth (Z.to_nat g) M 0) in
  (D, add32 B (rotl F' (nth i shifts 0)), B, C).

(** Little-endian words of a block of bytes. *)
Fixpoint words (bs : list Z) : list Z :=
  match bs with
  | b0 :: b1 :: b2 :: b3 :: bs' =>
      (b0 + Z.shiftl b1 8 + Z.shiftl b2 16 + Z.shiftl b3 24) :: words bs'
  | _ => []
  end.

Definition compress (st : state) (block : list Z) : state :=
  let '(A0, B0, C0, D0) := st in
  let '(A, B, C, D) := fold_left (step (words block)) (List.seq 0 64) st in
  (add32 A0 A, add32 B0 B, add32 C0 C, add32 D0 D).

Fixpoint le_bytes (n : nat) (x : Z) : list Z :=
  match n with
  | O => []
  | S n' => Z.land x 255 :: le_bytes n' (Z.shiftr x 8)
  end.

(** The message followed by 0x80, zero bytes up to 56 modulo 64, and its
    length in bits on eight bytes. *)
Definition padded (msg : list Z) : list Z :=
  let len := Z.of_nat (List.length msg) in
  let zeros := Z.to_nat ((55 - len) mod 64) in
  msg ++ 0x80 :: repeat 0 zeros ++ le_bytes 8 (8 * len).

Fixpoint blocks (fuel : nat) (bs : list Z) (st : state) : state :=
  match fuel with
  | O => st
  | S fuel' =>
      match bs with
      | [] => st
      | _ => blocks fuel' (skipn 64 bs) (compress st (firstn 64 bs))
      end
  end.

Definition digest (msg : list Z) : list Z :=
  let bs := padded msg in
  let '(A, B, C, D) := blocks (List.length bs) bs init in
  le_bytes 4 A ++ le_bytes 4 B ++ le_bytes 4 C ++ le_bytes 4 D.

Definition hex_digit (n : Z) : ascii :=
  ascii_of_N (Z.to_N (if n <? 10 then 48 + n else 87 + n)).

Fixpoint hex (bs : list Z) : string :=
  match bs with
  | [] => ""
  | b :: bs' => String (hex_digit (b / 16)) (String (hex_digit (b mod 16)) (hex bs'))
  end.

End MD5.

(** [crypto.createHash('md5').update(s).digest('hex')]. *)
Definition md5_hex (s : string) : string := MD5.hex (MD5.digest (Buffer_from s)).

End JS.

Import JS.

(* ================================================================== *)
(** * Shared data                                                      *)
(* ================================================================== *)

(** Results of code that may throw: [Throw] carries [error.message]. *)
Inductive Result (A : Type) : Type :=
| Ok (a : A)
| Throw (message : string).
Arguments Ok {A} a.
Arguments Throw {A} message.

(** An appointment object.  src/scraper.js creates it with [title],
    [start], [end] and [rawText] ([start] and [end] are [null] until a
    date and a time are resolved); src/calendar.js also reads
    [description] and [location], absent unless a caller supplies them. *)
Record Appointment : Type := mkAppointment {
  title : string;
  start : option Z;
  end_ : option Z;
  rawText : option string;
  description : option string;
  location : option string
}.

(** The calendar object that ical-generator builds: [ical({...})],
    [calendar.createEvent({...})] and [event.createAlarm({...})].  An
    alarm keeps the [trigger] number it was created with. *)
Module ICal.

Record Alarm : Type := mkAlarm {
  alarm_type : string;
  trigger : Z;
  alarm_description : option string
}.

Record Event : Type := mkEvent {
  uid : string;
  ev_start : Z;
  ev_end : Z;
  summary : string;
  ev_description : option string;
  ev_location : string;
  alarms : list Alarm
}.

Record Calendar : Type := mkCalendar {
  name : option string;
  timezone : string;
  prodId : option (string * string * string);
  ttl : Z;
  events : list Event
}.

Definition createEvent (c : Calendar) (e : Event) : Calendar :=
  mkCalendar (name c) (timezone c) (prodId c) (ttl c) (events c ++ [e]).

Definition createAlarm (e : Event) (a : Alarm) : Event :=
  mkEvent (uid e) (ev_start e) (ev_end e) (summary e) (ev_description e)
          (ev_location e) (alarms e ++ [a]).

End ICal.

(* ================================================================== *)
(** * src/scraper.js                                                   *)
(* ================================================================== *)

Module Scraper.

(** What [page.evaluate] sees of the document: the elements a selector
    matches, each with its [innerText] and the [innerText] of its first
    heading-like descendant, if any. *)
Record Element : Type := mkElement {
  innerText : string;
  heading : option string
}.

Definition Document : Type := string -> list Element.

(** The objects pushed onto [results]. *)
Record RawAppointment : Type := mkRaw {
  raw_title : string;
  raw_rawText : string;
  dateText : option string;
  timeText : option string;
  startTime : option string;
  endTime : option string
}.

Definition cardSelectors : list string :=
  [ attr_contains "class" "booking-card"; attr_contains "class" "appointment-card";
    attr_contains "class" "booking-item"; attr_contains "class" "appointment-item";
    attr_contains "class" "booking"; attr_contains "class" "event-card";
    attr_contains "data-testid" "booking"; ".card"; "article" ].

(** The patterns of the three strategies. *)

(** [(\d{1,2}:\d{2}\s*(AM|PM)?)] with groups [g] and [g + 1]. *)
Definition clock_text (g : nat) : regex :=
  Grp g (seq [times 1 2 d; chr ":"; times 2 2 d; star sp;
              opt (Grp (S g) (alt [lit_i "AM"; lit_i "PM"]))]).

(** [\w+\s+\d{1,2},?\s+\d{4}] *)
Definition month_day_year : regex :=
  seq [plus w; plus sp; times 1 2 d; opt (chr ","); plus sp; times 4 4 d].

(** [\d{1,2}[\/\-]\d{1,2}[\/\-]\d{2,4}] *)
Definition numeric_date : regex :=
  seq [times 1 2 d; one_of "/-"; times 1 2 d; one_of "/-"; times 2 4 d].

(** [/(\w+day,?\s+)?(\w+\s+\d{1,2},?\s+\d{4}|\d{1,2}[\/\-]\d{1,2}[\/\-]\d{2,4})/i] *)
Definition cardDateRe : regex :=
  seq [opt (Grp 1 (seq [plus w; lit_i "day"; opt (chr ","); plus sp]));
       Grp 2 (alt [month_day_year; numeric_date])].

(** [/(\d{1,2}:\d{2}\s*(AM|PM)?)\s*(-|to|â€“)\s*(\d{1,2}:\d{2}\s*(AM|PM)?)/i];
    under the [i] flag the letter â of the third separator also matches
    its capital. *)
Definition cardRangeRe : regex :=
  seq [clock_text 1; star sp;
       Grp 3 (alt [chr "-"; lit_i "to"; seq [alt [lit "â"; lit "Â"]; lit "€“"]]);
       star sp; clock_text 4].

(** [/(\d{1,2}:\d{2}\s*(AM|PM)?)/i], also used with the [g] flag. *)
Definition clockRe : regex := clock_text 1.

(** [/(\d{1,2}[\/\-]\d{1,2}[\/\-]\d{2,4}|\w+\s+\d{1,2},?\s+\d{4})/i] *)
Definition rowDateRe : regex := Grp 1 (alt [numeric_date; month_day_year]).

(** [a || b] on optional strings. *)
Definition or_else (a b : option string) : option string :=
  if truthy a then a else b.

(** [m?.[n]] on the result of [match]. *)
Definition group_of (m : option MatchResult) (n : nat) : option string :=
  match m with
  | Some r => if Nat.eqb n 0 then Some (matched r) else group n r
  | None => None
  end.

Definition is_some {A : Type} (x : option A) : bool :=
  match x with Some _ => true | None => false end.

(** Strategy 1, the body of [cards.forEach]. *)
Definition scanCard (card : Element) : list RawAppointment :=
  let text := innerText card in
  let dateMatch := match_first cardDateRe text in
  let timeMatch := match_first cardRangeRe text in
  let singleTimeMatch := match_first clockRe text in
  let title := or_default (option_map trim (heading card)) "Mathnasium Session" in
  if is_some dateMatch || is_some timeMatch then
    [ mkRaw title (substring 0 500 text)
            (group_of dateMatch 0)
            (or_else (group_of timeMatch 0) (group_of singleTimeMatch 0))
            (or_else (group_of timeMatch 1) (group_of singleTimeMatch 1))
            (group_of timeMatch 4) ]
  else [].

(** The loop over [cardSelectors]: the first selector whose cards yield
    a result ends the loop. *)
Fixpoint strategy1 (document : Document) (selectors : list string)
    : list RawAppointment :=
  match selectors with
  | [] => []
  | selector :: rest =>
      match flat_map scanCard (document selector) with
      | [] => strategy1 document rest
      | results => results
      end
  end.

(** Strategy 2, the body of [rows.forEach]. *)
Definition scanRow (row : Element) : list RawAppointment :=
  let text := innerText row in
  let dateMatch := match_first rowDateRe text in
  let timeMatch := match_global clockRe text in
  match dateMatch, timeMatch with
  | Some dm, Some tm =>
      [ mkRaw "Mathnasium Session" (substring 0 500 text)
              (Some (matched dm)) None (nth_error tm 0) (nth_error tm 1) ]
  | _, _ => []
  end.

(** Strategy 3, the body of [items.forEach]. *)
Definition scanItem (item : Element) : list RawAppointment :=
  let text := innerText item in
  let dateMatch := match_first rowDateRe text in
  let timeMatch := match_global clockRe text in
  match dateMatch with
  | Some dm =>
      [ mkRaw "Mathnasium Session" (substring 0 500 text)
              (Some (matched dm)) None
              (match timeMatch with Some tm => nth_error tm 0 | None => None end)
              (match timeMatch with Some tm => nth_error tm 1 | None => None end) ]
  | None => []
  end.

(** The function passed to [page.evaluate]. *)
Definition evaluate (document : Document) : list RawAppointment :=
  let results := strategy1 document cardSelectors in
  let results :=
    match results with
    | [] => flat_map scanRow (document ("tr, [role=" ++ dq ++ "row" ++ dq ++ "]"))
    | _ => results
    end in
  match results with
  | [] => flat_map scanItem (document ("li, div" ++ attr_contains "class" "list-item"))
  | _ => results
  end.

Section Parsing.

(** [new Date(text)] for text that is not in the ISO format is left to
    the engine by the language specification: [Date_parse text] is the
    time value it yields, [None] for an Invalid Date. *)
Variable Date_parse : string -> option Z.

(** The offset of the host's local time from UTC, in milliseconds. *)
Variable tza : Z.

(** [/(\d{1,2})[\/\-](\d{1,2})[\/\-](\d{2,4})/] *)
Definition slashRe : regex :=
  seq [Grp 1 (times 1 2 d); one_of "/-"; Grp 2 (times 1 2 d); one_of "/-";
       Grp 3 (times 2 4 d)].

(** [new Date(parseInt(year), parseInt(month) - 1, parseInt(day))];
    the three texts are digit captures, so no [parseInt] is NaN. *)
Definition date_of_captures (year month day : string) : option Z :=
  match parseInt year, parseInt month, parseInt day with
  | Some y, Some m, Some dd => Some (Date_of_fields tza y (m - 1) dd 0 0 0 0)
  | _, _, _ => None
  end.

Definition expand_year (year : string) : string :=
  if Nat.eqb (length year) 2 then "20" ++ year else year.

Definition parseDate (dateStr : string) : option Z :=
  let cleaned := trim (replace_all (chr ",") "" dateStr) in
  match Date_parse cleaned with
  | Some date => Some date
  | None =>
      match match_first slashRe cleaned with
      | Some slashMatch =>
          match group 1 slashMatch, group 2 slashMatch, group 3 slashMatch with
          | Some month, Some day, Some year =>
              date_of_captures (expand_year year) month day
          | _, _, _ => None
          end
      | None => None
      end
  end.

(** [/(\d{1,2}):(\d{2})\s*(AM|PM)?/i] *)
Definition timeRe : regex :=
  seq [Grp 1 (times 1 2 d); chr ":"; Grp 2 (times 2 2 d); star sp;
       opt (Grp 3 (alt [lit_i "AM"; lit_i "PM"]))].

(** The meridiem branch of [parseDateTime]. *)
Definition to24 (hours : Z) (meridiem : option string) : Z :=
  if truthy meridiem then
    if strict_eq (option_map toUpperCase meridiem) "PM" && negb (hours =? 12)
    then hours + 12
    else if strict_eq (option_map toUpperCase meridiem) "AM" && (hours =? 12)
    then 0
    else hours
  else hours.

Definition parseDateTime (date : option Z) (timeStr : option string) : option Z :=
  match date, timeStr with
  | Some date, Some timeStr =>
      if (timeStr =? "")%string then None else
      match match_first timeRe timeStr with
      | None => None
      | Some timeMatch =>
          match group 1 timeMatch, group 2 timeMatch with
          | Some hours, Some minutes =>
              match parseInt hours, parseInt minutes with
              | Some hours, Some minutes =>
                  Some (setHours tza date (to24 hours (group 3 timeMatch)) minutes 0 0)
              | _, _ => None
              end
          | _, _ => None
          end
      end
  | _, _ => None
  end.

(** [parseAppointment(rawApt)].  Reading [appointment.start.getTime()]
    when [parseDateTime] returned [null] is a TypeError. *)
Definition parseAppointment (rawApt : RawAppointment) : Result Appointment :=
  let title := or_default (Some (raw_title rawApt)) "Mathnasium Session" in
  let date := if truthy (dateText rawApt)
              then match dateText rawApt with
                   | Some t => parseDate t
                   | None => None
                   end
              else None in
  if is_some date && truthy (startTime rawApt) then
    let start := parseDateTime date (startTime rawApt) in
    if truthy (endTime rawApt) then
      Ok (mkAppointment title start (parseDateTime date (endTime rawApt))
                        (Some (raw_rawText rawApt)) None None)
    else
      match start with
      | Some t =>
          Ok (mkAppointment title start (Some (t + 60 * 60 * 1000))
                            (Some (raw_rawText rawApt)) None None)
      | None => Throw "Cannot read properties of null (reading 'getTime')"
      end
  else
    Ok (mkAppointment title None None (Some (raw_rawText rawApt)) None None).

(** [appointments.map(apt => parseAppointment(apt))] *)
Fixpoint map_result {A B : Type} (f : A -> Result B) (l : list A)
    : Result (list B) :=
  match l with
  | [] => Ok []
  | x :: l' =>
      match f x with
      | Throw msg => Throw msg
      | Ok y =>
          match map_result f l' with
          | Throw msg => Throw msg
          | Ok ys => Ok (y :: ys)
          end
      end
  end.

Definition extractAppointments (document : Document) : Result (list Appointment) :=
  map_result parseAppointment (evaluate document).

End Parsing.

End Scraper.

(* ================================================================== *)
(** * src/calendar.js                                                  *)
(* ================================================================== *)

Module Calendar.

(** [`${x?.toISOString()}`] : an absent date prints as [undefined]. *)
Definition iso_or_undefined (x : option Z) : string :=
  match x with
  | Some t => toISOString t
  | None => "undefined"
  end.

(** The text that [generateUID] hashes. *)
Definition uid_content (apt : Appointment) : string :=
  title apt ++ "-" ++ iso_or_undefined (start apt) ++ "-" ++ iso_or_undefined (end_ apt).

Definition generateUID (apt : Appointment) : string :=
  md5_hex (uid_content apt) ++ "@appointy-sync".

Section Env.

(** [process.env.CALENDAR_NAME] and [process.env.TIMEZONE]. *)
Variables env_CALENDAR_NAME env_TIMEZONE : option string.

Definition CALENDAR_NAME : string := or_default env_CALENDAR_NAME "Mathnasium Appointments".
Definition TIMEZONE : string := or_default env_TIMEZONE "America/New_York".

(** The body of the [for (const apt of appointments)] loop. *)
Definition addAppointment (calendar : ICal.Calendar) (apt : Appointment)
    : ICal.Calendar :=
  match start apt with
  | None => calendar
  | Some start =>
      let uid := generateUID apt in
      let event :=
        ICal.mkEvent uid start
          (match end_ apt with
           | Some e => e
           | None => start + 60 * 60 * 1000
           end)
          (title apt)
          (Some (or_default (description apt) ""))
          (or_default (location apt) "Mathnasium of Portland")
          [] in
      let event :=
        ICal.createAlarm event
          (ICal.mkAlarm "display" (- 60 * 60)
             (Some ("Reminder: " ++ title apt ++ " in 1 hour"))) in
      let event :=
        ICal.createAlarm event
          (ICal.mkAlarm "display" (- 24 * 60 * 60)
             (Some ("Tomorrow: " ++ title apt))) in
      ICal.createEvent calendar event
  end.

Definition generateCalendar (appointments : list Appointment) : ICal.Calendar :=
  fold_left addAppointment appointments
    (ICal.mkCalendar (Some CALENDAR_NAME) TIMEZONE
       (Some ("appointy-calendar-sync", "appointy-scraper", "EN"))
       (60 * 60) []).

End Env.

End Calendar.

(* ================================================================== *)
(** * Requests, responses and the effects of a handler                 *)
(* ================================================================== *)

Module Http.

Inductive Body : Type :=
| Send (text : string)
| Json (error : string).

Record Response : Type := mkResponse {
  status : Z;
  headers : list (string * string);
  body : Body
}.

(** Calls that leave the process or that the claims speak about. *)
Inductive Event : Type :=
| TimingSafeEqual (a b : list Z)
| UpstreamFetch.

(** The module-level cache ([cachedICS], [cacheTime]), the wall clock
    that [Date.now()] reads, and the calls made so far. *)
Record World : Type := mkWorld {
  cachedICS : option string;
  cacheTime : Z;
  clock : Z;
  trace : list Event
}.

(** What the page-fetching collaborator does when it is called: how long
    the call takes and what it returns or throws. *)
Record Upstream (A : Type) : Type := mkUpstream {
  elapsed : Z;
  outcome : Result A
}.
Arguments mkUpstream {A} elapsed outcome.
Arguments elapsed {A} u.
Arguments outcome {A} u.

(** Computations that read and write the world and may throw. *)
Definition M (A : Type) : Type := World -> Result A * World.

Definition ret {A : Type} (a : A) : M A := fun w => (Ok a, w).

Definition bind {A B : Type} (m : M A) (f : A -> M B) : M B :=
  fun w =>
    match m w with
    | (Ok a, w') => f a w'
    | (Throw msg, w') => (Throw msg, w')
    end.

Definition throw {A : Type} (msg : string) : M A := fun w => (Throw msg, w).

Definition try_catch {A : Type} (m : M A) (handler : string -> M A) : M A :=
  fun w =>
    match m w with
    | (Ok a, w') => (Ok a, w')
    | (Throw msg, w') => handler msg w'
    end.

Definition Date_now : M Z := fun w => (Ok (clock w), w).
Definition get_cachedICS : M (option string) := fun w => (Ok (cachedICS w), w).
Definition get_cacheTime : M Z := fun w => (Ok (cacheTime w), w).

Definition set_cachedICS (v : string) : M unit :=
  fun w => (Ok tt, mkWorld (Some v) (cacheTime w) (clock w) (trace w)).

Definition set_cacheTime (t : Z) : M unit :=
  fun w => (Ok tt, mkWorld (cachedICS w) t (clock w) (trace w)).

Definition log (e : Event) : M unit :=
  fun w => (Ok tt, mkWorld (cachedICS w) (cacheTime w) (clock w) (trace w ++ [e])).

(** [crypto.timingSafeEqual(a, b)]: a RangeError when the lengths
    differ. *)
Definition timingSafeEqual (a b : list Z) : M bool :=
  bind (log (TimingSafeEqual a b)) (fun _ =>
    if Nat.eqb (List.length a) (List.length b) then ret (ct_equal a b)
    else throw "Input buffers must have the same byte length").

(** One call of the collaborator: it is recorded, takes its time, and
    returns or throws. *)
Definition call_upstream {A : Type} (u : Upstream A) : M A :=
  fun w =>
    (outcome u,
     mkWorld (cachedICS w) (cacheTime w) (clock w + elapsed u) (trace w ++ [UpstreamFetch])).

Definition CACHE_TTL : Z := 15 * 60 * 1000.

(** How many calls of the collaborator a trace records, and the
    comparator calls in it. *)
Fixpoint fetches (t : list Event) : nat :=
  match t with
  | [] => O
  | UpstreamFetch :: t' => S (fetches t')
  | TimingSafeEqual _ _ :: t' => fetches t'
  end.

Fixpoint comparisons (t : list Event) : list (list Z * list Z) :=
  match t with
  | [] => []
  | TimingSafeEqual a b :: t' => (a, b) :: comparisons t'
  | UpstreamFetch :: t' => comparisons t'
  end.

Definition calendar_headers (xcache : string) : list (string * string) :=
  [ ("Content-Type", "text/calendar; charset=utf-8"); ("X-Cache", xcache) ].

End Http.

Declare Scope handler_scope.
Notation "x <- m ;; k" := (Http.bind m (fun x => k))
  (at level 61, m at next level, right associativity) : handler_scope.
Notation "m ;; k" := (Http.bind m (fun _ => k))
  (at level 61, right associativity) : handler_scope.

(* ================================================================== *)
(** * api/calendar.js                                                  *)
(* ================================================================== *)

Module Api.

Import Http.
Local Open Scope handler_scope.

(** The object [getConfig()] returns: stored JSON, or the environment. *)
Record Config : Type := mkConfig {
  appointyEmail : option string;
  appointyPassword : option string;
  appointyBookingUrl : option string;
  flaresolverrUrl : option string;
  calendarToken : option string;
  calendarName : option string
}.

(** [req.query]. *)
Record Request : Type := mkRequest {
  token : option string;
  refresh : option string
}.

(** ** Patterns of [extractAppointmentsFromHTML] *)

Definition meridiem (g : nat) : regex := opt (Grp g (alt [lit_i "AM"; lit_i "PM"])).

(** [/(\w+day),?\s+(\w+)\s+(\d{1,2}),?\s+(\d{4})/gi],
    [/(\w+)\s+(\d{1,2}),?\s+(\d{4})/gi] and
    [/(\d{1,2})\/(\d{1,2})\/(\d{2,4})/g]. *)
Definition datePatterns : list regex :=
  [ seq [Grp 1 (seq [plus w; lit_i "day"]); opt (chr ","); plus sp; Grp 2 (plus w);
         plus sp; Grp 3 (times 1 2 d); opt (chr ","); plus sp; Grp 4 (times 4 4 d)];
    seq [Grp 1 (plus w); plus sp; Grp 2 (times 1 2 d); opt (chr ","); plus sp;
         Grp 3 (times 4 4 d)];
    seq [Grp 1 (times 1 2 d); chr "/"; Grp 2 (times 1 2 d); chr "/"; Grp 3 (times 2 4 d)] ].

(** [[-–to]] under the [i] flag; the en dash is three bytes long. *)
Definition range_sep : regex :=
  alt [Chr (fun a => mem (to_lower a) "-to"); lit "–"].

(** [/(\d{1,2}):(\d{2})\s*(AM|PM)?(?:\s*[-–to]+\s*(\d{1,2}):(\d{2})\s*(AM|PM)?)?/gi] *)
Definition timePattern : regex :=
  seq [Grp 1 (times 1 2 d); chr ":"; Grp 2 (times 2 2 d); star sp; meridiem 3;
       opt (seq [star sp; plus range_sep; star sp;
                 Grp 4 (times 1 2 d); chr ":"; Grp 5 (times 2 2 d); star sp; meridiem 6])].

(** [<tag[^>]*class="[^"]*(?:k1|k2|...)[^"]*"[^>]*>([\s\S]*?)<\/tag>] *)
Definition classed_block (tag : string) (keywords : list string) : regex :=
  seq [lit_i ("<" ++ tag); star (none_of ">"); lit_i "class="; chr dq;
       star (none_of dq); alt (map lit_i keywords); star (none_of dq); chr dq;
       star (none_of ">"); chr ">"; Grp 1 (star_lazy any); lit_i ("</" ++ tag ++ ">")].

Definition cardPatterns : list regex :=
  [ classed_block "div" ["booking"; "appointment"; "event"; "card"; "session"];
    seq [lit_i "<article"; star (none_of ">"); chr ">"; Grp 1 (star_lazy any);
         lit_i "</article>"];
    classed_block "li" ["booking"; "appointment"] ].

(** [.replace(/<[^>]+>/g, ' ').replace(/\s+/g, ' ')] *)
Definition strip_tags (html : string) : string :=
  replace_all (plus sp) " "
    (replace_all (seq [chr "<"; plus (none_of ">"); chr ">"]) " " html).

Definition nl : string := String (ascii_of_nat 10) EmptyString.

(** [/(?:session|class|lesson|tutoring)[:\s]+([^<\n]+)/i] *)
Definition titleRe : regex :=
  seq [alt [lit_i "session"; lit_i "class"; lit_i "lesson"; lit_i "tutoring"];
       plus (Chr (fun a => mem a ":" || is_space a));
       Grp 1 (plus (none_of ("<" ++ nl)))].

(** [/(\d{1,2})[\/\-](\d{1,2})[\/\-](\d{2,4})/] *)
Definition slashRe : regex :=
  seq [Grp 1 (times 1 2 d); one_of "/-"; Grp 2 (times 1 2 d); one_of "/-";
       Grp 3 (times 2 4 d)].

Section Parsing.

Variable Date_parse : string -> option Z.
Variable tza : Z.

(** The two meridiem statements of [parseAppointment], in order. *)
Definition to24 (hour : Z) (mer : option string) : Z :=
  let hour := if strict_eq (option_map toUpperCase mer) "PM" && negb (hour =? 12)
              then hour + 12 else hour in
  if strict_eq (option_map toUpperCase mer) "AM" && (hour =? 12) then 0 else hour.

(** The date part of [parseAppointment]: [None] is the Invalid Date
    on which the function returns [null]. *)
Definition resolveDate (dateStr : string) : option Z :=
  let cleaned := trim (replace_all (chr ",") "" dateStr) in
  match Date_parse cleaned with
  | Some date => Some date
  | None =>
      match match_first slashRe cleaned with
      | Some m =>
          match group 1 m, group 2 m, group 3 m with
          | Some month, Some day, Some year =>
              let year := if Nat.eqb (length year) 2 then "20" ++ year else year in
              match parseInt year, parseInt month, parseInt day with
              | Some y, Some mo, Some dd =>
                  Some (Date_of_fields tza y (mo - 1) dd 0 0 0 0)
              | _, _, _ => None
              end
          | _, _, _ => None
          end
      | None => None
      end
  end.

(** [new Date(date)] followed by [setHours(hour, min, 0, 0)] on the
    captures [gh], [gm] and [gmer] of [timeMatch]. *)
Definition clockOn (date : Z) (timeMatch : MatchResult) (gh gm gmer : nat)
    : option Z :=
  match group gh timeMatch, group gm timeMatch with
  | Some h, Some m =>
      match parseInt h, parseInt m with
      | Some hour, Some minute =>
          Some (setHours tza date (to24 hour (group gmer timeMatch)) minute 0 0)
      | _, _ => None
      end
  | _, _ => None
  end.

Definition inferTitle (contextText : string) : string :=
  match match_first titleRe contextText with
  | Some titleMatch =>
      match group 1 titleMatch with
      | Some t => substring 0 50 (trim t)
      | None => "Mathnasium Session"
      end
  | None => "Mathnasium Session"
  end.

(** [parseAppointment(dateStr, timeMatch, contextText)]; [None] is
    [null]. *)
Definition parseAppointment (dateStr : string) (timeMatch : MatchResult)
    (contextText : string) : option Appointment :=
  match resolveDate dateStr with
  | None => None
  | Some date =>
      match clockOn date timeMatch 1 2 3 with
      | None => None
      | Some start =>
          let end_ :=
            if truthy (group 4 timeMatch) then clockOn date timeMatch 4 5 6
            else Some (start + 60 * 60 * 1000) in
          match end_ with
          | None => None
          | Some e =>
              Some (mkAppointment (inferTitle contextText) (Some start) (Some e)
                                  None None None)
          end
      end
  end.

(** The first date pattern that matches [text] gives [dateStr]. *)
Fixpoint findDate (patterns : list regex) (text : string) : option string :=
  match patterns with
  | [] => None
  | dp :: rest =>
      match exec_at dp text 0 with
      | Some dm => Some (matched dm)
      | None => findDate rest text
      end
  end.

Definition option_list {A : Type} (x : option A) : list A :=
  match x with Some a => [a] | None => [] end.

(** The body of [for (const match of matches)]. *)
Definition scanCard (card : MatchResult) : list Appointment :=
  let cardHtml := or_default (group 1 card) (matched card) in
  let text := strip_tags cardHtml in
  let dateStr := findDate datePatterns text in
  let tm := exec_at timePattern text 0 in
  match dateStr, tm with
  | Some ds, Some tm =>
      if truthy dateStr then option_list (parseAppointment ds tm text) else []
  | _, _ => []
  end.

(** The loop over [cardPatterns], left by the first pattern that gave
    an appointment. *)
Fixpoint scanCards (patterns : list regex) (html : string) : list Appointment :=
  match patterns with
  | [] => []
  | pattern :: rest =>
      match flat_map scanCard (matchAll pattern html) with
      | [] => scanCards rest html
      | appointments => appointments
      end
  end.

(** The body of [while ((dm = dp.exec(plainText)) !== null)]. *)
Definition scanNear (plainText : string) (dm : MatchResult) : list Appointment :=
  let nearbyText := substring_js (index dm - 100) (index dm + 200) plainText in
  match exec_at timePattern nearbyText 0 with
  | Some tm => option_list (parseAppointment (matched dm) tm nearbyText)
  | None => []
  end.

Definition scanDocument (html : string) : list Appointment :=
  let plainText := strip_tags html in
  flat_map (fun dp => flat_map (scanNear plainText) (matchAll dp plainText))
           datePatterns.

Definition extractAppointmentsFromHTML (html : string) : list Appointment :=
  match scanCards cardPatterns html with
  | [] => scanDocument html
  | appointments => appointments
  end.

End Parsing.

(** ** generateICS *)

(** The text that [generateICS] hashes, and the identifier it makes. *)
Definition uid_content (title : string) (s e : Z) : string :=
  title ++ "-" ++ toISOString s ++ "-" ++ toISOString e.

Definition event_uid (title : string) (s e : Z) : string :=
  md5_hex (uid_content title s e) ++ "@appointy-sync".

(** The body of the loop of [generateICS]; [apt.start.toISOString()] on
    an absent date is a TypeError. *)
Definition addEvent (calendar : ICal.Calendar) (apt : Appointment)
    : Result ICal.Calendar :=
  match start apt, end_ apt with
  | Some s, Some e =>
      let uid := event_uid (title apt) s e in
      let event := ICal.mkEvent uid s e (title apt) None "Mathnasium of Portland" [] in
      Ok (ICal.createEvent calendar
            (ICal.createAlarm event (ICal.mkAlarm "display" (- 60 * 60) None)))
  | _, _ => Throw "Cannot read properties of null (reading 'toISOString')"
  end.

Fixpoint addEvents (calendar : ICal.Calendar) (appointments : list Appointment)
    : Result ICal.Calendar :=
  match appointments with
  | [] => Ok calendar
  | apt :: rest =>
      match addEvent calendar apt with
      | Ok calendar' => addEvents calendar' rest
      | Throw msg => Throw msg
      end
  end.

(** The calendar object of [generateICS], before [calendar.toString()]. *)
Definition buildCalendar (appointments : list Appointment)
    (calendarName : option string) : Result ICal.Calendar :=
  addEvents
    (ICal.mkCalendar calendarName "America/New_York"
       (Some ("appointy-sync", "calendar", "EN")) (60 * 60) [])
    appointments.

Section Handler.

Variable Date_parse : string -> option Z.
Variable tza : Z.

(** [calendar.toString()] of ical-generator. *)
Variable ical_toString : ICal.Calendar -> string.

Definition generateICS (appointments : list Appointment)
    (calendarName : option string) : M string :=
  match buildCalendar appointments calendarName with
  | Ok calendar => ret (ical_toString calendar)
  | Throw msg => throw msg
  end.

(** [scrapeWithFlaresolverr(config)]: the requests to the FlareSolverr
    service are one call of the collaborator, which yields the HTML of
    the bookings page or throws. *)
Definition scrapeWithFlaresolverr (upstream : Upstream string)
    : M (list Appointment) :=
  html <- call_upstream upstream ;;
  ret (extractAppointmentsFromHTML Date_parse tza html).

(** The token test: the right operand of [||] runs only when the
    lengths are equal. *)
Definition tokenRejected (expected provided : list Z) : M bool :=
  if negb (Nat.eqb (List.length expected) (List.length provided)) then ret true
  else
    equal <- timingSafeEqual expected provided ;;
    ret (negb equal).

(** The statements of [handler] from [// Check cache] on. *)
Definition serve (config : Config) (req : Request) (upstream : Upstream string)
    : M Response :=
  now <- Date_now ;;
  let forceRefresh := strict_eq (refresh req) "true" in
  cached <- get_cachedICS ;;
  since <- get_cacheTime ;;
  if negb forceRefresh && truthy cached && (now - since <? CACHE_TTL) then
    ret (mkResponse 200 (calendar_headers "HIT") (Send (or_default cached "")))
  else
    try_catch
      (if negb (truthy (flaresolverrUrl config)) then
         throw "FlareSolverr URL not configured. Visit /api/admin"
       else if negb (truthy (appointyEmail config))
               || negb (truthy (appointyPassword config)) then
         throw "Appointy credentials not configured"
       else
         appointments <- scrapeWithFlaresolverr upstream ;;
         icsContent <- generateICS appointments (calendarName config) ;;
         set_cachedICS icsContent ;;
         set_cacheTime now ;;
         ret (mkResponse 200 (calendar_headers "MISS") (Send icsContent)))
      (fun message =>
         cached <- get_cachedICS ;;
         if truthy cached then
           ret (mkResponse 200 (calendar_headers "STALE") (Send (or_default cached "")))
         else
           ret (mkResponse 500 [] (Json message))).

Definition handler (config : Config) (req : Request) (upstream : Upstream string)
    : M Response :=
  if negb (truthy (calendarToken config)) then
    ret (mkResponse 500 [] (Json "Not configured. Visit /api/admin"))
  else
    let expected := Buffer_from (or_default (calendarToken config) "") in
    let provided := Buffer_from (or_default (token req) "") in
    rejected <- tokenRejected expected provided ;;
    if (rejected : bool) then
      ret (mkResponse 403 [] (Json "Invalid token"))
    else
      serve config req upstream.

End Handler.

End Api.

(* ================================================================== *)
(** * src/server.js                                                    *)
(* ================================================================== *)

Module Server.

Import Http.
Local Open Scope handler_scope.

(** The fields of [loadConfig()] that the calendar route reads. *)
Record Config : Type := mkConfig {
  calendarToken : option string;
  calendarName : option string
}.

(** [req.params.token] and [req.query.refresh]. *)
Record Request : Type := mkRequest {
  token : string;
  refresh : option string
}.

(** The objects [extractAppointments] pushes onto [results]. *)
Record RawAppointment : Type := mkRaw {
  raw_title : option string;
  month : option string;
  day : string;
  year : string;
  hour : string;
  minute : string;
  ampm : option string
}.

Definition monthMap : list (string * Z) :=
  [ ("jan", 0); ("feb", 1); ("mar", 2); ("apr", 3); ("may", 4); ("jun", 5);
    ("jul", 6); ("aug", 7); ("sep", 8); ("oct", 9); ("nov", 10); ("dec", 11) ].

Fixpoint lookup (key : string) (table : list (string * Z)) : option Z :=
  match table with
  | [] => None
  | (k, v) :: rest => if (k =? key)%string then Some v else lookup key rest
  end.

(** The two statements that convert to the 24-hour clock. *)
Definition to24 (hour : Z) (ampm : option string) : Z :=
  let hour := if strict_eq ampm "pm" && negb (hour =? 12) then hour + 12 else hour in
  if strict_eq ampm "am" && (hour =? 12) then 0 else hour.

Section WithHost.

Variable tza : Z.
Variable ical_toString : ICal.Calendar -> string.

(** [parseAppointmentData(raw)]; [None] is [null]. *)
Definition parseAppointmentData (raw : RawAppointment) : option Appointment :=
  match month raw with
  | None => None
  | Some m =>
      match lookup (toLowerCase m) monthMap with
      | None => None
      | Some monthIndex =>
          match parseInt (year raw), parseInt (day raw),
                parseInt (hour raw), parseInt (minute raw) with
          | Some y, Some dd, Some h, Some mi =>
              let h := to24 h (option_map toLowerCase (ampm raw)) in
              let start := Date_of_fields tza y monthIndex dd h mi 0 0 in
              let end_ := start + 60 * 60 * 1000 in
              Some (mkAppointment (or_default (raw_title raw) "Mathnasium Session")
                                  (Some start) (Some end_) None None None)
          | _, _, _, _ => None
          end
      end
  end.

(** The text that [generateICS] hashes, and the identifier it makes. *)
Definition uid_content (s e : Z) : string :=
  toISOString s ++ "-" ++ toISOString e.

Definition event_uid (s e : Z) : string :=
  md5_hex (uid_content s e) ++ "@appointy".

(** The body of the loop of [generateICS]. *)
Definition addRaw (calendar : ICal.Calendar) (raw : RawAppointment) : ICal.Calendar :=
  match parseAppointmentData raw with
  | Some (mkAppointment title (Some s) (Some e) _ _ _) =>
      let event := ICal.mkEvent (event_uid s e) s e title None
                                "Mathnasium of Portland" [] in
      ICal.createEvent calendar
        (ICal.createAlarm event (ICal.mkAlarm "display" (- 60 * 60) None))
  | _ => calendar
  end.

Definition buildCalendar (rawAppointments : list RawAppointment)
    (calendarName : option string) : ICal.Calendar :=
  fold_left addRaw rawAppointments
    (ICal.mkCalendar calendarName "America/New_York" None (60 * 60) []).

Definition generateICS (rawAppointments : list RawAppointment)
    (calendarName : option string) : string :=
  ical_toString (buildCalendar rawAppointments calendarName).

(** [scrapeAppointments(config)]: the browser session is one call of
    the collaborator, which yields the raw appointments or throws. *)
Definition scrapeAppointments (upstream : Upstream (list RawAppointment))
    : M (list RawAppointment) :=
  call_upstream upstream.

(** The statements of the route from [const now = Date.now()] on. *)
Definition serve (config : Config) (req : Request)
    (upstream : Upstream (list RawAppointment)) : M Response :=
  now <- Date_now ;;
  let forceRefresh := strict_eq (refresh req) "true" in
  cached <- get_cachedICS ;;
  since <- get_cacheTime ;;
  if negb forceRefresh && truthy cached && (now - since <? CACHE_TTL) then
    ret (mkResponse 200 (calendar_headers "HIT") (Send (or_default cached "")))
  else
    try_catch
      (appointments <- scrapeAppointments upstream ;;
       set_cachedICS (generateICS appointments (calendarName config)) ;;
       set_cacheTime now ;;
       cached <- get_cachedICS ;;
       ret (mkResponse 200 (calendar_headers "MISS") (Send (or_default cached ""))))
      (fun message =>
         cached <- get_cachedICS ;;
         if truthy cached then
           ret (mkResponse 200 (calendar_headers "STALE") (Send (or_default cached "")))
         else
           ret (mkResponse 500 [] (Send ("Error fetching appointments: " ++ message)))).

(** [app.get('/calendar/:token', ...)] *)
Definition get_calendar (config : Config) (req : Request)
    (upstream : Upstream (list RawAppointment)) : M Response :=
  if negb (truthy (calendarToken config))
     || negb (strict_eq (calendarToken config) (token req)) then
    ret (mkResponse 403 [] (Send "Invalid token"))
  else
    serve config req upstream.

End WithHost.

End Server.

(* ================================================================== *)
(** * src/server.js: the page text                                     *)
(* ================================================================== *)

Module ServerPage.

(** The objects that [extractAppointments] pushes onto [results]: the
    fields that [parseAppointmentData] reads, and [dayName] and
    [rawText], which nothing reads. *)
Record Extracted : Type := mkExtracted {
  fields : Server.RawAppointment;
  dayName : option string;
  rawText : string
}.

(** A capture where a string is expected: ['20' + year] and [parseInt]
    turn [undefined] into the text [undefined]. *)
Definition text_of (x : option string) : string :=
  match x with
  | Some s => s
  | None => "undefined"
  end.

Definition nl : regex := Chr (Ascii.eqb (ascii_of_nat 10)).

(** [/(\w{3})\s*\|\s*(\w{3})\s+(\d{1,2}),\s*(\d{2})\s*\n?\s*Scheduled\s*\n?\s*(\d{1,2}):(\d{2})(am|pm)/gi] *)
Definition appointyPattern : regex :=
  seq [Grp 1 (times 3 3 w); star sp; chr "|"; star sp; Grp 2 (times 3 3 w); plus sp;
       Grp 3 (times 1 2 d); chr ","; star sp; Grp 4 (times 2 2 d);
       star sp; opt nl; star sp; lit_i "Scheduled"; star sp; opt nl; star sp;
       Grp 5 (times 1 2 d); chr ":"; Grp 6 (times 2 2 d);
       Grp 7 (alt [lit_i "am"; lit_i "pm"])].

(** [/(\w{3})\s+(\d{1,2}),\s*(\d{2,4})/g] *)
Definition datePattern : regex :=
  seq [Grp 1 (times 3 3 w); plus sp; Grp 2 (times 1 2 d); chr ","; star sp;
       Grp 3 (times 2 4 d)].

(** [/(\d{1,2}):(\d{2})\s*(am|pm)/i] *)
Definition timePattern : regex :=
  seq [Grp 1 (times 1 2 d); chr ":"; Grp 2 (times 2 2 d); star sp;
       Grp 3 (alt [lit_i "am"; lit_i "pm"])].

(** The body of the first [while] loop. *)
Definition ofMatch (m : MatchResult) : Extracted :=
  mkExtracted
    (Server.mkRaw (Some "Mathnasium Session") (group 2 m) (text_of (group 3 m))
                  ("20" ++ text_of (group 4 m)) (text_of (group 5 m))
                  (text_of (group 6 m)) (group 7 m))
    (group 1 m) (matched m).

(** The body of the second [while] loop; [year.length] on an absent
    capture is a TypeError. *)
Definition nearDate (bodyText : string) (dateMatch : MatchResult)
    : Result (list Extracted) :=
  let nearbyText := substring_js (index dateMatch) (index dateMatch + 200) bodyText in
  match exec_at timePattern nearbyText 0 with
  | Some timeMatch =>
      match group 3 dateMatch with
      | None => Throw "Cannot read properties of undefined (reading 'length')"
      | Some year =>
          let year := if Nat.eqb (length year) 2 then "20" ++ year else year in
          Ok [ mkExtracted
                 (Server.mkRaw (Some "Mathnasium Session") (group 1 dateMatch)
                               (text_of (group 2 dateMatch)) year
                               (text_of (group 1 timeMatch)) (text_of (group 2 timeMatch))
                               (group 3 timeMatch))
                 None (substring 0 100 nearbyText) ]
      end
  | None => Ok []
  end.

(** The function that [extractAppointments] passes to [page.evaluate],
    applied to [document.body.innerText]. *)
Definition extractAppointments (bodyText : string) : Result (list Extracted) :=
  match map ofMatch (matchAll appointyPattern bodyText) with
  | [] =>
      match Scraper.map_result (nearDate bodyText) (matchAll datePattern bodyText) with
      | Ok pushed => Ok (List.concat pushed)
      | Throw msg => Throw msg
      end
  | results => Ok results
  end.

(** ** The scroll loop of [scrapeAppointments] *)

(** [/\w{3}\s*\|\s*\w{3}\s+\d{1,2},\s*\d{2}/g] *)
Definition countPattern : regex :=
  seq [times 3 3 w; star sp; chr "|"; star sp; times 3 3 w; plus sp;
       times 1 2 d; chr ","; star sp; times 2 2 d].

(** [matches ? matches.length : 0] *)
Definition countDates (text : string) : nat :=
  match match_global countPattern text with
  | Some matches => List.length matches
  | None => O
  end.

Record Scroll : Type := mkScroll {
  previousCount : nat;
  noChangeCount : nat;
  scrollAttempts : nat
}.

Definition maxScrollAttempts : nat := 50.

(** One round of the loop on the text that the page shows when the
    dates are counted. *)
Definition scrollOnce (text : string) (st : Scroll) : Scroll :=
  let currentCount := countDates text in
  mkScroll currentCount
           (if Nat.eqb currentCount (previousCount st) then S (noChangeCount st) else O)
           (S (scrollAttempts st)).

(** [while (scrollAttempts < maxScrollAttempts && noChangeCount < 5)];
    [page i] is the text of the page in round [i]. *)
Fixpoint scrollLoop (fuel : nat) (page : nat -> string) (st : Scroll) : Scroll :=
  match fuel with
  | O => st
  | S fuel' =>
      if (scrollAttempts st <? maxScrollAttempts)%nat && (noChangeCount st <? 5)%nat
      then scrollLoop fuel' page (scrollOnce (page (scrollAttempts st)) st)
      else st
  end.

Definition scrollToEnd (page : nat -> string) : Scroll :=
  scrollLoop maxScrollAttempts page (mkScroll 0 0 0).

End ServerPage.

(* ================================================================== *)
(** * Sessions and cookies (src/server.js and api/admin.js)            *)
(* ================================================================== *)

(** [validateSession] and [parseCookies] read the same in both files;
    [createSession] differs. *)
Module Web.

(** A [Map], or an object used as one, with string keys: the entries in
    insertion order, one per key. *)
Definition Dict (V : Type) : Type := list (string * V).

Fixpoint get {V : Type} (key : string) (m : Dict V) : option V :=
  match m with
  | [] => None
  | (k, v) :: m' => if (k =? key)%string then Some v else get key m'
  end.

Fixpoint set {V : Type} (key : string) (v : V) (m : Dict V) : Dict V :=
  match m with
  | [] => [(key, v)]
  | (k, v0) :: m' =>
      if (k =? key)%string then (k, v) :: m' else (k, v0) :: set key v m'
  end.

Fixpoint delete {V : Type} (key : string) (m : Dict V) : Dict V :=
  match m with
  | [] => []
  | (k, v0) :: m' =>
      if (k =? key)%string then delete key m' else (k, v0) :: delete key m'
  end.

(** [s.split(sep)] for a separator of one character. *)
Fixpoint split (sep : ascii) (s : string) : list string :=
  match s with
  | EmptyString => [""]
  | String a s' =>
      if Ascii.eqb a sep then "" :: split sep s'
      else match split sep s' with
           | piece :: rest => String a piece :: rest
           | [] => [String a ""]
           end
  end.

(** The body of [forEach] in [parseCookies]: [name] and [value] are the
    first two pieces of the trimmed text.  The assignment
    [cookies[name] = value] makes a property of the object, except under
    the name [__proto__], where a string is ignored. *)
Definition addCookie (cookies : Dict string) (c : string) : Dict string :=
  match split "=" (trim c) with
  | name :: value :: _ =>
      if negb (name =? "")%string && negb (value =? "")%string
      then (if (name =? "__proto__")%string then cookies else set name value cookies)
      else cookies
  | _ => cookies
  end.

(** [parseCookies(header)]; the program reads the result under the keys
    [session] and [admin_session] only. *)
Definition parseCookies (header : option string) : Dict string :=
  if truthy header then fold_left addCookie (split ";" (or_default header "")) []
  else [].

(** [validateSession(token)] at the time [now], with the session store
    it leaves. *)
Definition validateSession (now : Z) (token : string) (sessions : Dict Z)
    : bool * Dict Z :=
  match get token sessions with
  | None => (false, sessions)
  | Some time =>
      if time =? 0 then (false, sessions)
      else if now - time >? 86400000 then (false, delete token sessions)
      else (true, sessions)
  end.

(** [cookies.session && validateSession(cookies.session)], the test
    that both admin handlers make before anything else. *)
Definition isLoggedIn (now : Z) (sessionToken : option string) (sessions : Dict Z)
    : bool * Dict Z :=
  if truthy sessionToken then validateSession now (or_default sessionToken "") sessions
  else (false, sessions).

End Web.

(* ================================================================== *)
(** * src/server.js: the admin routes                                  *)
(* ================================================================== *)

Module ServerAdmin.

(** The object in [config.json]; [loadConfig()] of a missing or
    unreadable file is the object without properties. *)
Record Stored : Type := mkStored {
  adminPassword : option string;
  appointyEmail : option string;
  appointyPassword : option string;
  appointyBookingUrl : option string;
  calendarToken : option string;
  calendarName : option string
}.

(** [req.body] of a form post: every field is a string or absent. *)
Record Form : Type := mkForm {
  action : option string;
  password : option string;
  f_adminPassword : option string;
  f_appointyEmail : option string;
  f_appointyPassword : option string;
  f_appointyBookingUrl : option string;
  f_calendarToken : option string;
  f_calendarName : option string
}.

(** What the routes read of a request: [req.headers.cookie],
    [req.headers.host], [req.query.saved] and [req.body]. *)
Record Request : Type := mkRequest {
  cookie : option string;
  host : option string;
  saved : option string;
  body : Form
}.

(** The configuration file and the [sessions] map. *)
Record State : Type := mkState {
  config : Stored;
  sessions : Web.Dict Z
}.

(** What [crypto.randomBytes(24).toString('hex')] and
    [crypto.randomBytes(32).toString('hex')] give when the request calls
    them. *)
Record Entropy : Type := mkEntropy {
  hex24 : string;
  hex32 : string
}.

(** The HTML pages, by the call that renders them. *)
Inductive Page : Type :=
| SetupPage
| LoginPage (error : string)
| AdminPage (config : Stored) (req : Request).

Inductive Reply : Type :=
| Shows (page : Page)
| Redirects (location : string) (setCookie : option string)
| Health (status method : string) (configured : bool).

(** [x === y] on two values that are strings or absent. *)
Definition same (x y : option string) : bool :=
  match x, y with
  | Some a, Some b => (a =? b)%string
  | None, None => true
  | _, _ => false
  end.

Definition sessionCookie (token : string) : string :=
  "session=" ++ token ++ "; Path=/; HttpOnly; Max-Age=86400".

(** [createSession()] at the time [now], when [crypto] draws [token]. *)
Definition createSession (now : Z) (token : string) (sessions : Web.Dict Z)
    : Web.Dict Z :=
  Web.set token now sessions.

(** [app.get('/admin', ...)] *)
Definition get_admin (now : Z) (req : Request) (st : State) : Reply * State :=
  let config := config st in
  let cookies := Web.parseCookies (cookie req) in
  let '(isLoggedIn, sessions) :=
    Web.isLoggedIn now (Web.get "session" cookies) (sessions st) in
  let st := mkState config sessions in
  if negb (truthy (adminPassword config)) then (Shows SetupPage, st)
  else if negb isLoggedIn then (Shows (LoginPage ""), st)
  else (Shows (AdminPage config req), st).

(** [app.post('/admin', ...)] *)
Definition post_admin (now : Z) (entropy : Entropy) (req : Request) (st : State)
    : Reply * State :=
  let config := config st in
  let cookies := Web.parseCookies (cookie req) in
  let '(isLoggedIn, sessions) :=
    Web.isLoggedIn now (Web.get "session" cookies) (sessions st) in
  let form := body req in
  if strict_eq (action form) "setup" then
    let newConfig :=
      mkStored (f_adminPassword form) (f_appointyEmail form) (f_appointyPassword form)
               (Some (or_default (f_appointyBookingUrl form)
                        "https://mathnasium-booking.appointy.com/portlandme/my-bookings"))
               (Some (hex24 entropy))
               (Some (or_default (f_calendarName form) "Mathnasium Appointments")) in
    let token := hex32 entropy in
    (Redirects "/admin" (Some (sessionCookie token)),
     mkState newConfig (createSession now token sessions))
  else if strict_eq (action form) "login" then
    if same (password form) (adminPassword config) then
      let token := hex32 entropy in
      (Redirects "/admin" (Some (sessionCookie token)),
       mkState config (createSession now token sessions))
    else (Shows (LoginPage "Invalid password"), mkState config sessions)
  else if strict_eq (action form) "logout" then
    (Redirects "/admin" (Some "session=; Path=/; HttpOnly; Max-Age=0"),
     mkState config sessions)
  else if strict_eq (action form) "save" && isLoggedIn then
    let config :=
      mkStored (if truthy (f_adminPassword form) then f_adminPassword form
                else adminPassword config)
               (f_appointyEmail form) (f_appointyPassword form)
               (f_appointyBookingUrl form)
               (if truthy (f_calendarToken form) then f_calendarToken form
                else calendarToken config)
               (f_calendarName form) in
    (Redirects "/admin?saved=1" None, mkState config sessions)
  else (Redirects "/admin" None, mkState config sessions).

(** [app.get('/health', ...)] and [app.get('/', ...)] *)
Definition get_health (st : State) : Reply :=
  Health "ok" "puppeteer" (truthy (appointyEmail (config st))).

Definition get_root : Reply := Redirects "/admin" None.

(** What the calendar route reads of the configuration. *)
Definition calendar_config (c : Stored) : Server.Config :=
  Server.mkConfig (calendarToken c) (calendarName c).

End ServerAdmin.

(* ================================================================== *)
(** * api/admin.js and the configuration of api/calendar.js            *)
(* ================================================================== *)

Module ApiAdmin.

(** [process.env]. *)
Record Env : Type := mkEnv {
  ADMIN_PASSWORD : option string;
  UPSTASH_REDIS_REST_URL : option string;
  UPSTASH_REDIS_REST_TOKEN : option string;
  APPOINTY_EMAIL : option string;
  APPOINTY_PASSWORD : option string;
  APPOINTY_BOOKING_URL : option string;
  FLARESOLVERR_URL : option string;
  CALENDAR_TOKEN : option string;
  CALENDAR_NAME : option string
}.

(** The object kept under the key [appointy:config]: the configuration
    and [updatedAt]. *)
Record Saved : Type := mkSaved {
  saved_config : Api.Config;
  updatedAt : string
}.

(** What the Redis service does with the request it gets: it answers
    with [result]; it answers without one (an error object); or the
    call itself fails and [fetch] or [res.json()] throws. *)
Inductive Redis : Type :=
| Answers
| Refuses
| Unreachable (message : string).

(** The value under [appointy:config], as [JSON.parse] reads it
    ([None] when there is none or it does not parse), and the
    [sessions] map. *)
Record State : Type := mkState {
  stored : option Saved;
  sessions : Web.Dict Z
}.

(** [req.body] of a form post. *)
Record Form : Type := mkForm {
  action : option string;
  password : option string;
  f_appointyEmail : option string;
  f_appointyPassword : option string;
  f_appointyBookingUrl : option string;
  f_flaresolverrUrl : option string;
  f_calendarToken : option string;
  f_calendarName : option string
}.

Definition no_form : Form := mkForm None None None None None None None None.

(** [req.method], [req.headers.cookie], [req.headers.host],
    [req.headers['x-forwarded-proto']], [req.query.saved], [req.body]. *)
Record Request : Type := mkRequest {
  method : string;
  cookie : option string;
  host : option string;
  proto : option string;
  saved : option string;
  body : option Form
}.

Inductive Page : Type :=
| NeedsSetupPage (missing : string)
| LoginPage (error : string)
| AdminPage (config : option Saved) (baseUrl : string) (saved : bool).

Inductive Reply : Type :=
| Shows (page : Page)
| Redirects (status : Z) (location : string) (setCookie : option string).

Definition hasRedis (env : Env) : bool :=
  truthy (UPSTASH_REDIS_REST_URL env) && truthy (UPSTASH_REDIS_REST_TOKEN env).

(** [redisGet('appointy:config')] followed by [JSON.parse]. *)
Definition redisGet (env : Env) (redis : Redis) (st : State) : Result (option Saved) :=
  if negb (hasRedis env) then Ok None
  else match redis with
       | Answers => Ok (stored st)
       | Refuses => Ok None
       | Unreachable message => Throw message
       end.

(** [getConfig()] of api/admin.js. *)
Definition getConfig (env : Env) (redis : Redis) (st : State) : Result (option Saved) :=
  redisGet env redis st.

(** [saveConfig(config)]: what is stored afterwards. *)
Definition saveConfig (env : Env) (redis : Redis) (value : Saved) (st : State)
    : Result State :=
  if negb (hasRedis env) then Ok st
  else match redis with
       | Answers => Ok (mkState (Some value) (sessions st))
       | Refuses => Ok st
       | Unreachable message => Throw message
       end.

(** [createSession()]: the new session is stored, then the sessions
    older than a day are removed. *)
Definition createSession (now : Z) (token : string) (sessions : Web.Dict Z)
    : Web.Dict Z :=
  filter (fun entry => negb (now - snd entry >? 86400000)) (Web.set token now sessions).

Definition sessionCookie (token : string) : string :=
  "admin_session=" ++ token ++ "; Path=/; HttpOnly; SameSite=Strict; Max-Age=86400".

Definition defaultBookingUrl : string :=
  "https://mathnasium-booking.appointy.com/portlandme/my-bookings".

(** The object [newConfig] of the save action. *)
Definition newConfig (now : Z) (hex24 : string) (form : Form) : Saved :=
  mkSaved
    (Api.mkConfig
       (option_map trim (f_appointyEmail form))
       (option_map trim (f_appointyPassword form))
       (Some (or_default (option_map trim (f_appointyBookingUrl form)) defaultBookingUrl))
       (option_map trim (f_flaresolverrUrl form))
       (Some (or_default (option_map trim (f_calendarToken form)) hex24))
       (Some (or_default (option_map trim (f_calendarName form)) "Mathnasium Appointments")))
    (toISOString now).

(** The last statements of [handler]: the login page, or the panel. *)
Definition showPanel (env : Env) (redis : Redis) (req : Request) (isLoggedIn : bool)
    (st : State) : Result Reply * State :=
  if negb isLoggedIn then (Ok (Shows (LoginPage "")), st)
  else
    match getConfig env redis st with
    | Throw message => (Throw message, st)
    | Ok config =>
        let host := or_default (host req) "localhost" in
        let protocol := or_default (proto req) "https" in
        (Ok (Shows (AdminPage config (protocol ++ "://" ++ host)
                              (strict_eq (saved req) "1"))), st)
    end.

(** [handler(req, res)] of api/admin.js at the time [now]; [hex24] and
    [hex32] are what [crypto.randomBytes] gives if it is called. *)
Definition handler (env : Env) (redis : Redis) (now : Z) (hex24 hex32 : string)
    (req : Request) (st : State) : Result Reply * State :=
  if negb (truthy (ADMIN_PASSWORD env)) then
    (Ok (Shows (NeedsSetupPage "ADMIN_PASSWORD")), st)
  else if negb (hasRedis env) then
    (Ok (Shows (NeedsSetupPage "UPSTASH")), st)
  else
    let cookies := Web.parseCookies (cookie req) in
    let sessionToken := Web.get "admin_session" cookies in
    let '(isLoggedIn, sessions) := Web.isLoggedIn now sessionToken (sessions st) in
    let st := mkState (stored st) sessions in
    if (method req =? "POST")%string then
      let form := match body req with Some form => form | None => no_form end in
      if strict_eq (action form) "login" then
        if ServerAdmin.same (password form) (ADMIN_PASSWORD env) then
          (Ok (Redirects 302 "/api/admin" (Some (sessionCookie hex32))),
           mkState (stored st) (createSession now hex32 sessions))
        else (Ok (Shows (LoginPage "Invalid password")), st)
      else if strict_eq (action form) "logout" then
        (Ok (Redirects 302 "/api/admin"
               (Some "admin_session=; Path=/; HttpOnly; Max-Age=0")),
         mkState (stored st)
                 (if truthy sessionToken
                  then Web.delete (or_default sessionToken "") sessions
                  else sessions))
      else if strict_eq (action form) "save" && isLoggedIn then
        match saveConfig env redis (newConfig now hex24 form) st with
        | Throw message => (Throw message, st)
        | Ok st => (Ok (Redirects 302 "/api/admin?saved=1" None), st)
        end
      else showPanel env redis req isLoggedIn st
    else showPanel env redis req isLoggedIn st.

(** ** api/calendar.js: [getConfig] *)

(** The configuration that the feed handler works with: the stored
    one, or else the one of the environment. *)
Definition feedConfig (env : Env) (redis : Redis) (st : State) : Result Api.Config :=
  match redisGet env redis st with
  | Throw message => Throw message
  | Ok (Some stored) => Ok (saved_config stored)
  | Ok None =>
      Ok (Api.mkConfig (APPOINTY_EMAIL env) (APPOINTY_PASSWORD env)
            (Some (or_default (APPOINTY_BOOKING_URL env) defaultBookingUrl))
            (FLARESOLVERR_URL env) (CALENDAR_TOKEN env)
            (Some (or_default (CALENDAR_NAME env) "Mathnasium Appointments")))
  end.

End ApiAdmin.

(* ================================================================== *)
(** * api/health.js                                                    *)
(* ================================================================== *)

Module ApiHealth.

(** The object of [res.json]. *)
Record Report : Type := mkReport {
  status : string;
  timestamp : string;
  redis : string;
  flaresolverr : string;
  has_appointyEmail : bool;
  has_appointyPassword : bool;
  has_flaresolverrUrl : bool;
  has_calendarToken : bool;
  has_adminPassword : bool
}.

Section Handler.

(** [JSON.parse] of the text under [appointy:config], read as a
    configuration object (a value that is no object has none of the
    properties). *)
Variable JSON_parse : string -> Result Api.Config.

(** The test request to [`${url}/v1`]: [testData.status], or the
    error that [fetch] or [testRes.json()] throws. *)
Variable probe : string -> Result (option string).

(** The first [try] block: [data] is what the Redis request gives,
    [data.result] or the error thrown. *)
Definition readConfig (data : Result (option string)) : string * option Api.Config :=
  match data with
  | Throw message => ("error: " ++ message, None)
  | Ok result =>
      if truthy result then
        match JSON_parse (or_default result "") with
        | Ok config => ("connected", Some config)
        | Throw message => ("error: " ++ message, None)
        end
      else ("connected (no config)", None)
  end.

(** [config?.field]. *)
Definition field (config : option Api.Config) (f : Api.Config -> option string)
    : option string :=
  match config with
  | Some c => f c
  | None => None
  end.

Definition testFlaresolverr (config : option Api.Config) : string :=
  if truthy (field config Api.flaresolverrUrl) then
    match probe (or_default (field config Api.flaresolverrUrl) "" ++ "/v1") with
    | Ok status => if strict_eq status "ok" then "connected" else "error"
    | Throw message => "unreachable: " ++ message
    end
  else "not configured".

(** [handler(req, res)] at the time [now]. *)
Definition handler (env : ApiAdmin.Env) (now : Z) (data : Result (option string))
    : Report :=
  let '(redisStatus, config) :=
    if ApiAdmin.hasRedis env then readConfig data else ("not configured", None) in
  mkReport "ok" (toISOString now) redisStatus (testFlaresolverr config)
           (truthy (field config Api.appointyEmail))
           (truthy (field config Api.appointyPassword))
           (truthy (field config Api.flaresolverrUrl))
           (truthy (field config Api.calendarToken))
           (truthy (ApiAdmin.ADMIN_PASSWORD env)).

End Handler.

End ApiHealth.

(* ================================================================== *)
(** * api/calendar.js: the requests to FlareSolverr                    *)
(* ================================================================== *)

Module Flare.

(** The cookie list of a solution, a JSON value that the program passes
    on and never looks into: its JSON text. *)
Definition Cookies : Type := string.

(** What the program reads of a reply of FlareSolverr: [status],
    [message] and, of [solution], [cookies], [response] and [url]. *)
Record Solution : Type := mkSolution {
  cookies : option Cookies;
  response : option string;
  url : option string
}.

Record Answer : Type := mkAnswer {
  status : option string;
  message : option string;
  solution : option Solution
}.

(** The JSON bodies that the program posts ([maxTimeout] is 60000 in all
    of them).  A property that is [undefined] is left out by
    [JSON.stringify], so that [cookies] is absent from the first request.
    [postData] is given by its name-value pairs, which
    [new URLSearchParams(loginData).toString()] encodes. *)
Inductive Command : Type :=
| request_get (url : option string) (cookies : option Cookies)
| request_post (url : string) (postData : Web.Dict string) (cookies : option Cookies).

(** One [fetch]: the address and the body. *)
Record Call : Type := mkCall {
  endpoint : string;
  command : Command
}.

(** [s.includes(needle)] *)
Fixpoint includes (needle s : string) : bool :=
  String.prefix needle s ||
  match s with
  | String _ s' => includes needle s'
  | EmptyString => false
  end.

(** The double and the single quote: the class that is written Q in the
    patterns below. *)
Definition quotes : string := dq ++ "'".

(** [/<form[^>]*action=Q([^Q]+)Q/i] *)
Definition formPattern : regex :=
  seq [lit_i "<form"; star (none_of ">"); lit_i "action="; one_of quotes;
       Grp 1 (plus (none_of quotes)); one_of quotes].

(** [/<input[^>]*type=QhiddenQ[^>]*name=Q([^Q]+)Q[^>]*value=Q(V)Q/gi],
    where V is [^Q] any number of times. *)
Definition hiddenPattern : regex :=
  seq [lit_i "<input"; star (none_of ">"); lit_i "type="; one_of quotes;
       lit_i "hidden"; one_of quotes; star (none_of ">"); lit_i "name="; one_of quotes;
       Grp 1 (plus (none_of quotes)); one_of quotes; star (none_of ">");
       lit_i "value="; one_of quotes; Grp 2 (star (none_of quotes)); one_of quotes].

(** [hiddenFields[m[1]] = m[2]]: an assignment to [__proto__] of an
    object literal leaves its own properties as they are. *)
Definition addHidden (hiddenFields : Web.Dict string) (m : MatchResult)
    : Web.Dict string :=
  let name := ServerPage.text_of (group 1 m) in
  if (name =? "__proto__")%string then hiddenFields
  else Web.set name (ServerPage.text_of (group 2 m)) hiddenFields.

(** [{ ...hiddenFields, email, password, username }]; [URLSearchParams]
    turns a value that is [undefined] into the text [undefined]. *)
Definition loginData (config : Api.Config) (hiddenFields : Web.Dict string)
    : Web.Dict string :=
  Web.set "username" (ServerPage.text_of (Api.appointyEmail config))
    (Web.set "password" (ServerPage.text_of (Api.appointyPassword config))
       (Web.set "email" (ServerPage.text_of (Api.appointyEmail config)) hiddenFields)).

(** The text [type=] followed by [password] in double quotes. *)
Definition passwordField : string := "type=" ++ dq ++ "password" ++ dq.

(** The variables [cookies], [html] and [currentUrl]. *)
Record Page : Type := mkPage {
  jar : option Cookies;
  html : option string;
  currentUrl : option string
}.

Definition ofSolution (s : Solution) : Page :=
  mkPage (cookies s) (response s) (url s).

(** Computations that call FlareSolverr and may throw: the calls made so
    far are threaded through. *)
Definition Run (A : Type) : Type := list Call -> Result A * list Call.

Definition ret {A : Type} (a : A) : Run A := fun calls => (Ok a, calls).

Definition fail {A : Type} (message : string) : Run A :=
  fun calls => (Throw message, calls).

Definition bind {A B : Type} (m : Run A) (f : A -> Run B) : Run B :=
  fun calls =>
    match m calls with
    | (Ok a, calls') => f a calls'
    | (Throw message, calls') => (Throw message, calls')
    end.

Definition lift {A : Type} (r : Result A) : Run A := fun calls => (r, calls).

Declare Scope flare_scope.
Notation "x <- m ;; k" := (bind m (fun x => k))
  (at level 61, m at next level, right associativity) : flare_scope.
Local Open Scope flare_scope.

(** A method call on a value that is [undefined] is a TypeError. *)
Definition cannot_read (property : string) : string :=
  "Cannot read properties of undefined (reading '" ++ property ++ "')".

Definition read {A : Type} (x : option A) (property : string) : Run A :=
  match x with
  | Some a => ret a
  | None => fail (cannot_read property)
  end.

Section Scrape.

(** [await (await fetch(endpoint, { method: 'POST', body })).json()] for
    the call number [n] of a scrape, counted from 0: the reply, or the
    error of the network or of the JSON parser. *)
Variable fetch : nat -> Call -> Result Answer.

(** [new URL(u).origin]; the constructor throws on a text that is no
    URL. *)
Variable URL_origin : string -> Result string.

Variable Date_parse : string -> option Z.
Variable tza : Z.

Definition post (flare : option string) (body : Command) : Run Answer :=
  fun calls =>
    let call := mkCall (ServerPage.text_of flare ++ "/v1") body in
    (fetch (List.length calls) call, (calls ++ [call])%list).

(** The condition of [// Check if we need to login]; [||] evaluates its
    right operand only when the left one is false. *)
Definition needsLogin (page : Page) : Run bool :=
  u <- read (currentUrl page) "includes" ;;
  if includes "login" u || includes "sign-in" u then ret true
  else
    h <- read (html page) "includes" ;;
    ret (includes passwordField h).

(** The body of that [if]. *)
Definition login (config : Api.Config) (page : Page) : Run Page :=
  h <- read (html page) "match" ;;
  let u := ServerPage.text_of (currentUrl page) in
  let loginUrl :=
    match match_first formPattern h with
    | Some formMatch => ServerPage.text_of (group 1 formMatch)
    | None => u
    end in
  loginUrl <- (if String.prefix "/" loginUrl
               then origin <- lift (URL_origin u) ;; ret (origin ++ loginUrl)
               else ret loginUrl) ;;
  let hiddenFields := fold_left addHidden (matchAll hiddenPattern h) [] in
  loginResult <- post (Api.flaresolverrUrl config)
                   (request_post loginUrl (loginData config hiddenFields) (jar page)) ;;
  if strict_eq (status loginResult) "ok" then
    s <- read (solution loginResult) "cookies" ;;
    ret (ofSolution s)
  else ret page.

(** [// Step 3: Navigate to bookings page if needed] *)
Definition navigate (config : Api.Config) (page : Page) : Run Page :=
  u <- read (currentUrl page) "includes" ;;
  if negb (includes "my-bookings" u) then
    bookingsResult <- post (Api.flaresolverrUrl config)
                        (request_get (Api.appointyBookingUrl config) (jar page)) ;;
    if strict_eq (status bookingsResult) "ok" then
      s <- read (solution bookingsResult) "response" ;;
      ret (mkPage (jar page) (response s) (url s))
    else ret page
  else ret page.

(** [scrapeWithFlaresolverr(config)] up to [// Extract appointments from
    HTML]: the value of [html] there. *)
Definition fetchPage (config : Api.Config) : Run (option string) :=
  initial <- post (Api.flaresolverrUrl config)
               (request_get (Api.appointyBookingUrl config) None) ;;
  if negb (strict_eq (status initial) "ok") then
    fail ("FlareSolverr error: " ++ ServerPage.text_of (message initial))
  else
    s <- read (solution initial) "cookies" ;;
    let page := ofSolution s in
    needed <- needsLogin page ;;
    page <- (if (needed : bool) then login config page else ret page) ;;
    page <- navigate config page ;;
    ret (html page).

(** [scrapeWithFlaresolverr(config)]; [extractAppointmentsFromHTML]
    begins with [html.matchAll]. *)
Definition scrapeWithFlaresolverr (config : Api.Config) : Run (list Appointment) :=
  page <- fetchPage config ;;
  h <- read page "matchAll" ;;
  ret (Api.extractAppointmentsFromHTML Date_parse tza h).

End Scrape.

End Flare.

(* ================================================================== *)
(** * Vocabulary of the statements                                     *)
(* ================================================================== *)

Import Http.

(** The test both handlers apply before they serve from the cache. *)
Definition is_hit (refresh : option string) (w : World) : bool :=
  negb (strict_eq refresh "true") && truthy (cachedICS w)
  && (clock w - cacheTime w <? CACHE_TTL).

(** The world after the collaborator was called once. *)
Definition after_fetch (w : World) (elapsed : Z) : World :=
  mkWorld (cachedICS w) (cacheTime w) (clock w + elapsed) (trace w ++ [UpstreamFetch]).

(** The world after a successful regeneration that began at [clock w]. *)
Definition regenerated (w : World) (elapsed : Z) (ics : string) : World :=
  mkWorld (Some ics) (clock w) (clock w + elapsed) (trace w ++ [UpstreamFetch]).

(** The world after the comparator was called on two buffers. *)
Definition compared (w : World) (a b : list Z) : World :=
  mkWorld (cachedICS w) (cacheTime w) (clock w) (trace w ++ [TimingSafeEqual a b]).

(** The same process looked at when its clock reads [t]. *)
Definition at_time (w : World) (t : Z) : World :=
  mkWorld (cachedICS w) (cacheTime w) t (trace w).

(** The serverless handler can reach its collaborator. *)
Definition api_ready (config : Api.Config) : bool :=
  truthy (Api.flaresolverrUrl config) && truthy (Api.appointyEmail config)
  && truthy (Api.appointyPassword config).

Definition hit_response (doc : string) : Response :=
  mkResponse 200 (calendar_headers "HIT") (Send doc).
Definition miss_response (doc : string) : Response :=
  mkResponse 200 (calendar_headers "MISS") (Send doc).
Definition stale_response (doc : string) : Response :=
  mkResponse 200 (calendar_headers "STALE") (Send doc).

(** The two refusals of the serverless handler and the one of the Express
    route. *)
Definition not_configured : Response :=
  mkResponse 500 [] (Json "Not configured. Visit /api/admin").
Definition invalid_token_json : Response := mkResponse 403 [] (Json "Invalid token").
Definition invalid_token_text : Response := mkResponse 403 [] (Send "Invalid token").

(** The response of the failure path: the last document, or an error. *)
Definition api_fallback (w : World) (message : string) : Response :=
  if truthy (cachedICS w) then stale_response (or_default (cachedICS w) "")
  else mkResponse 500 [] (Json message).

Definition server_fallback (w : World) (message : string) : Response :=
  if truthy (cachedICS w) then stale_response (or_default (cachedICS w) "")
  else mkResponse 500 [] (Send ("Error fetching appointments: " ++ message)).

(** The message with which the serverless handler gives up before it
    calls the collaborator. *)
Definition api_unready_message (config : Api.Config) : string :=
  if negb (truthy (Api.flaresolverrUrl config))
  then "FlareSolverr URL not configured. Visit /api/admin"
  else "Appointy credentials not configured".

(** The 12-hour to 24-hour rule, as the specification words it: [h24] is
    the 24-hour form of the hour [h] under the marker [mer]. *)
Definition converts (h : Z) (mer : string) (h24 : Z) : Prop :=
  (toUpperCase mer = "PM" -> h <> 12 -> h24 = h + 12) /\
  (toUpperCase mer = "AM" -> h = 12 -> h24 = 0) /\
  (toUpperCase mer = "PM" -> h = 12 -> h24 = h) /\
  (toUpperCase mer = "AM" -> h <> 12 -> h24 = h).

(** The [trigger] numbers of the reminders of an event, in seconds
    relative to the start of the event as the code writes them: [-60 * 60]
    is commented [1 hour before in seconds], [-24 * 60 * 60] is commented
    [1 day before]. *)
Definition triggers (e : ICal.Event) : list Z := map ICal.trigger (ICal.alarms e).

(** The appointments that [generateCalendar] turns into events. *)
Definition has_start (apt : Appointment) : bool :=
  match start apt with Some _ => true | None => false end.

(** The dates that [toISOString] prints with a four digit year: those
    whose UTC year lies in 0..9999. *)
Definition four_digit_year (t : Z) : Prop :=
  let '(y, _, _) := civil_from_days (Day t) in 0 <= y <= 9999.

Definition plain (x : option Z) : Prop :=
  match x with
  | Some t => four_digit_year t
  | None => True
  end.

(** The content of an appointment that the specification keys
    identifiers on. *)
Definition triple (apt : Appointment) : string * option Z * option Z :=
  (title apt, start apt, end_ apt).

Fixpoint last_char (s : string) (dflt : ascii) : ascii :=
  match s with
  | EmptyString => dflt
  | String c EmptyString => c
  | String _ s' => last_char s' dflt
  end.

(** MD5 words, and the four-word state in which MD5 ends on a text; the
    state read as one number below 2^128. *)
Definition word_ok (x : Z) : Prop := 0 <= x < 2 ^ 32.

Definition state_ok (st : MD5.state) : Prop :=
  let '(A, B, C, D) := st in word_ok A /\ word_ok B /\ word_ok C /\ word_ok D.

Definition md5_state (s : string) : MD5.state :=
  let bs := MD5.padded (Buffer_from s) in MD5.blocks (List.length bs) bs MD5.init.

Definition state_number (st : MD5.state) : Z :=
  let '(A, B, C, D) := st in A + 2 ^ 32 * (B + 2 ^ 32 * (C + 2 ^ 32 * D)).

(** The titles a, aa, aaa, ... and the one-hour session of 15 January
    2026, 16:00 UTC, under each of them. *)
Fixpoint letters (n : nat) : string :=
  match n with
  | O => ""
  | S n' => String "a" (letters n')
  end.

Definition session (n : nat) : Appointment :=
  mkAppointment (letters n) (Some 1768492800000) (Some 1768496400000) None None None.

(** ** Sample inputs, for the instances that accompany the theorems *)

(** An engine whose [Date] constructor accepts no text beyond the ISO
    format that the language specification requires. *)
Definition iso_only_parse : string -> option Z := fun _ => None.

(** A stand-in for [calendar.toString()]: the envelope and the UID lines. *)
Definition sample_toString (c : ICal.Calendar) : string :=
  "BEGIN:VCALENDAR;"
  ++ concat ";" (map (fun e => "UID:" ++ ICal.uid e) (ICal.events c))
  ++ ";END:VCALENDAR".

Definition sample_config : Api.Config :=
  Api.mkConfig (Some "me@example.com") (Some "hunter2") None
               (Some "http://flaresolverr:8191") (Some "abcd") None.

Definition sample_server_config : Server.Config :=
  Server.mkConfig (Some "abcd") None.

Definition sample_html : string :=
  "<article>1/5/26 at 9:30am</article>".

Definition sample_raws : list Server.RawAppointment :=
  [ Server.mkRaw (Some "Mathnasium Session") (Some "Jan") "08" "2026" "4" "00" (Some "pm") ].

(** The environment-backed configuration of a deployment whose
    [FLARESOLVERR_URL] is not set. *)
Definition unready_config : Api.Config :=
  Api.mkConfig (Some "me@example.com") (Some "hunter2") None None (Some "abcd") None.

(** A page whose only bookings are list items: one shows a date and no
    time, the other a date and two times. *)
Definition list_page : Scraper.Document :=
  fun selector =>
    if (selector =? "li, div" ++ attr_contains "class" "list-item")%string
    then [ Scraper.mkElement "Booked 1/5/2026" None;
           Scraper.mkElement "2/3/26 4:00 pm 5:00 pm" None ]
    else [].

(** A process that has not generated a document yet, at 12:00:00 UTC on
    5 January 2026. *)
Definition fresh_world : World := mkWorld None 0 1767614400000 [].

(** A process that generated [doc] at 12:00:00 and is asked again
    [age] milliseconds later. *)
Definition cached_world (doc : string) (age : Z) : World :=
  mkWorld (Some doc) 1767614400000 (1767614400000 + age) [].

(** Runs the serving part of a handler down to its monadic primitives. *)
Ltac unfold_serve :=
  unfold Api.serve, Server.serve, Api.scrapeWithFlaresolverr, Server.scrapeAppointments,
    Api.generateICS, try_catch, bind, ret, throw, Date_now, get_cachedICS, get_cacheTime,
    set_cachedICS, set_cacheTime, call_upstream; simpl.

(** ** What a pattern matches *)

(** [Matches r s c c'] : the pattern [r] matches exactly the text [s]
    and takes the captures [c] to [c']. *)
Inductive Matches : regex -> string -> captures -> captures -> Prop :=
| M_Eps c : Matches Eps "" c c
| M_Chr p a c : p a = true -> Matches (Chr p) (String a "") c c
| M_Seq r1 r2 s1 s2 c c1 c2 :
    Matches r1 s1 c c1 -> Matches r2 s2 c1 c2 -> Matches (Seq r1 r2) (s1 ++ s2) c c2
| M_AltL r1 r2 s c c' : Matches r1 s c c' -> Matches (Alt r1 r2) s c c'
| M_AltR r1 r2 s c c' : Matches r2 s c c' -> Matches (Alt r1 r2) s c c'
| M_Grp n r s c c' : Matches r s c c' -> Matches (Grp n r) s c ((n, s) :: c')
| M_RepStop g lo hi r c :
    lo = O \/ hi_zero hi = true -> Matches (Rep g lo hi r) "" c c
| M_RepMore g lo hi r s1 s2 c c1 c2 :
    hi_zero hi = false ->
    Matches r s1 c c1 ->
    Matches (Rep g (Nat.pred lo) (option_map Nat.pred hi) r) s2 c1 c2 ->
    Matches (Rep g lo hi r) (s1 ++ s2) c c2.

(** The matcher is sound for [r] under every continuation. *)
Definition sound (r : regex) : Prop :=
  forall x c k res,
    match_re r x c k = Some res ->
    exists s y c', x = s ++ y /\ Matches r s c c' /\ k y c' = Some res.

(** [m] is a match of [r] in [s]: it lies at [index m], ends at
    [lastIndex m], and its text and captures are matched by [r]. *)
Definition found (r : regex) (s : string) (m : MatchResult) : Prop :=
  exists pre rest,
    s = pre ++ matched m ++ rest /\ index m = length pre /\
    lastIndex m = (index m + length (matched m))%nat /\
    Matches r (matched m) [] (groups m).

Fixpoint all_chars (p : ascii -> bool) (s : string) : bool :=
  match s with
  | EmptyString => true
  | String a s' => p a && all_chars p s'
  end.

(** A text of [lo] to [hi] decimal digits. *)
Definition digits (lo hi : nat) (s : string) : Prop :=
  all_chars is_digit s = true /\ (lo <= length s <= hi)%nat.

(** Patterns without a capture group. *)
Fixpoint capture_free (r : regex) : bool :=
  match r with
  | Eps | Chr _ => true
  | Seq r1 r2 | Alt r1 r2 => capture_free r1 && capture_free r2
  | Rep _ _ _ r1 => capture_free r1
  | Grp _ _ => false
  end.

(** A quantifier whose bounds are in order. *)
Definition bounds_ok (lo : nat) (hi : option nat) : Prop :=
  forall h, hi = Some h -> (lo <= h)%nat.

(** [parseInt s] is a number from [lo] to [hi]. *)
Definition reads (s : string) (lo hi : Z) : Prop :=
  exists v, parseInt s = Some v /\ lo <= v <= hi.

(** An entry whose fields have the shape that the patterns of
    src/server.js capture. *)
Definition entry_ok (raw : Server.RawAppointment) : Prop :=
  Server.raw_title raw = Some "Mathnasium Session" /\
  (exists mo, Server.month raw = Some mo /\ length mo = 3%nat) /\
  reads (Server.day raw) 0 99 /\ reads (Server.year raw) 0 9999 /\
  reads (Server.hour raw) 0 99 /\ reads (Server.minute raw) 0 99 /\
  (exists mer, Server.ampm raw = Some mer /\
               (toLowerCase mer = "am" \/ toLowerCase mer = "pm")).

(** The month of the entry is one of the twelve keys of [monthMap]. *)
Definition known_month (raw : Server.RawAppointment) : bool :=
  match Server.month raw with
  | Some mo => Scraper.is_some (Server.lookup (toLowerCase mo) Server.monthMap)
  | None => false
  end.

(** The event that the Express server makes of a session that starts
    at [s]. *)
Definition express_event (s : Z) : ICal.Event :=
  ICal.createAlarm
    (ICal.mkEvent (Server.event_uid s (s + 60 * 60 * 1000)) s (s + 60 * 60 * 1000)
                  "Mathnasium Session" None "Mathnasium of Portland" [])
    (ICal.mkAlarm "display" (- 60 * 60) None).

(** ** Vocabulary of the scroll loop *)

(** The number of dates counted after [i] rounds; none before the
    first. *)
Definition seen (page : nat -> string) (i : nat) : nat :=
  match i with
  | O => O
  | S j => ServerPage.countDates (page j)
  end.

(** The state of the loop after [n] rounds. *)
Fixpoint rounds (page : nat -> string) (n : nat) : ServerPage.Scroll :=
  match n with
  | O => ServerPage.mkScroll 0 0 0
  | S m => ServerPage.scrollOnce (page m) (rounds page m)
  end.

(** Each of the [k] rounds before round [m] left the count as it
    was. *)
Definition unchanged (page : nat -> string) (k m : nat) : Prop :=
  (k <= m)%nat /\ forall j, (j < k)%nat -> seen page (m - j) = seen page (m - S j).

(** ** Patterns on which the matcher is complete *)

(** [r] can match the empty text. *)
Fixpoint nullable (r : regex) : bool :=
  match r with
  | Eps => true
  | Chr _ => false
  | Seq r1 r2 => nullable r1 && nullable r2
  | Alt r1 r2 => nullable r1 || nullable r2
  | Rep _ lo hi r1 => Nat.eqb lo 0 || hi_zero hi || nullable r1
  | Grp _ r1 => nullable r1
  end.

(** No quantifier of [r] is applied to a pattern that can match the
    empty text: every pattern of the program is of this kind. *)
Fixpoint productive (r : regex) : bool :=
  match r with
  | Eps | Chr _ => true
  | Seq r1 r2 | Alt r1 r2 => productive r1 && productive r2
  | Rep _ _ _ r1 => negb (nullable r1) && productive r1
  | Grp _ r1 => productive r1
  end.

(** The matcher is complete for [r]: when [r] matches a prefix of the
    text and the continuation accepts what follows, the matcher finds a
    match (this one or one it tries before). *)
Definition complete (r : regex) : Prop :=
  forall s c c1, Matches r s c c1 ->
  forall y (k : cont), k y c1 <> None -> match_re r (s ++ y) c k <> None.

(** [r] without its capture groups. *)
Fixpoint strip (r : regex) : regex :=
  match r with
  | Eps => Eps
  | Chr p => Chr p
  | Seq r1 r2 => Seq (strip r1) (strip r2)
  | Alt r1 r2 => Alt (strip r1) (strip r2)
  | Rep g lo hi r1 => Rep g lo hi (strip r1)
  | Grp _ r1 => strip r1
  end.

(** A clock reading as every time pattern of src/scraper.js sees it:
    [\d{1,2}:\d{2}\s*(AM|PM)?], whatever the groups. *)
Definition clock_reading (t : string) : Prop :=
  exists c c', Matches (strip Scraper.clockRe) t c c'.

Definition clock_or_absent (x : option string) : Prop :=
  match x with
  | Some t => clock_reading t
  | None => True
  end.

(** An appointment has both its start and its end, or neither. *)
Definition paired (apt : Appointment) : Prop :=
  (start apt = None /\ end_ apt = None) \/
  (exists s e, start apt = Some s /\ end_ apt = Some e).

(** ** Vocabulary of the admin panels *)

(** A text that survives the trip through a cookie header: not empty,
    without white space, [;] or [=].  The hexadecimal tokens of
    [crypto.randomBytes(n).toString('hex')] are of this kind. *)
Definition cookie_char (a : ascii) : bool :=
  negb (is_space a) && negb (Ascii.eqb a ";") && negb (Ascii.eqb a "=").

Definition cookie_safe (t : string) : Prop :=
  t <> "" /\ all_chars cookie_char t = true.

(** The session [token] was opened at [t0] and is not older than a day
    at [now]. *)
Definition live (sessions : Web.Dict Z) (token : string) (now : Z) : Prop :=
  exists t0, Web.get token sessions = Some t0 /\ t0 <> 0 /\ now - t0 <= 86400000.

(** [handler] of api/calendar.js from its first line: the
    configuration is read, then the request is served. *)
Definition api_feed (Date_parse : string -> option Z) (tza : Z)
    (ical_toString : ICal.Calendar -> string)
    (env : ApiAdmin.Env) (redis : ApiAdmin.Redis) (st : ApiAdmin.State)
    (req : Api.Request) (upstream : Http.Upstream string) : Http.M Http.Response :=
  match ApiAdmin.feedConfig env redis st with
  | Throw message => Http.throw message
  | Ok config => Api.handler Date_parse tza ical_toString config req upstream
  end.

(** ** Vocabulary of a run of feed requests *)

(** A feed request as the process meets it: it arrives [wait]
    milliseconds after the previous one was answered, and finds the
    page-fetching collaborator behaving as [upstream] says. *)
Record Arrival (Req Page : Type) : Type := mkArrival {
  wait : Z;
  request : Req;
  upstream : Http.Upstream Page
}.
Arguments mkArrival {Req Page} wait request upstream.
Arguments wait {Req Page} a.
Arguments request {Req Page} a.
Arguments upstream {Req Page} a.

(** The answers of one process to a sequence of requests. *)
Fixpoint run {Req Page : Type}
    (handle : Req -> Http.Upstream Page -> Http.M Http.Response)
    (arrivals : list (Arrival Req Page)) (w : Http.World)
    : list (Result Http.Response) * Http.World :=
  match arrivals with
  | [] => ([], w)
  | a :: rest =>
      let '(r, w1) := handle (request a) (upstream a) (at_time w (Http.clock w + wait a)) in
      let '(rs, w2) := run handle rest w1 in
      (r :: rs, w2)
  end.

(** An answer that carries a calendar document: status 200 and a
    text that is not empty. *)
Definition serves_calendar (r : Result Http.Response) : Prop :=
  exists xcache doc,
    r = Ok (Http.mkResponse 200 (Http.calendar_headers xcache) (Http.Send doc)) /\
    doc <> "".

(** The refusal of a request whose token is not the configured one. *)
Definition refuses (r : Result Http.Response) : Prop :=
  exists b, r = Ok (Http.mkResponse 403 [] b).

(** The calendar object without events that [generateICS] of
    api/calendar.js starts from. *)
Definition api_empty_calendar (calendarName : option string) : ICal.Calendar :=
  ICal.mkCalendar calendarName "America/New_York"
    (Some ("appointy-sync", "calendar", "EN")) (60 * 60) [].

(** ** Sample inputs of the admin panels *)

(** 12:00:00 UTC on 5 January 2026, and one hour later. *)
Definition noon : Z := 1767614400000.
Definition one_o_clock : Z := 1767618000000.

Definition sample_entropy : ServerAdmin.Entropy :=
  ServerAdmin.mkEntropy "5f2a9c" "c0ffee42".

Definition sample_stored : ServerAdmin.Stored :=
  ServerAdmin.mkStored (Some "opensesame") (Some "me@example.com") (Some "hunter2")
                       None (Some "abcd") None.

Definition express_form (action : string) (password : option string) : ServerAdmin.Form :=
  ServerAdmin.mkForm (Some action) password None None None None None None.

Definition express_request (cookie : option string) (form : ServerAdmin.Form)
    : ServerAdmin.Request :=
  ServerAdmin.mkRequest cookie (Some "localhost:3000") None form.

(** A deployment with an admin password and Redis, and whose
    environment also names a calendar token. *)
Definition sample_env : ApiAdmin.Env :=
  ApiAdmin.mkEnv (Some "opensesame") (Some "https://redis.example") (Some "redis-token")
                 None None None None (Some "from-env") None.

Definition api_form (action : string) (password : option string) : ApiAdmin.Form :=
  ApiAdmin.mkForm (Some action) password (Some "me@example.com") (Some "hunter2") None
                  (Some " http://flaresolverr:8191 ") (Some "  ") None.

Definition api_request (method : string) (cookie : option string)
    (form : option ApiAdmin.Form) : ApiAdmin.Request :=
  ApiAdmin.mkRequest method cookie (Some "feed.example") None None form.

(** A stand-in for [JSON.parse] that knows two texts, and a FlareSolverr
    service that answers every test request. *)
Definition sample_JSON_parse (text : string) : Result Api.Config :=
  if (text =? "A")%string then
    Ok (Api.mkConfig (Some "me@example.com") (Some "hunter2") None
                     (Some "http://flaresolverr:8191") (Some "abcd") None)
  else if (text =? "B")%string then
    Ok (Api.mkConfig (Some "you@example.org") (Some "correct horse") None
                     (Some "http://10.0.0.7:8191") (Some "wxyz") None)
  else Throw "Unexpected token".

Definition sample_probe (url : string) : Result (option string) := Ok (Some "ok").

(** ** Vocabulary of the requests to FlareSolverr *)

(** An answer with a solution that holds the text of a page and its
    address, which is a URL. *)
Definition solved (URL_origin : string -> Result string) (a : Flare.Answer) : Prop :=
  exists s page u o,
    Flare.solution a = Some s /\ Flare.response s = Some page /\
    Flare.url s = Some u /\ URL_origin u = Ok o.

(** FlareSolverr keeps its side: every call is answered, and an answer
    with the status [ok] is solved. *)
Definition flare_answers (fetch : nat -> Flare.Call -> Result Flare.Answer)
    (URL_origin : string -> Result string) : Prop :=
  forall n call, exists a,
    fetch n call = Ok a /\ (Flare.status a = Some "ok" -> solved URL_origin a).

(** The call number [n] of [calls] was answered by [a]. *)
Definition answered (fetch : nat -> Flare.Call -> Result Flare.Answer)
    (calls : list Flare.Call) (n : nat) (a : Flare.Answer) : Prop :=
  exists call, nth_error calls n = Some call /\ fetch n call = Ok a.

(** [page] is the page of the last of [calls] that was answered with the
    status [ok]. *)
Definition last_page (fetch : nat -> Flare.Call -> Result Flare.Answer)
    (calls : list Flare.Call) (page : string) : Prop :=
  exists n a s,
    answered fetch calls n a /\ Flare.status a = Some "ok" /\
    Flare.solution a = Some s /\ Flare.response s = Some page /\
    forall m b, (n < m)%nat -> answered fetch calls m b -> Flare.status b <> Some "ok".

(** The request that opens a scrape. *)
Definition first_call (config : Api.Config) : Flare.Call :=
  Flare.mkCall (ServerPage.text_of (Api.flaresolverrUrl config) ++ "/v1")
    (Flare.request_get (Api.appointyBookingUrl config) None).

(** The collaborator of the serverless handler, when it is the
    conversation with FlareSolverr: the page it hands to the extractor. *)
Definition flare_upstream (fetch : nat -> Flare.Call -> Result Flare.Answer)
    (URL_origin : string -> Result string) (config : Api.Config) (elapsed : Z)
    : Http.Upstream string :=
  Http.mkUpstream elapsed
    match fst (Flare.fetchPage fetch URL_origin config []) with
    | Ok (Some page) => Ok page
    | Ok None => Throw (Flare.cannot_read "matchAll")
    | Throw message => Throw message
    end.

(** The state between two steps of a scrape: the page in hand is the
    last one that was accepted, and its address is a URL. *)
Definition in_hand (fetch : nat -> Flare.Call -> Result Flare.Answer)
    (URL_origin : string -> Result string)
    (calls : list Flare.Call) (page : Flare.Page) : Prop :=
  exists h u o,
    Flare.html page = Some h /\ Flare.currentUrl page = Some u /\
    URL_origin u = Ok o /\ last_page fetch calls h.

(** At most one login: a post of the credentials and of the hidden
    fields of the page. *)
Definition one_login (config : Api.Config) (posts : list Flare.Call) : Prop :=
  posts = [] \/
  exists target hiddenFields jar,
    posts = [Flare.mkCall (ServerPage.text_of (Api.flaresolverrUrl config) ++ "/v1")
               (Flare.request_post target (Flare.loginData config hiddenFields) jar)].

(** At most one navigation: a request for the bookings page. *)
Definition one_navigation (config : Api.Config) (gets : list Flare.Call) : Prop :=
  gets = [] \/
  exists jar,
    gets = [Flare.mkCall (ServerPage.text_of (Api.flaresolverrUrl config) ++ "/v1")
              (Flare.request_get (Api.appointyBookingUrl config) jar)].

(** The calls of a scrape: the first request, then at most one login,
    then at most one navigation. *)
Definition conversation (config : Api.Config) (calls : list Flare.Call) : Prop :=
  exists posts gets,
    calls = (first_call config :: posts ++ gets)%list /\
    one_login config posts /\ one_navigation config gets.

(** ** A FlareSolverr that gets the login page and nothing more *)

Definition flare_config : Api.Config :=
  Api.mkConfig (Some "me@example.com") (Some "hunter2")
               (Some "https://booking.example/my-bookings")
               (Some "http://flaresolverr:8191") (Some "abcd") None.

Definition login_html : string :=
  "<html><form method='post' action='/account/login'>"
  ++ "<input type='hidden' name='csrf' value='t0k'>"
  ++ "<input type='password' name='password'></form></html>".

(** The first call is answered with the login page; every later call is
    refused. *)
Definition stuck_fetch (n : nat) (call : Flare.Call) : Result Flare.Answer :=
  match n with
  | O => Ok (Flare.mkAnswer (Some "ok") None
               (Some (Flare.mkSolution (Some "[]") (Some login_html)
                        (Some "https://booking.example/account/login"))))
  | S _ => Ok (Flare.mkAnswer (Some "error") (Some "Error: Timeout after 60.0 sec.") None)
  end.

Definition sample_origin (u : string) : Result string := Ok "https://booking.example".


(** ** Tactics that read a match back

    [unseq_by seq_inv H] splits the match [H] of a sequence into the
    matches of its parts, with the inversion lemma [seq_inv] of [Seq].
    [leaves_by grp_inv times_inv mer_inv free_inv] then reads every part:
    a group of digits or word characters with [grp_inv] and [times_inv],
    the meridiem group with [mer_inv], a part without groups with
    [free_inv]. *)
Ltac unseq_by seq_inv H :=
  lazymatch type of H with
  | Matches (Seq _ _) _ _ _ =>
      let s1 := fresh "s" in
      let s2 := fresh "s" in
      let c1 := fresh "c" in
      let E := fresh "E" in
      let H1 := fresh "H" in
      let H2 := fresh "H" in
      apply seq_inv in H as (s1 & s2 & c1 & E & H1 & H2);
      unseq_by seq_inv H2
  | _ => idtac
  end.

Ltac leaf_by grp_inv times_inv mer_inv free_inv H :=
  lazymatch type of H with
  | Matches (Grp _ (alt _)) _ _ _ =>
      let c1 := fresh "c" in
      let E := fresh "E" in
      let Hm := fresh "Hmer" in
      apply grp_inv in H as (c1 & E & H);
      apply mer_inv in H as (-> & Hm)
  | Matches (Grp _ _) _ _ _ =>
      let c1 := fresh "c" in
      let E := fresh "E" in
      let Ha := fresh "Hall" in
      let Hl := fresh "Hlen" in
      apply grp_inv in H as (c1 & E & H);
      apply times_inv in H as (-> & Ha & Hl); [|lia]
  | Matches _ _ _ _ =>
      apply free_inv in H; [|reflexivity]
  end.

Ltac leaves_by grp_inv times_inv mer_inv free_inv :=
  repeat match goal with
         | H : Matches _ _ _ _ |- _ => leaf_by grp_inv times_inv mer_inv free_inv H
         end.

(* ================================================================== *)
(** * Properties                                                       *)
(* ================================================================== *)

(** ** Strings and buffers *)

Lemma eqb_empty_false (s : string) : s <> "" -> (s =? "")%string = false.
Proof. intro H. apply String.eqb_neq. exact H. Qed.

Lemma truthy_Some (s : string) : s <> "" -> truthy (Some s) = true.
Proof. intro H. unfold truthy. now rewrite eqb_empty_false. Qed.

Lemma truthy_inv (x : option string) :
  truthy x = true -> exists s, x = Some s /\ s <> "".
Proof.
  destruct x as [s|]; simpl; [|discriminate].
  intro H. exists s. split; [reflexivity|].
  intro E. subst s. discriminate.
Qed.

Lemma or_default_Some (s dflt : string) : s <> "" -> or_default (Some s) dflt = s.
Proof. intro H. unfold or_default. now rewrite eqb_empty_false. Qed.

Lemma or_default_token (x : option string) (s : string) :
  s <> "" -> (or_default x "" = s <-> x = Some s).
Proof.
  intro Hs. destruct x as [t|]; simpl.
  - destruct (String.eqb_spec t "") as [->|Ht].
    + split; intro E; [congruence|]. injection E as E. congruence.
    + split; intro E; [now subst|]. now injection E.
  - split; intro E; [congruence|discriminate].
Qed.

Lemma Buffer_from_length (s : string) : List.length (Buffer_from s) = length s.
Proof. induction s as [|a s IH]; simpl; [reflexivity|now rewrite IH]. Qed.

Lemma code_inj (a b : ascii) : code a = code b -> a = b.
Proof.
  unfold code. intro H. apply N2Z.inj in H.
  rewrite <- (ascii_N_embedding a), <- (ascii_N_embedding b). now rewrite H.
Qed.

Lemma Buffer_from_inj (s t : string) : Buffer_from s = Buffer_from t -> s = t.
Proof.
  revert t. induction s as [|a s IH]; intros [|b t] H; simpl in H;
    try discriminate; [reflexivity|].
  injection H as Hc Hr. f_equal; [now apply code_inj|now apply IH].
Qed.

(** The accumulated comparison is exact: on buffers of one length it
    answers [true] exactly for equal contents. *)
Lemma xor_fold_zero (a b : list Z) (acc : Z) :
  List.length a = List.length b ->
  (xor_fold a b acc = 0 <-> acc = 0 /\ a = b).
Proof.
  revert b acc. induction a as [|x a IH]; intros [|y b] acc Hlen; simpl in *;
    try discriminate.
  - tauto.
  - injection Hlen as Hlen. rewrite (IH b _ Hlen), Z.lor_eq_0_iff.
    split.
    + intros [[Hacc Hx] Hab]. apply Z.lxor_eq in Hx. subst. tauto.
    + intros [Hacc Hab]. injection Hab as -> ->. rewrite Z.lxor_nilpotent. tauto.
Qed.

Lemma ct_equal_spec (a b : list Z) :
  List.length a = List.length b -> (ct_equal a b = true <-> a = b).
Proof.
  intro Hlen. unfold ct_equal. rewrite Z.eqb_eq, (xor_fold_zero a b 0 Hlen). tauto.
Qed.

Lemma ct_equal_strings (s t : string) :
  length s = length t ->
  ct_equal (Buffer_from s) (Buffer_from t) = (s =? t)%string.
Proof.
  intro Hlen.
  assert (Hl : List.length (Buffer_from s) = List.length (Buffer_from t))
    by now rewrite !Buffer_from_length.
  pose proof (ct_equal_spec _ _ Hl) as Hspec.
  destruct (String.eqb_spec s t) as [->|Hne].
  - now apply Hspec.
  - destruct (ct_equal (Buffer_from s) (Buffer_from t)); [|reflexivity].
    exfalso. apply Hne, Buffer_from_inj, Hspec. reflexivity.
Qed.

(** ** Traces *)

Lemma fetches_app (t u : list Event) :
  fetches (t ++ u)%list = (fetches t + fetches u)%nat.
Proof.
  induction t as [|e t IH]; simpl; [reflexivity|].
  destruct e; simpl; now rewrite IH.
Qed.

Lemma comparisons_app (t u : list Event) :
  comparisons (t ++ u)%list = (comparisons t ++ comparisons u)%list.
Proof.
  induction t as [|e t IH]; simpl; [reflexivity|].
  destruct e; simpl; now rewrite IH.
Qed.

Lemma world_eta (w : World) :
  mkWorld (cachedICS w) (cacheTime w) (clock w) (trace w) = w.
Proof. now destruct w. Qed.

(** ** Extraction from HTML yields complete appointments *)

Section ApiExtraction.

Variable Date_parse : string -> option Z.
Variable tza : Z.

Lemma in_option_list {A : Type} (x : option A) (a : A) :
  In a (Api.option_list x) -> x = Some a.
Proof. destruct x; simpl; [intros [H|[]]; now subst|intros []]. Qed.

(** Every appointment in the output was built by [parseAppointment]
    from a date text and a time match. *)
Lemma api_scanCard_built (card : MatchResult) (a : Appointment) :
  In a (Api.scanCard Date_parse tza card) ->
  exists dateStr tm text, Api.parseAppointment Date_parse tza dateStr tm text = Some a.
Proof.
  unfold Api.scanCard.
  destruct (Api.findDate _ _) as [ds|]; [|intros []].
  destruct (exec_at _ _ _) as [tm|]; [|intros []].
  destruct (truthy (Some ds)); [|intros []].
  intro H. apply in_option_list in H. eauto.
Qed.

Lemma api_scanCards_built (patterns : list regex) (html : string) (a : Appointment) :
  In a (Api.scanCards Date_parse tza patterns html) ->
  exists dateStr tm text, Api.parseAppointment Date_parse tza dateStr tm text = Some a.
Proof.
  induction patterns as [|p ps IH]; simpl; [intros []|].
  destruct (flat_map _ _) eqn:E; [exact IH|].
  rewrite <- E. intro H. apply in_flat_map in H as (card & _ & H).
  now apply api_scanCard_built in H.
Qed.

Lemma api_scanDocument_built (html : string) (a : Appointment) :
  In a (Api.scanDocument Date_parse tza html) ->
  exists dateStr tm text, Api.parseAppointment Date_parse tza dateStr tm text = Some a.
Proof.
  unfold Api.scanDocument. intro H.
  apply in_flat_map in H as (dp & _ & H).
  apply in_flat_map in H as (dm & _ & H).
  unfold Api.scanNear in H.
  destruct (exec_at _ _ _) as [tm|]; [|destruct H].
  apply in_option_list in H. eauto.
Qed.

Lemma api_extract_built (html : string) (a : Appointment) :
  In a (Api.extractAppointmentsFromHTML Date_parse tza html) ->
  exists dateStr tm text, Api.parseAppointment Date_parse tza dateStr tm text = Some a.
Proof.
  unfold Api.extractAppointmentsFromHTML.
  destruct (Api.scanCards _ _ _ _) eqn:E.
  - apply api_scanDocument_built.
  - rewrite <- E. apply api_scanCards_built.
Qed.

(** What [parseAppointment] returns, when it returns an appointment. *)
Lemma api_parseAppointment_inv (dateStr : string) (tm : MatchResult)
    (text : string) (a : Appointment) :
  Api.parseAppointment Date_parse tza dateStr tm text = Some a ->
  exists date s e,
    Api.resolveDate Date_parse tza dateStr = Some date /\
    Api.clockOn tza date tm 1 2 3 = Some s /\
    (if truthy (group 4 tm) then Api.clockOn tza date tm 4 5 6
     else Some (s + 60 * 60 * 1000)) = Some e /\
    a = mkAppointment (Api.inferTitle text) (Some s) (Some e) None None None.
Proof.
  unfold Api.parseAppointment.
  destruct (Api.resolveDate _ _ _) as [date|] eqn:Ed; [|discriminate].
  destruct (Api.clockOn tza date tm 1 2 3) as [s|] eqn:Es; [|discriminate].
  destruct (if truthy (group 4 tm) then _ else _) as [e|] eqn:Ee; [|discriminate].
  intro H. injection H as <-. exists date, s, e. auto.
Qed.

Lemma api_extract_complete (html : string) (a : Appointment) :
  In a (Api.extractAppointmentsFromHTML Date_parse tza html) ->
  exists s e, start a = Some s /\ end_ a = Some e.
Proof.
  intro H. apply api_extract_built in H as (ds & tm & text & H).
  apply api_parseAppointment_inv in H as (date & s & e & _ & _ & _ & ->).
  now exists s, e.
Qed.

(** So [generateICS] never throws on extracted appointments. *)
Lemma api_addEvents_ok (appointments : list Appointment) :
  (forall a, In a appointments -> exists s e, start a = Some s /\ end_ a = Some e) ->
  forall calendar, exists calendar', Api.addEvents calendar appointments = Ok calendar'.
Proof.
  induction appointments as [|a l IH]; intros H calendar; simpl.
  - now exists calendar.
  - destruct (H a (or_introl eq_refl)) as (s & e & Hs & He).
    unfold Api.addEvent. rewrite Hs, He.
    apply IH. intros b Hb. apply H. now right.
Qed.

Lemma api_buildCalendar_ok (html : string) (calendarName : option string) :
  exists calendar,
    Api.buildCalendar (Api.extractAppointmentsFromHTML Date_parse tza html) calendarName
    = Ok calendar.
Proof. apply api_addEvents_ok. intros a. apply api_extract_complete. Qed.

End ApiExtraction.

(** ** The four ways a request is served *)

Section Serving.

Variable Date_parse : string -> option Z.
Variable tza : Z.
Variable ical_toString : ICal.Calendar -> string.

Lemma api_serve_hit config req up w :
  is_hit (Api.refresh req) w = true ->
  Api.serve Date_parse tza ical_toString config req up w
  = (Ok (hit_response (or_default (cachedICS w) "")), w).
Proof. unfold is_hit. intro H. unfold_serve. now rewrite H. Qed.

Lemma api_serve_regenerates config req up w html :
  is_hit (Api.refresh req) w = false ->
  api_ready config = true ->
  outcome up = Ok html ->
  exists calendar,
    Api.buildCalendar (Api.extractAppointmentsFromHTML Date_parse tza html)
      (Api.calendarName config) = Ok calendar /\
    Api.serve Date_parse tza ical_toString config req up w
    = (Ok (miss_response (ical_toString calendar)),
       regenerated w (elapsed up) (ical_toString calendar)).
Proof.
  unfold is_hit, api_ready. intros Hhit Hready Hup.
  destruct (api_buildCalendar_ok Date_parse tza html (Api.calendarName config))
    as [calendar Hc].
  exists calendar. split; [exact Hc|].
  apply andb_prop in Hready as [Hready Hp]. apply andb_prop in Hready as [Hf He].
  unfold_serve. rewrite Hhit, Hf, He, Hp, Hup. simpl. now rewrite Hc.
Qed.

Lemma api_serve_fetch_fails config req up w message :
  is_hit (Api.refresh req) w = false ->
  api_ready config = true ->
  outcome up = Throw message ->
  Api.serve Date_parse tza ical_toString config req up w
  = (Ok (api_fallback w message), after_fetch w (elapsed up)).
Proof.
  unfold is_hit, api_ready, api_fallback. intros Hhit Hready Hup.
  apply andb_prop in Hready as [Hready Hp]. apply andb_prop in Hready as [Hf He].
  unfold_serve. rewrite Hhit, Hf, He, Hp, Hup. simpl.
  now destruct (truthy (cachedICS w)).
Qed.

Lemma api_serve_unready config req up w :
  is_hit (Api.refresh req) w = false ->
  api_ready config = false ->
  Api.serve Date_parse tza ical_toString config req up w
  = (Ok (api_fallback w (api_unready_message config)), w).
Proof.
  unfold is_hit, api_ready, api_fallback, api_unready_message. intros Hhit Hready.
  unfold_serve. rewrite Hhit.
  destruct (truthy (Api.flaresolverrUrl config)); simpl.
  - simpl in Hready. rewrite andb_false_iff in Hready.
    assert (E : negb (truthy (Api.appointyEmail config))
                || negb (truthy (Api.appointyPassword config)) = true).
    { destruct Hready as [-> | ->]; simpl; [reflexivity|apply orb_true_r]. }
    rewrite E. simpl. now destruct (truthy (cachedICS w)).
  - now destruct (truthy (cachedICS w)).
Qed.

Lemma server_serve_hit config req up w :
  is_hit (Server.refresh req) w = true ->
  Server.serve tza ical_toString config req up w
  = (Ok (hit_response (or_default (cachedICS w) "")), w).
Proof. unfold is_hit. intro H. unfold_serve. now rewrite H. Qed.

Lemma server_serve_regenerates config req up w raws :
  is_hit (Server.refresh req) w = false ->
  outcome up = Ok raws ->
  Server.serve tza ical_toString config req up w
  = (Ok (miss_response
           (or_default
              (Some (Server.generateICS tza ical_toString raws (Server.calendarName config)))
              "")),
     regenerated w (elapsed up)
       (Server.generateICS tza ical_toString raws (Server.calendarName config))).
Proof.
  unfold is_hit. intros Hhit Hup. unfold_serve. now rewrite Hhit, Hup.
Qed.

Lemma server_serve_fetch_fails config req up w message :
  is_hit (Server.refresh req) w = false ->
  outcome up = Throw message ->
  Server.serve tza ical_toString config req up w
  = (Ok (server_fallback w message), after_fetch w (elapsed up)).
Proof.
  unfold is_hit, server_fallback. intros Hhit Hup. unfold_serve.
  rewrite Hhit, Hup. simpl. now destruct (truthy (cachedICS w)).
Qed.

(** The serving part always answers, never with status 403, and never
    calls the comparator. *)
Lemma api_serve_total config req up w :
  exists r w',
    Api.serve Date_parse tza ical_toString config req up w = (Ok r, w') /\
    status r <> 403 /\ comparisons (trace w') = comparisons (trace w).
Proof.
  destruct (is_hit (Api.refresh req) w) eqn:Hhit.
  - rewrite (api_serve_hit _ _ _ _ Hhit). eexists _, _. split; [reflexivity|].
    split; [discriminate|reflexivity].
  - destruct (api_ready config) eqn:Hready.
    + destruct (outcome up) as [html|message] eqn:Hup.
      * destruct (api_serve_regenerates _ req _ w _ Hhit Hready Hup) as (c & _ & ->).
        eexists _, _. split; [reflexivity|]. split; [discriminate|].
        simpl. rewrite comparisons_app. simpl. apply app_nil_r.
      * rewrite (api_serve_fetch_fails _ _ _ _ _ Hhit Hready Hup).
        eexists _, _. split; [reflexivity|]. split.
        -- unfold api_fallback. destruct (truthy _); discriminate.
        -- simpl. rewrite comparisons_app. simpl. apply app_nil_r.
    + rewrite (api_serve_unready _ _ _ _ Hhit Hready).
      eexists _, _. split; [reflexivity|]. split; [|reflexivity].
      unfold api_fallback. destruct (truthy _); discriminate.
Qed.

Lemma server_serve_total config req up w :
  exists r w',
    Server.serve tza ical_toString config req up w = (Ok r, w') /\
    status r <> 403 /\ comparisons (trace w') = comparisons (trace w).
Proof.
  destruct (is_hit (Server.refresh req) w) eqn:Hhit.
  - rewrite (server_serve_hit _ _ _ _ Hhit). eexists _, _. split; [reflexivity|].
    split; [discriminate|reflexivity].
  - destruct (outcome up) as [raws|message] eqn:Hup.
    + rewrite (server_serve_regenerates _ _ _ _ _ Hhit Hup).
      eexists _, _. split; [reflexivity|]. split; [discriminate|].
      simpl. rewrite comparisons_app. simpl. apply app_nil_r.
    + rewrite (server_serve_fetch_fails _ _ _ _ _ Hhit Hup).
      eexists _, _. split; [reflexivity|]. split.
      * unfold server_fallback. destruct (truthy _); discriminate.
      * simpl. rewrite comparisons_app. simpl. apply app_nil_r.
Qed.

(** The token test of the serverless handler and of the Express route. *)
Lemma api_handler_gate config req up w secret :
  Api.calendarToken config = Some secret -> secret <> "" ->
  let provided := or_default (Api.token req) "" in
  Api.handler Date_parse tza ical_toString config req up w
  = if Nat.eqb (length secret) (length provided) then
      if (secret =? provided)%string then
        Api.serve Date_parse tza ical_toString config req up
          (compared w (Buffer_from secret) (Buffer_from provided))
      else (Ok (mkResponse 403 [] (Json "Invalid token")),
            compared w (Buffer_from secret) (Buffer_from provided))
    else (Ok (mkResponse 403 [] (Json "Invalid token")), w).
Proof.
  intros Hc Hs provided. unfold Api.handler.
  rewrite Hc, (truthy_Some _ Hs), (or_default_Some _ _ Hs). simpl.
  fold provided. unfold Api.tokenRejected, bind. rewrite !Buffer_from_length.
  destruct (Nat.eqb_spec (length secret) (length provided)) as [Hlen|Hlen]; simpl.
  - unfold timingSafeEqual, bind, log, ret. rewrite !Buffer_from_length.
    rewrite (proj2 (Nat.eqb_eq _ _) Hlen). rewrite (ct_equal_strings _ _ Hlen).
    now destruct (secret =? provided)%string.
  - reflexivity.
Qed.

Lemma server_route_gate config req up w secret :
  Server.calendarToken config = Some secret -> secret <> "" ->
  Server.get_calendar tza ical_toString config req up w
  = if (secret =? Server.token req)%string
    then Server.serve tza ical_toString config req up w
    else (Ok (mkResponse 403 [] (Send "Invalid token")), w).
Proof.
  intros Hc Hs. unfold Server.get_calendar.
  rewrite Hc, (truthy_Some _ Hs). simpl.
  now destruct (secret =? Server.token req)%string.
Qed.

End Serving.

(** ** The access gate *)

(** C1.  With an access token configured, the feed request is accepted
    (answered with a status other than 403) exactly when the supplied
    token equals the configured one.  A token of another length is
    rejected at once: the world, and with it the record of comparator
    calls, is unchanged.  Every recorded call of [crypto.timingSafeEqual]
    is on buffers of one length; the Express route never calls it. *)
Theorem C1_access_gate :
  forall (Date_parse : string -> option Z) (tza : Z)
         (ical_toString : ICal.Calendar -> string)
         (secret : string)
         (config : Api.Config) (req : Api.Request) (up : Upstream string)
         (sconfig : Server.Config) (sreq : Server.Request)
         (sup : Upstream (list Server.RawAppointment)) (w : World),
    secret <> "" ->
    Api.calendarToken config = Some secret ->
    Server.calendarToken sconfig = Some secret ->
    (exists r w',
        Api.handler Date_parse tza ical_toString config req up w = (Ok r, w') /\
        (status r <> 403 <-> Api.token req = Some secret) /\
        (length (or_default (Api.token req) "") <> length secret ->
         r = mkResponse 403 [] (Json "Invalid token") /\ w' = w) /\
        (forall a b, In (a, b) (comparisons (trace w')) ->
                     In (a, b) (comparisons (trace w)) \/ List.length a = List.length b))
    /\
    (exists r w',
        Server.get_calendar tza ical_toString sconfig sreq sup w = (Ok r, w') /\
        (status r <> 403 <-> Server.token sreq = secret) /\
        (length (Server.token sreq) <> length secret ->
         r = mkResponse 403 [] (Send "Invalid token") /\ w' = w) /\
        comparisons (trace w') = comparisons (trace w)).
Proof.
  intros Date_parse tza ical_toString secret config req up sconfig sreq sup w
         Hs Hc Hsc.
  split.
  - rewrite (api_handler_gate Date_parse tza ical_toString config req up w secret Hc Hs).
    set (provided := or_default (Api.token req) "").
    pose proof (or_default_token (Api.token req) secret Hs) as Htok. fold provided in Htok.
    destruct (Nat.eqb_spec (length secret) (length provided)) as [Hlen|Hlen].
    + destruct (String.eqb_spec secret provided) as [Heq|Hne].
      * destruct (api_serve_total Date_parse tza ical_toString config req up
                    (compared w (Buffer_from secret) (Buffer_from provided)))
          as (r & w' & -> & Hr & Hcmp).
        exists r, w'. split; [reflexivity|]. split; [|split].
        -- split; [intros _; now apply Htok|intros _; exact Hr].
        -- intro H. now rewrite Hlen in H.
        -- intros a b Hin. rewrite Hcmp in Hin. simpl in Hin.
           rewrite comparisons_app in Hin. apply in_app_or in Hin as [Hin|Hin];
             [now left|right].
           simpl in Hin. destruct Hin as [Hin|[]]. injection Hin as <- <-.
           now rewrite !Buffer_from_length.
      * eexists _, _. split; [reflexivity|]. split; [|split].
        -- simpl. split; [intro H; now contradiction H|].
           intro H. apply Htok in H. now symmetry in H.
        -- intro H. now rewrite Hlen in H.
        -- intros a b Hin. simpl in Hin.
           rewrite comparisons_app in Hin. apply in_app_or in Hin as [Hin|Hin];
             [now left|right].
           simpl in Hin. destruct Hin as [Hin|[]]. injection Hin as <- <-.
           now rewrite !Buffer_from_length.
    + eexists _, _. split; [reflexivity|]. split; [|split].
      * simpl. split; [intro H; now contradiction H|].
        intro H. apply Htok in H. rewrite H in Hlen. now contradiction Hlen.
      * intros _. split; reflexivity.
      * intros a b Hin. now left.
  - rewrite (server_route_gate tza ical_toString sconfig sreq sup w secret Hsc Hs).
    destruct (String.eqb_spec secret (Server.token sreq)) as [Heq|Hne].
    + destruct (server_serve_total tza ical_toString sconfig sreq sup w)
        as (r & w' & -> & Hr & Hcmp).
      exists r, w'. split; [reflexivity|]. split; [|split].
      * split; [intros _; now symmetry|intros _; exact Hr].
      * intro H. now rewrite Heq in H.
      * exact Hcmp.
    + eexists _, _. split; [reflexivity|]. split; [|split].
      * simpl. split; [intro H; now contradiction H|].
        intro H. now symmetry in H.
      * intros _. split; reflexivity.
      * reflexivity.
Qed.

(** C1 at the token ["abc"] against the configured ["abcd"]: both
    handlers answer 403 and leave the world, hence the comparator,
    untouched. *)
Lemma C1_witness :
  "abcd" <> "" /\
  Api.calendarToken sample_config = Some "abcd" /\
  Server.calendarToken sample_server_config = Some "abcd" /\
  Api.handler iso_only_parse 0 sample_toString sample_config
    (Api.mkRequest (Some "abc") None) (mkUpstream 0 (Ok sample_html)) fresh_world
  = (Ok (mkResponse 403 [] (Json "Invalid token")), fresh_world) /\
  Server.get_calendar 0 sample_toString sample_server_config
    (Server.mkRequest "abc" None) (mkUpstream 0 (Ok sample_raws)) fresh_world
  = (Ok (mkResponse 403 [] (Send "Invalid token")), fresh_world).
Proof.
  assert (Hs : "abcd" <> "") by discriminate.
  split; [exact Hs|]. split; [reflexivity|]. split; [reflexivity|].
  destruct (C1_access_gate iso_only_parse 0 sample_toString "abcd" sample_config
              (Api.mkRequest (Some "abc") None) (mkUpstream 0 (Ok sample_html))
              sample_server_config (Server.mkRequest "abc" None)
              (mkUpstream 0 (Ok sample_raws)) fresh_world Hs eq_refl eq_refl)
    as [(r & w' & Hrun & _ & Hlen & _) (sr & sw' & Hsrun & _ & Hslen & _)].
  destruct Hlen as [-> ->]; [simpl; discriminate|].
  destruct Hslen as [-> ->]; [simpl; discriminate|].
  split; assumption.
Defined.

(** ** The cache gate *)

Lemma strict_eq_true (x : option string) (lit : string) :
  strict_eq x lit = true <-> x = Some lit.
Proof.
  destruct x as [s|]; simpl.
  - rewrite String.eqb_eq. split; [now intros ->|now intros [= ->]].
  - split; discriminate.
Qed.

Lemma strict_eq_false (x : option string) (lit : string) :
  strict_eq x lit = false <-> x <> Some lit.
Proof.
  rewrite <- strict_eq_true. destruct (strict_eq x lit); split; congruence.
Qed.

Lemma is_hit_true (refresh : option string) (w : World) (doc : string) :
  cachedICS w = Some doc -> doc <> "" ->
  refresh <> Some "true" -> clock w - cacheTime w < CACHE_TTL ->
  is_hit refresh w = true.
Proof.
  intros Hc Hd Hr Ha. unfold is_hit.
  rewrite (proj2 (strict_eq_false refresh "true") Hr), Hc, (truthy_Some _ Hd).
  simpl. now apply Z.ltb_lt.
Qed.

Lemma is_hit_false (refresh : option string) (w : World) :
  CACHE_TTL <= clock w - cacheTime w \/ refresh = Some "true" ->
  is_hit refresh w = false.
Proof.
  unfold is_hit. intros [Ha|Hr].
  - rewrite (proj2 (Z.ltb_ge _ _) Ha). apply andb_false_r.
  - now rewrite (proj2 (strict_eq_true refresh "true") Hr).
Qed.

(** The claim of C2 fails on the serverless handler: with a valid token,
    a cached document twenty minutes old and [refresh=true], but no
    FlareSolverr URL configured, the handler throws before it reaches its
    collaborator and serves the old document marked STALE; no upstream
    fetch is attempted. *)
Lemma C2_counterexample :
  let w := cached_world "BEGIN:VCALENDAR" (20 * 60 * 1000) in
  let run := Api.handler iso_only_parse 0 sample_toString unready_config
               (Api.mkRequest (Some "abcd") (Some "true"))
               (mkUpstream 0 (Ok sample_html)) w in
  CACHE_TTL <= clock w - cacheTime w /\
  fst run = Ok (stale_response "BEGIN:VCALENDAR") /\
  fetches (trace (snd run)) = O.
Proof. simpl. split; [discriminate|]. split; reflexivity. Qed.

(** C2, amended.  For a request that passed the access gate:
    - when a cached document exists, is younger than the 15 minute TTL
      and [refresh] is not ['true'], both handlers return that document
      unchanged marked HIT, keep the cache as it is and make no upstream
      fetch;
    - when the cache is at least 15 minutes old or [refresh] is ['true'],
      the Express route makes exactly one upstream fetch, and so does the
      serverless handler provided its FlareSolverr URL and credentials
      are configured; without them it takes the failure path and makes
      no fetch. *)
Theorem C2_cache_gate :
  forall (Date_parse : string -> option Z) (tza : Z)
         (ical_toString : ICal.Calendar -> string) (secret : string)
         (config : Api.Config) (req : Api.Request) (up : Upstream string)
         (sconfig : Server.Config) (sreq : Server.Request)
         (sup : Upstream (list Server.RawAppointment)) (w : World),
    secret <> "" ->
    Api.calendarToken config = Some secret -> Api.token req = Some secret ->
    Server.calendarToken sconfig = Some secret -> Server.token sreq = secret ->
    let api := Api.handler Date_parse tza ical_toString config req up w in
    let server := Server.get_calendar tza ical_toString sconfig sreq sup w in
    (forall doc,
        cachedICS w = Some doc -> doc <> "" -> clock w - cacheTime w < CACHE_TTL ->
        (Api.refresh req <> Some "true" ->
         fst api = Ok (hit_response doc) /\
         cachedICS (snd api) = Some doc /\ cacheTime (snd api) = cacheTime w /\
         fetches (trace (snd api)) = fetches (trace w)) /\
        (Server.refresh sreq <> Some "true" ->
         server = (Ok (hit_response doc), w)))
    /\
    (CACHE_TTL <= clock w - cacheTime w \/ Server.refresh sreq = Some "true" ->
     fetches (trace (snd server)) = S (fetches (trace w)))
    /\
    (CACHE_TTL <= clock w - cacheTime w \/ Api.refresh req = Some "true" ->
     (api_ready config = true ->
      fetches (trace (snd api)) = S (fetches (trace w))) /\
     (api_ready config = false ->
      fst api = Ok (api_fallback w (api_unready_message config)) /\
      fetches (trace (snd api)) = fetches (trace w))).
Proof.
  intros Date_parse tza ical_toString secret config req up sconfig sreq sup w
         Hs Hc Ht Hsc Hst api server.
  assert (Hprov : or_default (Api.token req) "" = secret)
    by (rewrite Ht; now apply or_default_Some).
  assert (Hapi : api = Api.serve Date_parse tza ical_toString config req up
                         (compared w (Buffer_from secret) (Buffer_from secret))).
  { unfold api. rewrite (api_handler_gate _ _ _ _ _ _ _ _ Hc Hs), Hprov.
    now rewrite Nat.eqb_refl, String.eqb_refl. }
  assert (Hserver : server = Server.serve tza ical_toString sconfig sreq sup w).
  { unfold server. rewrite (server_route_gate _ _ _ _ _ _ _ Hsc Hs), Hst.
    now rewrite String.eqb_refl. }
  set (w1 := compared w (Buffer_from secret) (Buffer_from secret)) in Hapi.
  assert (Hf1 : fetches (trace w1) = fetches (trace w)).
  { unfold w1. simpl. rewrite fetches_app. simpl. apply Nat.add_0_r. }
  split; [|split].
  - intros doc Hdoc Hne Hage. split; intro Hr.
    + rewrite Hapi.
      rewrite (api_serve_hit _ _ _ _ _ _ w1 (is_hit_true _ w1 doc Hdoc Hne Hr Hage)).
      simpl. rewrite Hdoc, (or_default_Some _ _ Hne).
      repeat split. rewrite fetches_app. simpl. apply Nat.add_0_r.
    + rewrite Hserver.
      rewrite (server_serve_hit _ _ _ _ _ w (is_hit_true _ w doc Hdoc Hne Hr Hage)).
      now rewrite Hdoc, (or_default_Some _ _ Hne).
  - intro Hmiss. rewrite Hserver.
    pose proof (is_hit_false _ w Hmiss) as Hhit.
    destruct (outcome sup) as [raws|message] eqn:Hup.
    + rewrite (server_serve_regenerates _ _ _ _ _ _ _ Hhit Hup). simpl.
      rewrite fetches_app. simpl. apply Nat.add_1_r.
    + rewrite (server_serve_fetch_fails _ _ _ _ _ _ _ Hhit Hup). simpl.
      rewrite fetches_app. simpl. apply Nat.add_1_r.
  - intro Hmiss. rewrite Hapi.
    pose proof (is_hit_false _ w1 Hmiss) as Hhit.
    split; intro Hready.
    + destruct (outcome up) as [html|message] eqn:Hup.
      * destruct (api_serve_regenerates Date_parse tza ical_toString _ req _ w1 _
                    Hhit Hready Hup) as (c & _ & ->).
        simpl. rewrite !fetches_app. simpl. lia.
      * rewrite (api_serve_fetch_fails _ _ _ _ _ _ _ _ Hhit Hready Hup). simpl.
        rewrite !fetches_app. simpl. lia.
    + rewrite (api_serve_unready _ _ _ _ _ _ _ Hhit Hready). simpl.
      split; [reflexivity|exact Hf1].
Qed.

(** C2 at the 10 and 20 minute marks of the specification: ten minutes
    after a generation the document is served unchanged and nothing is
    fetched; twenty minutes after, one fetch is made. *)
Lemma C2_witness :
  let doc := "BEGIN:VCALENDAR" in
  let req := Api.mkRequest (Some "abcd") None in
  let sreq := Server.mkRequest "abcd" None in
  let up := mkUpstream 4000 (Ok sample_html) in
  let sup := mkUpstream 4000 (Ok sample_raws) in
  ("abcd" <> "" /\ doc <> "" /\ Api.refresh req <> Some "true" /\
   10 * 60 * 1000 < CACHE_TTL /\ CACHE_TTL <= 20 * 60 * 1000 /\
   api_ready sample_config = true) /\
  fst (Api.handler iso_only_parse 0 sample_toString sample_config req up
         (cached_world doc (10 * 60 * 1000))) = Ok (hit_response doc) /\
  fetches (trace (snd (Api.handler iso_only_parse 0 sample_toString sample_config req up
                         (cached_world doc (10 * 60 * 1000))))) = O /\
  fetches (trace (snd (Api.handler iso_only_parse 0 sample_toString sample_config req up
                         (cached_world doc (20 * 60 * 1000))))) = 1%nat /\
  fetches (trace (snd (Server.get_calendar 0 sample_toString sample_server_config sreq sup
                         (cached_world doc (20 * 60 * 1000))))) = 1%nat.
Proof.
  intros doc req sreq up sup.
  assert (Hs : "abcd" <> "") by discriminate.
  assert (Hd : doc <> "") by discriminate.
  assert (Hr : Api.refresh req <> Some "true") by discriminate.
  split; [repeat split; first [assumption|reflexivity|discriminate]|].
  pose proof (C2_cache_gate iso_only_parse 0 sample_toString "abcd" sample_config req up
                sample_server_config sreq sup (cached_world doc (10 * 60 * 1000))
                Hs eq_refl eq_refl eq_refl eq_refl) as (Hhit & _ & _).
  pose proof (C2_cache_gate iso_only_parse 0 sample_toString "abcd" sample_config req up
                sample_server_config sreq sup (cached_world doc (20 * 60 * 1000))
                Hs eq_refl eq_refl eq_refl eq_refl) as (_ & Hsrv & Hapi).
  destruct (Hhit doc eq_refl Hd eq_refl) as [Ha _].
  destruct (Ha Hr) as (H1 & _ & _ & H2).
  split; [exact H1|]. split; [exact H2|]. split.
  - apply Hapi; [left; discriminate|reflexivity].
  - apply Hsrv. left. discriminate.
Defined.

(** ** Stale fallback *)

Lemma api_fallback_cached (w : World) (message doc : string) :
  cachedICS w = Some doc -> doc <> "" -> api_fallback w message = stale_response doc.
Proof.
  intros Hc Hd. unfold api_fallback.
  now rewrite Hc, (truthy_Some _ Hd), (or_default_Some _ _ Hd).
Qed.

Lemma server_fallback_cached (w : World) (message doc : string) :
  cachedICS w = Some doc -> doc <> "" -> server_fallback w message = stale_response doc.
Proof.
  intros Hc Hd. unfold server_fallback.
  now rewrite Hc, (truthy_Some _ Hd), (or_default_Some _ _ Hd).
Qed.

(** C3.  Take a request that passed the access gate and is not served
    from the cache, and let generation fail: the collaborator throws, or
    (serverless handler) the configuration needed to reach it is missing.
    If a cached document exists, whatever its age, the response is that
    document marked STALE and the cache is left as it was; if none exists
    the response has status 500. *)
Theorem C3_stale_fallback :
  forall (Date_parse : string -> option Z) (tza : Z)
         (ical_toString : ICal.Calendar -> string) (secret : string)
         (config : Api.Config) (req : Api.Request) (up : Upstream string)
         (sconfig : Server.Config) (sreq : Server.Request)
         (sup : Upstream (list Server.RawAppointment)) (w : World),
    secret <> "" ->
    Api.calendarToken config = Some secret -> Api.token req = Some secret ->
    Server.calendarToken sconfig = Some secret -> Server.token sreq = secret ->
    let api := Api.handler Date_parse tza ical_toString config req up w in
    let server := Server.get_calendar tza ical_toString sconfig sreq sup w in
    (is_hit (Api.refresh req) w = false ->
     api_ready config = false \/ (exists message, outcome up = Throw message) ->
     (forall doc, cachedICS w = Some doc -> doc <> "" ->
        fst api = Ok (stale_response doc) /\
        cachedICS (snd api) = Some doc /\ cacheTime (snd api) = cacheTime w) /\
     (truthy (cachedICS w) = false ->
        exists r, fst api = Ok r /\ status r = 500 /\
                  cachedICS (snd api) = cachedICS w))
    /\
    (is_hit (Server.refresh sreq) w = false ->
     (exists message, outcome sup = Throw message) ->
     (forall doc, cachedICS w = Some doc -> doc <> "" ->
        fst server = Ok (stale_response doc) /\
        cachedICS (snd server) = Some doc /\ cacheTime (snd server) = cacheTime w) /\
     (truthy (cachedICS w) = false ->
        exists r, fst server = Ok r /\ status r = 500 /\
                  cachedICS (snd server) = cachedICS w)).
Proof.
  intros Date_parse tza ical_toString secret config req up sconfig sreq sup w
         Hs Hc Ht Hsc Hst api server.
  assert (Hprov : or_default (Api.token req) "" = secret)
    by (rewrite Ht; now apply or_default_Some).
  set (w1 := compared w (Buffer_from secret) (Buffer_from secret)).
  assert (Hapi : api = Api.serve Date_parse tza ical_toString config req up w1).
  { unfold api. rewrite (api_handler_gate _ _ _ _ _ _ _ _ Hc Hs), Hprov.
    now rewrite Nat.eqb_refl, String.eqb_refl. }
  assert (Hserver : server = Server.serve tza ical_toString sconfig sreq sup w).
  { unfold server. rewrite (server_route_gate _ _ _ _ _ _ _ Hsc Hs), Hst.
    now rewrite String.eqb_refl. }
  split.
  - intros Hhit Hfail.
    assert (Hrun : exists message w',
               api = (Ok (api_fallback w message), w') /\
               cachedICS w' = cachedICS w /\ cacheTime w' = cacheTime w).
    { rewrite Hapi. destruct (api_ready config) eqn:Hready.
      - destruct Hfail as [Hfail|[message Hup]]; [discriminate|].
        exists message, (after_fetch w1 (elapsed up)).
        rewrite (api_serve_fetch_fails _ _ _ _ _ _ w1 _ Hhit Hready Hup).
        repeat split.
      - exists (api_unready_message config), w1.
        rewrite (api_serve_unready _ _ _ _ _ _ w1 Hhit Hready). repeat split. }
    destruct Hrun as (message & w' & -> & Hcache & Htime). simpl. split.
    + intros doc Hdoc Hne. rewrite (api_fallback_cached _ _ _ Hdoc Hne).
      now rewrite Hcache, Htime.
    + intro Hnone. unfold api_fallback. rewrite Hnone.
      eexists. split; [reflexivity|]. split; [reflexivity|exact Hcache].
  - intros Hhit [message Hup]. rewrite Hserver.
    rewrite (server_serve_fetch_fails _ _ _ _ _ _ _ Hhit Hup). simpl. split.
    + intros doc Hdoc Hne. now rewrite (server_fallback_cached _ _ _ Hdoc Hne).
    + intro Hnone. unfold server_fallback. rewrite Hnone.
      eexists. split; [reflexivity|]. split; reflexivity.
Qed.

(** C3 on a document that is an hour old while the collaborator times
    out, and on a process without a document. *)
Lemma C3_witness :
  let doc := "BEGIN:VCALENDAR" in
  let req := Api.mkRequest (Some "abcd") None in
  let sreq := Server.mkRequest "abcd" None in
  let up := mkUpstream 60000 (Throw "FlareSolverr error: timeout") in
  let sup := mkUpstream 60000 (Throw "Navigation timeout of 60000 ms exceeded") in
  ("abcd" <> "" /\ doc <> "" /\
   is_hit None (cached_world doc (60 * 60 * 1000)) = false /\
   is_hit None fresh_world = false) /\
  fst (Api.handler iso_only_parse 0 sample_toString sample_config req up
         (cached_world doc (60 * 60 * 1000))) = Ok (stale_response doc) /\
  fst (Server.get_calendar 0 sample_toString sample_server_config sreq sup
         (cached_world doc (60 * 60 * 1000))) = Ok (stale_response doc) /\
  (exists r, fst (Api.handler iso_only_parse 0 sample_toString sample_config req up
                    fresh_world) = Ok r /\ status r = 500) /\
  (exists r, fst (Server.get_calendar 0 sample_toString sample_server_config sreq sup
                    fresh_world) = Ok r /\ status r = 500).
Proof.
  intros doc req sreq up sup.
  assert (Hs : "abcd" <> "") by discriminate.
  assert (Hd : doc <> "") by discriminate.
  split; [repeat split; first [assumption|reflexivity]|].
  pose proof (C3_stale_fallback iso_only_parse 0 sample_toString "abcd" sample_config req up
                sample_server_config sreq sup (cached_world doc (60 * 60 * 1000))
                Hs eq_refl eq_refl eq_refl eq_refl) as (Hapi & Hsrv).
  pose proof (C3_stale_fallback iso_only_parse 0 sample_toString "abcd" sample_config req up
                sample_server_config sreq sup fresh_world
                Hs eq_refl eq_refl eq_refl eq_refl) as (Hapi0 & Hsrv0).
  destruct (Hapi eq_refl (or_intror (ex_intro _ _ eq_refl))) as [Ha _].
  destruct (Hsrv eq_refl (ex_intro _ _ eq_refl)) as [Hb _].
  destruct (Hapi0 eq_refl (or_intror (ex_intro _ _ eq_refl))) as [_ Hc].
  destruct (Hsrv0 eq_refl (ex_intro _ _ eq_refl)) as [_ Hd0].
  split; [exact (proj1 (Ha doc eq_refl Hd))|].
  split; [exact (proj1 (Hb doc eq_refl Hd))|].
  split.
  - destruct (Hc eq_refl) as (r & Hr & Hst & _). now exists r.
  - destruct (Hd0 eq_refl) as (r & Hr & Hst & _). now exists r.
Defined.

(** ** Missing configuration *)

(** The claim of C7 fails on the Express route: without a configured
    token it answers a request exactly as it answers a wrong token on a
    configured deployment, with 403 and the text [Invalid token]. *)
Lemma C7_counterexample :
  let sup := mkUpstream 0 (Ok sample_raws) in
  Server.calendarToken (Server.mkConfig None None) = None /\
  fst (Server.get_calendar 0 sample_toString (Server.mkConfig None None)
         (Server.mkRequest "abcd" None) sup fresh_world)
  = fst (Server.get_calendar 0 sample_toString sample_server_config
           (Server.mkRequest "wrong" None) sup fresh_world) /\
  fst (Server.get_calendar 0 sample_toString sample_server_config
         (Server.mkRequest "wrong" None) sup fresh_world)
  = Ok invalid_token_text.
Proof. simpl. repeat split. Qed.

(** C7, amended.  When no access token is configured (absent or empty):
    - the serverless handler answers 500 with the error
      [Not configured. Visit /api/admin], touches nothing, and this
      response differs from its invalid-token rejection, which is what a
      configured deployment answers to any other token;
    - the Express route answers 403 [Invalid token], the very response it
      gives to a wrong token. *)
Theorem C7_not_configured :
  forall (Date_parse : string -> option Z) (tza : Z)
         (ical_toString : ICal.Calendar -> string)
         (config : Api.Config) (req : Api.Request) (up : Upstream string)
         (sconfig : Server.Config) (sreq : Server.Request)
         (sup : Upstream (list Server.RawAppointment)) (w : World),
    truthy (Api.calendarToken config) = false ->
    truthy (Server.calendarToken sconfig) = false ->
    (Api.handler Date_parse tza ical_toString config req up w = (Ok not_configured, w) /\
     not_configured <> invalid_token_json /\
     (forall config' req' up' w' secret,
         secret <> "" -> Api.calendarToken config' = Some secret ->
         Api.token req' <> Some secret ->
         fst (Api.handler Date_parse tza ical_toString config' req' up' w')
         = Ok invalid_token_json))
    /\
    (Server.get_calendar tza ical_toString sconfig sreq sup w = (Ok invalid_token_text, w) /\
     (forall sconfig' sreq' sup' w' secret,
         secret <> "" -> Server.calendarToken sconfig' = Some secret ->
         Server.token sreq' <> secret ->
         Server.get_calendar tza ical_toString sconfig' sreq' sup' w'
         = (Ok invalid_token_text, w'))).
Proof.
  intros Date_parse tza ical_toString config req up sconfig sreq sup w Hc Hsc.
  split; [split; [|split]|split].
  - unfold Api.handler. now rewrite Hc.
  - discriminate.
  - intros config' req' up' w' secret Hs Hc' Ht.
    rewrite (api_handler_gate _ _ _ _ _ _ _ _ Hc' Hs).
    destruct (Nat.eqb (length secret) _); [|reflexivity].
    destruct (String.eqb_spec secret (or_default (Api.token req') "")) as [E|E];
      [|reflexivity].
    exfalso. apply Ht. apply (or_default_token _ _ Hs). now symmetry.
  - unfold Server.get_calendar. now rewrite Hsc.
  - intros sconfig' sreq' sup' w' secret Hs Hc' Ht.
    rewrite (server_route_gate _ _ _ _ _ _ _ Hc' Hs).
    destruct (String.eqb_spec secret (Server.token sreq')) as [E|E]; [|reflexivity].
    exfalso. apply Ht. now symmetry.
Qed.

(** C7 on the deployments whose token is absent. *)
Lemma C7_witness :
  let config := Api.mkConfig (Some "me@example.com") (Some "hunter2") None
                             (Some "http://flaresolverr:8191") None None in
  let sconfig := Server.mkConfig None None in
  (truthy (Api.calendarToken config) = false /\
   truthy (Server.calendarToken sconfig) = false) /\
  Api.handler iso_only_parse 0 sample_toString config (Api.mkRequest (Some "abcd") None)
    (mkUpstream 0 (Ok sample_html)) fresh_world = (Ok not_configured, fresh_world) /\
  Server.get_calendar 0 sample_toString sconfig (Server.mkRequest "abcd" None)
    (mkUpstream 0 (Ok sample_raws)) fresh_world = (Ok invalid_token_text, fresh_world).
Proof.
  intros config sconfig. split; [split; reflexivity|].
  destruct (C7_not_configured iso_only_parse 0 sample_toString config
              (Api.mkRequest (Some "abcd") None) (mkUpstream 0 (Ok sample_html))
              sconfig (Server.mkRequest "abcd" None) (mkUpstream 0 (Ok sample_raws))
              fresh_world eq_refl eq_refl) as [(Ha & _) (Hb & _)].
  split; assumption.
Defined.

(** ** The cache timestamp *)

Section ValidToken.

Variable Date_parse : string -> option Z.
Variable tza : Z.
Variable ical_toString : ICal.Calendar -> string.

Lemma api_handler_valid config req up w secret :
  secret <> "" -> Api.calendarToken config = Some secret ->
  Api.token req = Some secret ->
  Api.handler Date_parse tza ical_toString config req up w
  = Api.serve Date_parse tza ical_toString config req up
      (compared w (Buffer_from secret) (Buffer_from secret)).
Proof.
  intros Hs Hc Ht.
  rewrite (api_handler_gate _ _ _ _ _ _ _ _ Hc Hs), Ht, (or_default_Some _ _ Hs).
  now rewrite Nat.eqb_refl, String.eqb_refl.
Qed.

Lemma server_route_valid config req up w secret :
  secret <> "" -> Server.calendarToken config = Some secret ->
  Server.token req = secret ->
  Server.get_calendar tza ical_toString config req up w
  = Server.serve tza ical_toString config req up w.
Proof.
  intros Hs Hc Ht. rewrite (server_route_gate _ _ _ _ _ _ _ Hc Hs), Ht.
  now rewrite String.eqb_refl.
Qed.

End ValidToken.

(** C10.  For a request that passed the access gate:
    - after a successful regeneration the stored timestamp is the clock
      reading taken when the request was served, before the collaborator
      was called, while the clock itself has moved on by the time the
      call took; so the two differ whenever the call took time;
    - a later request without [refresh=true] is a HIT exactly while less
      than 15 minutes have passed since that arrival time, and past it a
      fetch is made;
    - a HIT leaves the cached text and the timestamp as they were.
    [ical_toString] never yields the empty text (an iCalendar document
    starts with BEGIN:VCALENDAR). *)
Theorem C10_timestamp_is_arrival :
  forall (Date_parse : string -> option Z) (tza : Z)
         (ical_toString : ICal.Calendar -> string) (secret : string)
         (config : Api.Config) (req : Api.Request) (up : Upstream string) (html : string)
         (sconfig : Server.Config) (sreq : Server.Request)
         (sup : Upstream (list Server.RawAppointment))
         (raws : list Server.RawAppointment) (w : World),
    (forall c, ical_toString c <> "") ->
    secret <> "" ->
    Api.calendarToken config = Some secret -> Api.token req = Some secret ->
    Server.calendarToken sconfig = Some secret -> Server.token sreq = secret ->
    let api := Api.handler Date_parse tza ical_toString config req up w in
    let server := Server.get_calendar tza ical_toString sconfig sreq sup w in
    (is_hit (Api.refresh req) w = false -> api_ready config = true ->
     outcome up = Ok html ->
     exists ics,
       fst api = Ok (miss_response ics) /\ cachedICS (snd api) = Some ics /\
       cacheTime (snd api) = clock w /\
       clock (snd api) = clock w + elapsed up /\
       (0 < elapsed up -> cacheTime (snd api) <> clock (snd api)) /\
       (forall req' up' t,
           Api.token req' = Some secret -> Api.refresh req' <> Some "true" ->
           let next := Api.handler Date_parse tza ical_toString config req' up'
                         (at_time (snd api) t) in
           (t - clock w < CACHE_TTL -> fst next = Ok (hit_response ics)) /\
           (CACHE_TTL <= t - clock w ->
            fetches (trace (snd next)) = S (fetches (trace (snd api))))))
    /\
    (is_hit (Server.refresh sreq) w = false -> outcome sup = Ok raws ->
     exists ics,
       fst server = Ok (miss_response ics) /\ cachedICS (snd server) = Some ics /\
       cacheTime (snd server) = clock w /\
       clock (snd server) = clock w + elapsed sup /\
       (0 < elapsed sup -> cacheTime (snd server) <> clock (snd server)) /\
       (forall req' up' t,
           Server.token req' = secret -> Server.refresh req' <> Some "true" ->
           let next := Server.get_calendar tza ical_toString sconfig req' up'
                         (at_time (snd server) t) in
           (t - clock w < CACHE_TTL -> fst next = Ok (hit_response ics)) /\
           (CACHE_TTL <= t - clock w ->
            fetches (trace (snd next)) = S (fetches (trace (snd server))))))
    /\
    (is_hit (Api.refresh req) w = true ->
     cachedICS (snd api) = cachedICS w /\ cacheTime (snd api) = cacheTime w)
    /\
    (is_hit (Server.refresh sreq) w = true ->
     cachedICS (snd server) = cachedICS w /\ cacheTime (snd server) = cacheTime w).
Proof.
  intros Date_parse tza ical_toString secret config req up html sconfig sreq sup raws w
         Hne Hs Hc Ht Hsc Hst api server.
  unfold api, server.
  rewrite (api_handler_valid _ _ _ _ _ _ _ _ Hs Hc Ht).
  rewrite (server_route_valid _ _ _ _ _ _ _ Hs Hsc Hst).
  set (w1 := compared w (Buffer_from secret) (Buffer_from secret)).
  split; [|split; [|split]].
  - intros Hhit Hready Hup.
    destruct (api_serve_regenerates Date_parse tza ical_toString _ req _ w1 _
                Hhit Hready Hup) as (c & _ & ->).
    exists (ical_toString c). simpl.
    repeat (split; [reflexivity|]). split; [lia|].
    intros req' up' t Ht' Hr'.
    rewrite (api_handler_valid _ _ _ _ _ _ _ _ Hs Hc Ht').
    set (w2 := compared _ _ _). split; intro Hage.
    + rewrite (api_serve_hit _ _ _ _ _ _ w2
                 (is_hit_true _ w2 _ eq_refl (Hne c) Hr' Hage)).
      replace (or_default (cachedICS w2) "") with (ical_toString c)
        by (symmetry; exact (or_default_Some _ _ (Hne c))).
      reflexivity.
    + pose proof (is_hit_false (Api.refresh req') w2 (or_introl Hage)) as Hmiss.
      destruct (outcome up') as [html'|message] eqn:Hup'.
      * destruct (api_serve_regenerates Date_parse tza ical_toString _ req' _ w2 _
                    Hmiss Hready Hup') as (c' & _ & ->).
        simpl. rewrite !fetches_app. simpl. lia.
      * rewrite (api_serve_fetch_fails _ _ _ _ _ _ w2 _ Hmiss Hready Hup').
        simpl. rewrite !fetches_app. simpl. lia.
  - intros Hhit Hup.
    rewrite (server_serve_regenerates _ _ _ _ _ _ _ Hhit Hup).
    set (ics := Server.generateICS tza ical_toString raws (Server.calendarName sconfig)).
    assert (Hics : ics <> "") by apply Hne.
    rewrite (or_default_Some _ _ Hics). exists ics. simpl.
    repeat (split; [reflexivity|]). split; [lia|].
    intros req' up' t Ht' Hr'.
    rewrite (server_route_valid _ _ _ _ _ _ _ Hs Hsc Ht').
    set (w2 := at_time _ _). split; intro Hage.
    + rewrite (server_serve_hit _ _ _ _ _ w2
                 (is_hit_true _ w2 _ eq_refl Hics Hr' Hage)).
      replace (or_default (cachedICS w2) "") with ics
        by (symmetry; exact (or_default_Some _ _ Hics)).
      reflexivity.
    + pose proof (is_hit_false (Server.refresh req') w2 (or_introl Hage)) as Hmiss.
      destruct (outcome up') as [raws'|message] eqn:Hup'.
      * rewrite (server_serve_regenerates _ _ _ _ _ _ _ Hmiss Hup').
        simpl. rewrite !fetches_app. simpl. lia.
      * rewrite (server_serve_fetch_fails _ _ _ _ _ _ _ Hmiss Hup').
        simpl. rewrite !fetches_app. simpl. lia.
  - intro Hhit. now rewrite (api_serve_hit _ _ _ _ _ _ w1 Hhit).
  - intro Hhit. now rewrite (server_serve_hit _ _ _ _ _ _ Hhit).
Qed.

Lemma sample_toString_nonempty (c : ICal.Calendar) : sample_toString c <> "".
Proof. unfold sample_toString. simpl. discriminate. Qed.

(** C10 on a first request that arrives at 12:00:00.000 and whose scrape
    takes four seconds: the timestamp stored is 12:00:00.000, the clock
    reads 12:00:04.000. *)
Lemma C10_witness :
  let req := Api.mkRequest (Some "abcd") None in
  let sreq := Server.mkRequest "abcd" None in
  let up := mkUpstream 4000 (Ok sample_html) in
  let sup := mkUpstream 4000 (Ok sample_raws) in
  let api := Api.handler iso_only_parse 0 sample_toString sample_config req up fresh_world in
  let server := Server.get_calendar 0 sample_toString sample_server_config sreq sup
                  fresh_world in
  ((forall c, sample_toString c <> "") /\ "abcd" <> "" /\
   is_hit None fresh_world = false /\ api_ready sample_config = true) /\
  (cacheTime (snd api) = 1767614400000 /\ clock (snd api) = 1767614404000) /\
  (cacheTime (snd server) = 1767614400000 /\ clock (snd server) = 1767614404000).
Proof.
  intros req sreq up sup api server.
  assert (Hs : "abcd" <> "") by discriminate.
  split; [repeat split; first [apply sample_toString_nonempty|assumption]|].
  destruct (C10_timestamp_is_arrival iso_only_parse 0 sample_toString "abcd"
              sample_config req up sample_html sample_server_config sreq sup sample_raws
              fresh_world sample_toString_nonempty Hs eq_refl eq_refl eq_refl eq_refl)
    as (Ha & Hb & _ & _).
  destruct (Ha eq_refl eq_refl eq_refl) as (ics & _ & _ & Ht & Hc & _).
  destruct (Hb eq_refl eq_refl) as (sics & _ & _ & Hst & Hsc & _).
  split; split; assumption.
Defined.

(** ** Clock arithmetic *)

Lemma setHours_local (tza date h m : Z) :
  LocalTime tza (setHours tza date h m 0 0)
  = Day (LocalTime tza date) * msPerDay + (h * msPerHour + m * msPerMinute).
Proof. unfold setHours, UTC, LocalTime, MakeDate, MakeTime, msPerSecond. lia. Qed.

Lemma setHours_getHours (tza date h m : Z) :
  0 <= h <= 23 -> 0 <= m <= 59 ->
  getHours tza (setHours tza date h m 0 0) = h.
Proof.
  intros Hh Hm. unfold getHours, TimeWithinDay. rewrite setHours_local.
  unfold msPerDay, msPerHour, msPerMinute.
  rewrite Z.add_comm, Z.mod_add by lia.
  rewrite Z.mod_small by lia.
  symmetry. apply Z.div_unique with (r := m * 60000); lia.
Qed.

Lemma setHours_getMinutes (tza date h m : Z) :
  0 <= h <= 23 -> 0 <= m <= 59 ->
  getMinutes tza (setHours tza date h m 0 0) = m.
Proof.
  intros Hh Hm. unfold getMinutes, TimeWithinDay. rewrite setHours_local.
  unfold msPerDay, msPerHour, msPerMinute.
  rewrite Z.add_comm, Z.mod_add by lia.
  rewrite (Z.mod_small (h * 3600000 + m * 60000) 86400000) by lia.
  replace (h * 3600000 + m * 60000) with ((h * 60 + m) * 60000) by lia.
  rewrite Z.div_mul by lia.
  rewrite Z.add_comm, Z.mod_add by lia. apply Z.mod_small. lia.
Qed.

Lemma setHours_localDay (tza date h m : Z) :
  0 <= h <= 23 -> 0 <= m <= 59 ->
  localDay tza (setHours tza date h m 0 0) = localDay tza date.
Proof.
  intros Hh Hm. unfold localDay. unfold Day at 1. rewrite setHours_local.
  unfold msPerDay, msPerHour, msPerMinute.
  rewrite Z.add_comm, Z.div_add by lia.
  rewrite Z.div_small by lia. reflexivity.
Qed.

(** ** Meridiem conversion *)

Lemma to_upper_P (a : ascii) : to_upper a = "P"%char -> to_lower a = "p"%char.
Proof.
  destruct a as [[|] [|] [|] [|] [|] [|] [|] [|]]; vm_compute; intro H;
    first [reflexivity|discriminate].
Qed.

Lemma to_upper_A (a : ascii) : to_upper a = "A"%char -> to_lower a = "a"%char.
Proof.
  destruct a as [[|] [|] [|] [|] [|] [|] [|] [|]]; vm_compute; intro H;
    first [reflexivity|discriminate].
Qed.

Lemma to_upper_M (a : ascii) : to_upper a = "M"%char -> to_lower a = "m"%char.
Proof.
  destruct a as [[|] [|] [|] [|] [|] [|] [|] [|]]; vm_compute; intro H;
    first [reflexivity|discriminate].
Qed.

Lemma upper_PM_lower (mer : string) : toUpperCase mer = "PM" -> toLowerCase mer = "pm".
Proof.
  destruct mer as [|a [|b [|c mer]]]; simpl; try discriminate.
  intro H. injection H as Ha Hb. now rewrite (to_upper_P _ Ha), (to_upper_M _ Hb).
Qed.

Lemma upper_AM_lower (mer : string) : toUpperCase mer = "AM" -> toLowerCase mer = "am".
Proof.
  destruct mer as [|a [|b [|c mer]]]; simpl; try discriminate.
  intro H. injection H as Ha Hb. now rewrite (to_upper_A _ Ha), (to_upper_M _ Hb).
Qed.

Lemma upper_nonempty (mer : string) :
  toUpperCase mer = "AM" \/ toUpperCase mer = "PM" -> mer <> "".
Proof. intros [H|H] ->; discriminate. Qed.

Lemma scraper_to24_converts (h : Z) (mer : string) :
  toUpperCase mer = "AM" \/ toUpperCase mer = "PM" ->
  converts h mer (Scraper.to24 h (Some mer)).
Proof.
  intro Hmer. unfold Scraper.to24, converts.
  rewrite (truthy_Some _ (upper_nonempty _ Hmer)). simpl.
  destruct Hmer as [E|E]; rewrite E; simpl;
    destruct (Z.eqb_spec h 12); simpl; repeat split; intros; congruence.
Qed.

Lemma api_to24_converts (h : Z) (mer : string) :
  toUpperCase mer = "AM" \/ toUpperCase mer = "PM" ->
  converts h mer (Api.to24 h (Some mer)).
Proof.
  intro Hmer. unfold Api.to24, converts. simpl.
  destruct Hmer as [E|E]; rewrite E; simpl;
    destruct (Z.eqb_spec h 12) as [->|Hh]; simpl; repeat split; intros;
    try congruence.
Qed.

Lemma server_to24_converts (h : Z) (mer : string) :
  toUpperCase mer = "AM" \/ toUpperCase mer = "PM" ->
  converts h mer (Server.to24 h (Some (toLowerCase mer))).
Proof.
  intro Hmer. unfold Server.to24, converts.
  destruct Hmer as [E|E]; rewrite E;
    [rewrite (upper_AM_lower _ E)|rewrite (upper_PM_lower _ E)]; simpl;
    destruct (Z.eqb_spec h 12) as [->|Hh]; simpl; repeat split; intros;
    try congruence.
Qed.

Lemma converts_range (h : Z) (mer : string) (h24 : Z) :
  1 <= h <= 12 -> toUpperCase mer = "AM" \/ toUpperCase mer = "PM" ->
  converts h mer h24 -> 0 <= h24 <= 23.
Proof.
  intros Hh Hmer (H1 & H2 & H3 & H4).
  destruct (Z.eq_dec h 12) as [E|E]; destruct Hmer as [Hm|Hm].
  - rewrite (H2 Hm E). lia.
  - rewrite (H3 Hm E). lia.
  - rewrite (H4 Hm E). lia.
  - rewrite (H1 Hm E). lia.
Qed.

(** C4.  Let a time be parsed with hour [h] in 1..12, minute [m] and a
    meridiem marker [mer] (AM or PM in any letter case).  The hour that
    the normalizers of src/scraper.js, api/calendar.js and src/server.js
    compute is the one of the rule: PM and [h <> 12] gives [h + 12], AM
    and [h = 12] gives 0, otherwise [h]; it lies in 0..23.  The date that
    [parseDateTime] (src/scraper.js) and [parseAppointment]
    (api/calendar.js) build from such a match is [date] with its local
    clock set to that hour and to [m] minutes. *)
Theorem C4_meridiem_conversion :
  forall (h m : Z) (mer : string),
    1 <= h <= 12 -> 0 <= m <= 59 ->
    toUpperCase mer = "AM" \/ toUpperCase mer = "PM" ->
    exists h24 : Z,
      converts h mer h24 /\ 0 <= h24 <= 23 /\
      Scraper.to24 h (Some mer) = h24 /\
      Api.to24 h (Some mer) = h24 /\
      Server.to24 h (Some (toLowerCase mer)) = h24 /\
      (forall (tza date : Z) (timeStr : string) (tm : MatchResult) (hs ms : string),
          timeStr <> "" ->
          match_first Scraper.timeRe timeStr = Some tm ->
          group 1 tm = Some hs -> group 2 tm = Some ms -> group 3 tm = Some mer ->
          parseInt hs = Some h -> parseInt ms = Some m ->
          exists t,
            Scraper.parseDateTime tza (Some date) (Some timeStr) = Some t /\
            t = setHours tza date h24 m 0 0 /\
            getHours tza t = h24 /\ getMinutes tza t = m) /\
      (forall (tza date : Z) (tm : MatchResult) (hs ms : string),
          group 1 tm = Some hs -> group 2 tm = Some ms -> group 3 tm = Some mer ->
          parseInt hs = Some h -> parseInt ms = Some m ->
          exists t,
            Api.clockOn tza date tm 1 2 3 = Some t /\
            t = setHours tza date h24 m 0 0 /\
            getHours tza t = h24 /\ getMinutes tza t = m).
Proof.
  intros h m mer Hh Hm Hmer.
  pose proof (scraper_to24_converts h mer Hmer) as Hs.
  pose proof (api_to24_converts h mer Hmer) as Ha.
  pose proof (server_to24_converts h mer Hmer) as Hv.
  pose proof (converts_range h mer _ Hh Hmer Hs) as Hr.
  assert (Ea : Api.to24 h (Some mer) = Scraper.to24 h (Some mer)).
  { destruct Hs as (S1 & S2 & S3 & S4), Ha as (A1 & A2 & A3 & A4).
    destruct (Z.eq_dec h 12) as [E|E]; destruct Hmer as [Hx|Hx].
    - now rewrite (S2 Hx E), (A2 Hx E).
    - now rewrite (S3 Hx E), (A3 Hx E).
    - now rewrite (S4 Hx E), (A4 Hx E).
    - now rewrite (S1 Hx E), (A1 Hx E). }
  assert (Ev : Server.to24 h (Some (toLowerCase mer)) = Scraper.to24 h (Some mer)).
  { destruct Hs as (S1 & S2 & S3 & S4), Hv as (A1 & A2 & A3 & A4).
    destruct (Z.eq_dec h 12) as [E|E]; destruct Hmer as [Hx|Hx].
    - now rewrite (S2 Hx E), (A2 Hx E).
    - now rewrite (S3 Hx E), (A3 Hx E).
    - now rewrite (S4 Hx E), (A4 Hx E).
    - now rewrite (S1 Hx E), (A1 Hx E). }
  exists (Scraper.to24 h (Some mer)).
  split; [exact Hs|]. split; [exact Hr|]. split; [reflexivity|].
  split; [exact Ea|]. split; [exact Ev|]. split.
  - intros tza date timeStr tm hs ms Hne Hmatch G1 G2 G3 P1 P2.
    exists (setHours tza date (Scraper.to24 h (Some mer)) m 0 0).
    split; [|split; [reflexivity|split]].
    + unfold Scraper.parseDateTime.
      rewrite (eqb_empty_false _ Hne), Hmatch, G1, G2, P1, P2, G3. reflexivity.
    + now apply setHours_getHours.
    + now apply setHours_getMinutes.
  - intros tza date tm hs ms G1 G2 G3 P1 P2.
    exists (setHours tza date (Scraper.to24 h (Some mer)) m 0 0).
    split; [|split; [reflexivity|split]].
    + unfold Api.clockOn. rewrite G1, G2, P1, P2, G3, Ea. reflexivity.
    + now apply setHours_getHours.
    + now apply setHours_getMinutes.
Qed.

(** C4 on the four times of the specification, on 15 January 2026 in a
    zone five hours behind UTC: 12:00 AM is 00:00, 12:00 PM is 12:00,
    1:05 PM is 13:05 and 11:59 PM is 23:59. *)
Lemma C4_witness :
  let tza := -18000000 in
  let date := 1768492800000 in
  let clock t := option_map (fun d => (getHours tza d, getMinutes tza d)) t in
  (1 <= 12 <= 12 /\ 1 <= 1 <= 12 /\ 1 <= 11 <= 12 /\ 0 <= 0 <= 59 /\ 0 <= 5 <= 59 /\
   0 <= 59 <= 59 /\ toUpperCase "AM" = "AM" /\ toUpperCase "PM" = "PM") /\
  clock (Scraper.parseDateTime tza (Some date) (Some "12:00 AM")) = Some (0, 0) /\
  clock (Scraper.parseDateTime tza (Some date) (Some "12:00 PM")) = Some (12, 0) /\
  clock (Scraper.parseDateTime tza (Some date) (Some "1:05 PM")) = Some (13, 5) /\
  clock (Scraper.parseDateTime tza (Some date) (Some "11:59 PM")) = Some (23, 59).
Proof.
  intros tza date clock.
  split; [repeat split; first [reflexivity|discriminate]|].
  assert (Hrun : forall h m mer text hs ms tm h24,
             1 <= h <= 12 -> 0 <= m <= 59 ->
             toUpperCase mer = "AM" \/ toUpperCase mer = "PM" ->
             text <> "" -> match_first Scraper.timeRe text = Some tm ->
             group 1 tm = Some hs -> group 2 tm = Some ms -> group 3 tm = Some mer ->
             parseInt hs = Some h -> parseInt ms = Some m ->
             Scraper.to24 h (Some mer) = h24 ->
             clock (Scraper.parseDateTime tza (Some date) (Some text)) = Some (h24, m)).
  { intros h m mer text hs ms tm h24 Hh Hm Hmer Hne Hmatch G1 G2 G3 P1 P2 E.
    destruct (C4_meridiem_conversion h m mer Hh Hm Hmer)
      as (x & _ & _ & Hx & _ & _ & Hscr & _).
    destruct (Hscr tza date text tm hs ms Hne Hmatch G1 G2 G3 P1 P2)
      as (t & -> & _ & Hhour & Hmin).
    unfold clock. simpl. rewrite Hhour, Hmin. congruence. }
  split; [|split; [|split]].
  - eapply Hrun with (h := 12) (mer := "AM") (hs := "12") (ms := "00");
      [lia|lia|now left|discriminate|reflexivity..].
  - eapply Hrun with (h := 12) (mer := "PM") (hs := "12") (ms := "00");
      [lia|lia|now right|discriminate|reflexivity..].
  - eapply Hrun with (h := 1) (mer := "PM") (hs := "1") (ms := "05");
      [lia|lia|now right|discriminate|reflexivity..].
  - eapply Hrun with (h := 11) (mer := "PM") (hs := "11") (ms := "59");
      [lia|lia|now right|discriminate|reflexivity..].
Defined.

(** ** Default duration and end times *)

Lemma api_clockOn_inv (tza date : Z) (tm : MatchResult) (gh gm gmer : nat) (t : Z) :
  Api.clockOn tza date tm gh gm gmer = Some t ->
  exists hs ms h m,
    group gh tm = Some hs /\ group gm tm = Some ms /\
    parseInt hs = Some h /\ parseInt ms = Some m /\
    t = setHours tza date (Api.to24 h (group gmer tm)) m 0 0.
Proof.
  unfold Api.clockOn.
  destruct (group gh tm) as [hs|] eqn:G1; [|discriminate].
  destruct (group gm tm) as [ms|] eqn:G2; [|discriminate].
  destruct (parseInt hs) as [h|] eqn:Eh; [|discriminate].
  destruct (parseInt ms) as [m|] eqn:Em; [|discriminate].
  intro H. injection H as <-. exists hs, ms, h, m. repeat split; auto.
Qed.

Lemma scraper_parseDateTime_inv (tza : Z) (date : option Z) (timeStr : option string)
    (t : Z) :
  Scraper.parseDateTime tza date timeStr = Some t ->
  exists d text tm hs ms h m,
    date = Some d /\ timeStr = Some text /\
    match_first Scraper.timeRe text = Some tm /\
    group 1 tm = Some hs /\ group 2 tm = Some ms /\
    parseInt hs = Some h /\ parseInt ms = Some m /\
    t = setHours tza d (Scraper.to24 h (group 3 tm)) m 0 0.
Proof.
  unfold Scraper.parseDateTime.
  destruct date as [d|]; [|discriminate].
  destruct timeStr as [text|]; [|discriminate].
  destruct (text =? "")%string; [discriminate|].
  destruct (match_first Scraper.timeRe text) as [tm|] eqn:Etm; [|discriminate].
  destruct (group 1 tm) as [hs|] eqn:G1; [|discriminate].
  destruct (group 2 tm) as [ms|] eqn:G2; [|discriminate].
  destruct (parseInt hs) as [h|] eqn:Eh; [|discriminate].
  destruct (parseInt ms) as [m|] eqn:Em; [|discriminate].
  intro H. injection H as <-. exists d, text, tm, hs, ms, h, m. repeat split; auto.
Qed.

(** What [parseAppointment] of src/scraper.js returns once a start is
    resolved. *)
Lemma scraper_parseAppointment_inv (Date_parse : string -> option Z) (tza : Z)
    (rawApt : Scraper.RawAppointment) (apt : Appointment) (s : Z) :
  Scraper.parseAppointment Date_parse tza rawApt = Ok apt ->
  start apt = Some s ->
  exists dateText date,
    Scraper.dateText rawApt = Some dateText /\
    Scraper.parseDate Date_parse tza dateText = Some date /\
    truthy (Scraper.startTime rawApt) = true /\
    Scraper.parseDateTime tza (Some date) (Scraper.startTime rawApt) = Some s /\
    end_ apt = (if truthy (Scraper.endTime rawApt)
                then Scraper.parseDateTime tza (Some date) (Scraper.endTime rawApt)
                else Some (s + 60 * 60 * 1000)).
Proof.
  unfold Scraper.parseAppointment.
  generalize (Scraper.parseDateTime tza). intro pdt.
  destruct (Scraper.dateText rawApt) as [dateText|]; simpl.
  2:{ intro H. injection H as <-. discriminate. }
  destruct (dateText =? "")%string; simpl.
  { intro H. injection H as <-. discriminate. }
  destruct (Scraper.parseDate Date_parse tza dateText) as [date|] eqn:Ed; simpl.
  2:{ intro H. injection H as <-. discriminate. }
  destruct (truthy (Scraper.startTime rawApt)) eqn:Est.
  2:{ intro H. injection H as <-. discriminate. }
  destruct (truthy (Scraper.endTime rawApt)).
  - intro H. injection H as <-. simpl. intro Hs.
    exists dateText, date. repeat split; auto.
  - destruct (pdt (Some date) (Scraper.startTime rawApt))
      as [t|] eqn:Et; [|discriminate].
    intro H. injection H as <-. simpl. intro Hs. injection Hs as <-.
    exists dateText, date. repeat split; auto.
Qed.



(** ** Reminders *)

Lemma fold_left_events {A : Type} (add : ICal.Calendar -> A -> ICal.Calendar)
    (P : ICal.Event -> Prop) :
  (forall c x e, (forall e', In e' (ICal.events c) -> P e') ->
                 In e (ICal.events (add c x)) -> P e) ->
  forall l c, (forall e, In e (ICal.events c) -> P e) ->
              forall e, In e (ICal.events (fold_left add l c)) -> P e.
Proof.
  intros Hadd l. induction l as [|x l IH]; intros c Hc e; simpl.
  - apply Hc.
  - apply IH. intros e'. now apply (Hadd c x).
Qed.

Lemma calendar_addAppointment_triggers (c : ICal.Calendar) (apt : Appointment)
    (e : ICal.Event) :
  (forall e', In e' (ICal.events c) -> triggers e' = [- (60 * 60); - (24 * 60 * 60)]) ->
  In e (ICal.events (Calendar.addAppointment c apt)) ->
  triggers e = [- (60 * 60); - (24 * 60 * 60)].
Proof.
  intros Hc. unfold Calendar.addAppointment.
  destruct (start apt) as [s|]; [|apply Hc].
  simpl. intro H. apply in_app_or in H as [H|[<-|[]]]; [now apply Hc|reflexivity].
Qed.

Lemma api_addEvents_triggers (appointments : list Appointment) :
  forall c c' e,
    (forall e', In e' (ICal.events c) -> triggers e' = [- (60 * 60)]) ->
    Api.addEvents c appointments = Ok c' ->
    In e (ICal.events c') -> triggers e = [- (60 * 60)].
Proof.
  induction appointments as [|a l IH]; intros c c' e Hc; simpl.
  - intro H. injection H as <-. apply Hc.
  - unfold Api.addEvent.
    destruct (start a) as [s|]; [|discriminate].
    destruct (end_ a) as [t|]; [|discriminate].
    apply IH. simpl. intros e' H.
    apply in_app_or in H as [H|[<-|[]]]; [now apply Hc|reflexivity].
Qed.

Lemma server_addRaw_triggers (tza : Z) (c : ICal.Calendar) (raw : Server.RawAppointment)
    (e : ICal.Event) :
  (forall e', In e' (ICal.events c) -> triggers e' = [- (60 * 60)]) ->
  In e (ICal.events (Server.addRaw tza c raw)) -> triggers e = [- (60 * 60)].
Proof.
  intros Hc. unfold Server.addRaw.
  destruct (Server.parseAppointmentData tza raw) as [[t [s|] [f|] r dsc loc]|];
    try apply Hc.
  simpl. intro H. apply in_app_or in H as [H|[<-|[]]]; [now apply Hc|reflexivity].
Qed.



(** ** What the extractors keep *)

Lemma map_result_in {A B : Type} (f : A -> Result B) (l : list A) (ys : list B) (y : B) :
  Scraper.map_result f l = Ok ys -> In y ys -> exists x, In x l /\ f x = Ok y.
Proof.
  revert ys. induction l as [|x l IH]; intros ys; simpl.
  - intro H. injection H as <-. intros [].
  - destruct (f x) as [b|] eqn:Ef; [|discriminate].
    destruct (Scraper.map_result f l) as [bs|]; [|discriminate].
    intro H. injection H as <-. intros [<-|Hin].
    + exists x. auto.
    + destruct (IH bs eq_refl Hin) as (x' & Hx & Hf). exists x'. auto.
Qed.

(** A candidate without a date text, with a date text that does not
    resolve, or without a time is kept by [parseAppointment] of
    src/scraper.js as an appointment whose [start] and [end] are null. *)
Lemma scraper_parseAppointment_unresolved (Date_parse : string -> option Z) (tza : Z)
    (rawApt : Scraper.RawAppointment) :
  (forall t, Scraper.dateText rawApt = Some t ->
             Scraper.parseDate Date_parse tza t = None)
  \/ truthy (Scraper.startTime rawApt) = false ->
  exists apt,
    Scraper.parseAppointment Date_parse tza rawApt = Ok apt /\
    start apt = None /\ end_ apt = None.
Proof.
  unfold Scraper.parseAppointment. intros [Hd|Ht].
  - destruct (Scraper.dateText rawApt) as [t|]; simpl.
    + rewrite (Hd t eq_refl). destruct (t =? "")%string; simpl; eauto.
    + eauto.
  - rewrite Ht, andb_false_r. eauto.
Qed.

Lemma calendar_events_fold (env_name env_tz : option string)
    (appointments : list Appointment) (c : ICal.Calendar) :
  map ICal.ev_start
      (ICal.events (fold_left (Calendar.addAppointment) appointments c))
  = (map ICal.ev_start (ICal.events c)
     ++ flat_map (fun a => match start a with Some s => [s] | None => [] end)
                 appointments)%list.
Proof.
  revert c. induction appointments as [|a l IH]; intro c; simpl.
  - now rewrite app_nil_r.
  - rewrite IH. unfold Calendar.addAppointment.
    destruct (start a) as [s|]; simpl; [|reflexivity].
    now rewrite map_app, <- app_assoc.
Qed.



(** ** Strings: lengths and splitting *)

Lemma length_append (s t : string) : length (s ++ t) = (length s + length t)%nat.
Proof. induction s as [|a s IH]; simpl; [reflexivity|now rewrite IH]. Qed.

Lemma append_assoc (s t u : string) : (s ++ t) ++ u = s ++ (t ++ u).
Proof. induction s as [|a s IH]; simpl; [reflexivity|now rewrite IH]. Qed.

Lemma append_inj_prefix (s s' t t' : string) :
  s ++ t = s' ++ t' -> length s = length s' -> s = s' /\ t = t'.
Proof.
  revert s'. induction s as [|a s IH]; intros [|a' s'] H Hlen; simpl in *;
    try discriminate.
  - auto.
  - injection H as -> H. injection Hlen as Hlen.
    destruct (IH s' H Hlen) as [-> ->]. auto.
Qed.

Lemma append_inj_suffix (s s' t t' : string) :
  s ++ t = s' ++ t' -> length t = length t' -> s = s' /\ t = t'.
Proof.
  intros H Hlen. apply append_inj_prefix; [exact H|].
  apply (f_equal length) in H. rewrite !length_append in H. lia.
Qed.

Lemma last_char_append (s t : string) (dflt : ascii) :
  t <> "" -> last_char (s ++ t) dflt = last_char t dflt.
Proof.
  intro Ht. induction s as [|a s IH]; simpl; [reflexivity|].
  rewrite <- IH. destruct (s ++ t) eqn:E; [|reflexivity].
  destruct s; simpl in E; [contradiction|discriminate].
Qed.

(** ** Printing numbers *)

Lemma pad_length (width : nat) (n : Z) : length (pad width n) = width.
Proof.
  revert n. induction width as [|w IH]; intro n; simpl; [reflexivity|].
  rewrite length_append, IH. simpl. lia.
Qed.

Lemma digit_char_inj (n n' : Z) : digit_char n = digit_char n' -> n mod 10 = n' mod 10.
Proof.
  unfold digit_char. intro H.
  pose proof (Z.mod_pos_bound n 10 ltac:(lia)) as Hn.
  pose proof (Z.mod_pos_bound n' 10 ltac:(lia)) as Hn'.
  apply (f_equal N_of_ascii) in H.
  rewrite !N_ascii_embedding in H by lia. lia.
Qed.

Lemma pad_inj (width : nat) (n n' : Z) :
  0 <= n < 10 ^ Z.of_nat width -> 0 <= n' < 10 ^ Z.of_nat width ->
  pad width n = pad width n' -> n = n'.
Proof.
  revert n n'. induction width as [|w IH]; intros n n' Hn Hn' H.
  - simpl in Hn, Hn'. lia.
  - simpl in H. apply append_inj_prefix in H as [Hhigh Hlow];
      [|now rewrite !pad_length].
    injection Hlow as Hlow. apply digit_char_inj in Hlow.
    rewrite Nat2Z.inj_succ, Z.pow_succ_r in Hn, Hn' by lia.
    assert (Hq : n / 10 = n' / 10).
    { apply IH; [| |exact Hhigh]; split;
        try (apply Z.div_pos; lia); apply Z.div_lt_upper_bound; lia. }
    rewrite (Z.div_mod n 10), (Z.div_mod n' 10) by lia. now rewrite Hq, Hlow.
Qed.

(** ** Civil dates *)

Lemma civil_roundtrip (z : Z) :
  let '(y, m, dd) := civil_from_days z in
  days_from_civil y m dd = z /\ 1 <= m <= 12 /\ 1 <= dd <= 31.
Proof.
  unfold civil_from_days, days_from_civil.
  set (z' := z + 719468).
  set (era := z' / 146097).
  set (doe := z' - era * 146097).
  assert (Hdoe : 0 <= doe <= 146096).
  { subst doe era. pose proof (Z.mod_pos_bound z' 146097 ltac:(lia)) as H.
    rewrite Z.mod_eq in H by lia. lia. }
  assert (Ez : z = era * 146097 + doe - 719468) by (subst doe z'; lia).
  clearbody doe. clearbody era. clear z'.
  set (yoe := (doe - doe / 1460 + doe / 36524 - doe / 146096) / 365).
  set (doy := doe - (365 * yoe + yoe / 4 - yoe / 100)).
  assert (Hy : 0 <= yoe <= 399 /\ 0 <= doy <= 365).
  { subst doy yoe. clear -Hdoe. Z.div_mod_to_equations. lia. }
  destruct Hy as [Hyoe Hdoy].
  assert (Edoe : doe = yoe * 365 + yoe / 4 - yoe / 100 + doy) by (subst doy; lia).
  clearbody doy. clearbody yoe.
  set (mp := (5 * doy + 2) / 153).
  assert (Hmp : 0 <= mp <= 11).
  { subst mp. clear -Hdoy. Z.div_mod_to_equations. lia. }
  set (dd := doy - (153 * mp + 2) / 5 + 1).
  assert (Hdd : 1 <= dd <= 31).
  { subst dd mp. clear -Hdoy. Z.div_mod_to_equations. lia. }
  assert (Edoy : doy = (153 * mp + 2) / 5 + dd - 1) by (subst dd; lia).
  clearbody dd. clearbody mp.
  assert (Eera : forall k, k = yoe + era * 400 -> k / 400 = era).
  { intros k ->. symmetry. apply Z.div_unique with (r := yoe); lia. }
  destruct (Z.ltb_spec mp 10) as [Hlt|Hge].
  - replace (mp + 3 <=? 2) with false by (symmetry; apply Z.leb_gt; lia).
    replace (2 <? mp + 3) with true by (symmetry; apply Z.ltb_lt; lia).
    rewrite (Eera (yoe + era * 400 + 0)) by lia.
    split; [|lia].
    replace (mp + 3 - 3) with mp by lia.
    replace (yoe + era * 400 + 0 - era * 400) with yoe by lia. lia.
  - replace (mp - 9 <=? 2) with true by (symmetry; apply Z.leb_le; lia).
    replace (2 <? mp - 9) with false by (symmetry; apply Z.ltb_ge; lia).
    rewrite (Eera (yoe + era * 400 + 1 - 1)) by lia.
    split; [|lia].
    replace (mp - 9 + 9) with mp by lia.
    replace (yoe + era * 400 + 1 - 1 - era * 400) with yoe by lia. lia.
Qed.

Lemma civil_from_days_inj (z z' : Z) : civil_from_days z = civil_from_days z' -> z = z'.
Proof.
  intro H. pose proof (civil_roundtrip z) as R. pose proof (civil_roundtrip z') as R'.
  rewrite H in R. destruct (civil_from_days z') as [[y m] dd].
  destruct R as [<- _], R' as [<- _]. reflexivity.
Qed.

(** The clock fields that [toISOString] prints determine the time within
    the day. *)
Lemma clock_fields (tod tod' : Z) :
  0 <= tod < msPerDay -> 0 <= tod' < msPerDay ->
  tod / msPerHour = tod' / msPerHour ->
  (tod / msPerMinute) mod 60 = (tod' / msPerMinute) mod 60 ->
  (tod / msPerSecond) mod 60 = (tod' / msPerSecond) mod 60 ->
  tod mod 1000 = tod' mod 1000 ->
  tod = tod'.
Proof.
  unfold msPerDay, msPerHour, msPerMinute, msPerSecond. intros H H'.
  Z.div_mod_to_equations. lia.
Qed.

Lemma clock_fields_bounds (tod : Z) :
  0 <= tod < msPerDay ->
  0 <= tod / msPerHour < 10 ^ 2 /\ 0 <= (tod / msPerMinute) mod 60 < 10 ^ 2 /\
  0 <= (tod / msPerSecond) mod 60 < 10 ^ 2 /\ 0 <= tod mod 1000 < 10 ^ 3.
Proof.
  unfold msPerDay, msPerHour, msPerMinute, msPerSecond. intros H.
  change (10 ^ 2) with 100. change (10 ^ 3) with 1000.
  Z.div_mod_to_equations. lia.
Qed.

Lemma day_decomposition (t : Z) :
  t = Day t * msPerDay + TimeWithinDay t /\ 0 <= TimeWithinDay t < msPerDay.
Proof.
  unfold Day, TimeWithinDay, msPerDay. split.
  - rewrite Z.mul_comm. apply Z.div_mod. lia.
  - apply Z.mod_pos_bound. lia.
Qed.

(** ** ISO-8601 texts *)

Lemma toISOString_plain (t : Z) :
  four_digit_year t ->
  exists y m dd,
    civil_from_days (Day t) = (y, m, dd) /\ 0 <= y <= 9999 /\
    1 <= m <= 12 /\ 1 <= dd <= 31 /\
    toISOString t =
      pad 4 y ++ "-" ++ pad 2 m ++ "-" ++ pad 2 dd ++ "T"
      ++ pad 2 (TimeWithinDay t / msPerHour) ++ ":"
      ++ pad 2 ((TimeWithinDay t / msPerMinute) mod 60) ++ ":"
      ++ pad 2 ((TimeWithinDay t / msPerSecond) mod 60) ++ "."
      ++ pad 3 (TimeWithinDay t mod 1000) ++ "Z".
Proof.
  unfold four_digit_year, toISOString. intro Hy.
  pose proof (civil_roundtrip (Day t)) as R.
  destruct (civil_from_days (Day t)) as [[y m] dd].
  destruct R as (_ & Hm & Hd). exists y, m, dd.
  repeat (split; [first [reflexivity|assumption]|]).
  unfold iso_year.
  replace ((0 <=? y) && (y <=? 9999)) with true; [reflexivity|].
  symmetry. apply andb_true_intro. split; apply Z.leb_le; lia.
Qed.

Lemma toISOString_length (t : Z) :
  four_digit_year t -> length (toISOString t) = 24%nat.
Proof.
  intro H. destruct (toISOString_plain t H) as (y & m & dd & _ & _ & _ & _ & ->).
  repeat (rewrite length_append, pad_length; simpl). reflexivity.
Qed.

Lemma toISOString_last (t : Z) (dflt : ascii) :
  four_digit_year t -> last_char (toISOString t) dflt = "Z"%char.
Proof.
  intro H. destruct (toISOString_plain t H) as (y & m & dd & _ & _ & _ & _ & ->).
  repeat (rewrite last_char_append by discriminate). reflexivity.
Qed.

Lemma toISOString_inj (t t' : Z) :
  four_digit_year t -> four_digit_year t' ->
  toISOString t = toISOString t' -> t = t'.
Proof.
  intros Ht Ht'.
  destruct (toISOString_plain t Ht) as (y & m & dd & Hc & Hy & Hm & Hd & ->).
  destruct (toISOString_plain t' Ht') as (y' & m' & dd' & Hc' & Hy' & Hm' & Hd' & ->).
  destruct (day_decomposition t) as [Et Htod].
  destruct (day_decomposition t') as [Et' Htod'].
  destruct (clock_fields_bounds _ Htod) as (B1 & B2 & B3 & B4).
  destruct (clock_fields_bounds _ Htod') as (B1' & B2' & B3' & B4').
  intro H.
  apply append_inj_prefix in H as [Ey H]; [|now rewrite !pad_length].
  apply append_inj_prefix in H as [_ H]; [|reflexivity].
  apply append_inj_prefix in H as [Em H]; [|now rewrite !pad_length].
  apply append_inj_prefix in H as [_ H]; [|reflexivity].
  apply append_inj_prefix in H as [Ed H]; [|now rewrite !pad_length].
  apply append_inj_prefix in H as [_ H]; [|reflexivity].
  apply append_inj_prefix in H as [Eh H]; [|now rewrite !pad_length].
  apply append_inj_prefix in H as [_ H]; [|reflexivity].
  apply append_inj_prefix in H as [Emi H]; [|now rewrite !pad_length].
  apply append_inj_prefix in H as [_ H]; [|reflexivity].
  apply append_inj_prefix in H as [Es H]; [|now rewrite !pad_length].
  apply append_inj_prefix in H as [_ H]; [|reflexivity].
  apply append_inj_prefix in H as [Ems _]; [|now rewrite !pad_length].
  apply pad_inj in Ey; [|simpl; lia|simpl; lia].
  apply pad_inj in Em; [|simpl; lia|simpl; lia].
  apply pad_inj in Ed; [|simpl; lia|simpl; lia].
  apply pad_inj in Eh; [|assumption|assumption].
  apply pad_inj in Emi; [|assumption|assumption].
  apply pad_inj in Es; [|assumption|assumption].
  apply pad_inj in Ems; [|assumption|assumption].
  assert (Eday : Day t = Day t').
  { apply civil_from_days_inj. rewrite Hc, Hc'. now subst. }
  rewrite Et, Et', Eday. f_equal.
  now apply clock_fields.
Qed.

(** ** The hashed texts determine the appointment *)

Lemma iso_or_undefined_last (x : option Z) (dflt : ascii) :
  plain x ->
  Calendar.iso_or_undefined x <> "" /\
  last_char (Calendar.iso_or_undefined x) dflt
  = match x with Some _ => "Z"%char | None => "d"%char end /\
  length (Calendar.iso_or_undefined x)
  = match x with Some _ => 24%nat | None => 9%nat end.
Proof.
  destruct x as [t|]; simpl; intro H.
  - pose proof (toISOString_length t H) as Hlen.
    split; [|split; [now apply toISOString_last|exact Hlen]].
    intro E. rewrite E in Hlen. discriminate.
  - split; [discriminate|split; reflexivity].
Qed.

Lemma rendered_suffix (u u' : string) (x x' : option Z) :
  plain x -> plain x' ->
  u ++ Calendar.iso_or_undefined x = u' ++ Calendar.iso_or_undefined x' ->
  u = u' /\ x = x'.
Proof.
  intros Hx Hx' H.
  destruct (iso_or_undefined_last x "0"%char Hx) as (Hne & Hlast & Hlen).
  destruct (iso_or_undefined_last x' "0"%char Hx') as (Hne' & Hlast' & Hlen').
  pose proof (f_equal (fun s => last_char s "0"%char) H) as Hl. simpl in Hl.
  rewrite !last_char_append, Hlast, Hlast' in Hl by assumption.
  destruct x as [t|], x' as [t'|]; try discriminate.
  - apply append_inj_suffix in H as [Hu Ht]; [|now rewrite Hlen, Hlen'].
    split; [exact Hu|]. f_equal. now apply toISOString_inj.
  - apply append_inj_suffix in H as [Hu _]; [|reflexivity]. auto.
Qed.

Lemma calendar_uid_content_inj (a b : Appointment) :
  plain (start a) -> plain (end_ a) -> plain (start b) -> plain (end_ b) ->
  Calendar.uid_content a = Calendar.uid_content b -> triple a = triple b.
Proof.
  intros Hsa Hea Hsb Heb. unfold Calendar.uid_content, triple. intro H.
  rewrite <- !append_assoc in H.
  apply rendered_suffix in H as [H Ee]; [|assumption|assumption].
  apply append_inj_suffix in H as [H _]; [|reflexivity].
  apply rendered_suffix in H as [H Es]; [|assumption|assumption].
  apply append_inj_suffix in H as [Et _]; [|reflexivity].
  now rewrite Et, Es, Ee.
Qed.

Lemma api_uid_content_inj (t t' : string) (s e s' e' : Z) :
  four_digit_year s -> four_digit_year e -> four_digit_year s' -> four_digit_year e' ->
  Api.uid_content t s e = Api.uid_content t' s' e' -> (t, s, e) = (t', s', e').
Proof.
  intros Hs He Hs' He' H.
  pose proof (calendar_uid_content_inj
                (mkAppointment t (Some s) (Some e) None None None)
                (mkAppointment t' (Some s') (Some e') None None None)
                Hs He Hs' He' H) as E.
  unfold triple in E. simpl in E. congruence.
Qed.

Lemma server_uid_content_inj (s e s' e' : Z) :
  four_digit_year s -> four_digit_year e -> four_digit_year s' -> four_digit_year e' ->
  Server.uid_content s e = Server.uid_content s' e' -> (s, e) = (s', e').
Proof.
  intros Hs He Hs' He'. unfold Server.uid_content. intro H.
  apply append_inj_prefix in H as [Es H];
    [|now rewrite !toISOString_length].
  apply append_inj_prefix in H as [_ Ee]; [|reflexivity].
  apply toISOString_inj in Es; [|assumption|assumption].
  apply toISOString_inj in Ee; [|assumption|assumption].
  now subst.
Qed.

Lemma suffixed_inj (x y suffix : string) : x ++ suffix = y ++ suffix -> x = y.
Proof. intro H. now apply append_inj_suffix in H as [H _]. Qed.

(** ** The identifiers of the events *)

Lemma calendar_event_uids (env_name env_tz : option string)
    (appointments : list Appointment) (e : ICal.Event) :
  In e (ICal.events (Calendar.generateCalendar env_name env_tz appointments)) ->
  exists a, In a appointments /\ ICal.uid e = Calendar.generateUID a /\
            ICal.summary e = title a /\ start a = Some (ICal.ev_start e).
Proof.
  unfold Calendar.generateCalendar.
  assert (G : forall l c e,
             (forall e', In e' (ICal.events c) ->
                exists a, In a appointments /\ ICal.uid e' = Calendar.generateUID a /\
                          ICal.summary e' = title a /\ start a = Some (ICal.ev_start e')) ->
             incl l appointments ->
             In e (ICal.events (fold_left Calendar.addAppointment l c)) ->
             exists a, In a appointments /\ ICal.uid e = Calendar.generateUID a /\
                       ICal.summary e = title a /\ start a = Some (ICal.ev_start e)).
  { clear e. induction l as [|x l IH]; intros c e Hc Hl; simpl.
    - apply Hc.
    - apply IH; [|intros y Hy; apply Hl; now right].
      intros e'. unfold Calendar.addAppointment.
      destruct (start x) as [s|] eqn:Es; [|apply Hc].
      simpl. intro H. apply in_app_or in H as [H|[<-|[]]]; [now apply Hc|].
      exists x. simpl. repeat split; auto. apply Hl. now left. }
  apply G; [intros e' []|apply incl_refl].
Qed.

Lemma api_event_uids (appointments : list Appointment) :
  forall c c' e,
    (forall e', In e' (ICal.events c) ->
       ICal.uid e' = Api.event_uid (ICal.summary e') (ICal.ev_start e') (ICal.ev_end e')) ->
    Api.addEvents c appointments = Ok c' ->
    In e (ICal.events c') ->
    ICal.uid e = Api.event_uid (ICal.summary e) (ICal.ev_start e) (ICal.ev_end e).
Proof.
  induction appointments as [|a l IH]; intros c c' e Hc; simpl.
  - intro H. injection H as <-. apply Hc.
  - unfold Api.addEvent.
    destruct (start a) as [s|]; [|discriminate].
    destruct (end_ a) as [t|]; [|discriminate].
    apply IH. simpl. intros e' H.
    apply in_app_or in H as [H|[<-|[]]]; [now apply Hc|reflexivity].
Qed.

Lemma server_event_uids (tza : Z) (c : ICal.Calendar) (raw : Server.RawAppointment)
    (e : ICal.Event) :
  (forall e', In e' (ICal.events c) ->
     ICal.uid e' = Server.event_uid (ICal.ev_start e') (ICal.ev_end e')) ->
  In e (ICal.events (Server.addRaw tza c raw)) ->
  ICal.uid e = Server.event_uid (ICal.ev_start e) (ICal.ev_end e).
Proof.
  intros Hc. unfold Server.addRaw.
  destruct (Server.parseAppointmentData tza raw) as [[t [s|] [f|] r dsc loc]|];
    try apply Hc.
  simpl. intro H. apply in_app_or in H as [H|[<-|[]]]; [now apply Hc|reflexivity].
Qed.




(** ** A digest of 128 bits cannot tell all texts apart *)

Lemma bounded_value_search (f : nat -> Z) (v : Z) (n : nat) :
  (exists i, (i <= n)%nat /\ f i = v) \/ (forall i, (i <= n)%nat -> f i <> v).
Proof.
  induction n as [|n [(i & Hi & E)|IH]].
  - destruct (Z.eq_dec (f O) v) as [E|E].
    + left. exists O. auto.
    + right. intros i Hi. replace i with O by lia. exact E.
  - left. exists i. split; [lia|exact E].
  - destruct (Z.eq_dec (f (S n)) v) as [E|E].
    + left. exists (S n). auto.
    + right. intros i Hi. destruct (Nat.eq_dec i (S n)) as [->|Hne]; [exact E|].
      apply IH. lia.
Qed.

(** Among [n + 1] values below [n], two coincide. *)
Lemma pigeonhole (n : nat) (f : nat -> Z) :
  (forall i, (i <= n)%nat -> 0 <= f i < Z.of_nat n) ->
  exists i j, (i < j <= n)%nat /\ f i = f j.
Proof.
  revert f. induction n as [|n IH]; intros f Hf.
  - specialize (Hf O (le_n O)). simpl in Hf. lia.
  - destruct (bounded_value_search f (f (S n)) n) as [(i & Hi & E)|Hfresh].
    + exists i, (S n). split; [lia|exact E].
    + set (v := f (S n)) in *.
      set (g := fun i => if f i <? v then f i else f i - 1).
      assert (Hg : forall i, (i <= n)%nat -> 0 <= g i < Z.of_nat n).
      { intros i Hi. unfold g.
        pose proof (Hf i ltac:(lia)) as Hb. pose proof (Hf (S n) (le_n _)) as Hv.
        fold v in Hv. pose proof (Hfresh i Hi) as Hne.
        rewrite Nat2Z.inj_succ in Hb, Hv.
        destruct (Z.ltb_spec (f i) v); lia. }
      destruct (IH g Hg) as (i & j & Hij & E).
      exists i, j. split; [lia|].
      pose proof (Hfresh i ltac:(lia)) as Hi. pose proof (Hfresh j ltac:(lia)) as Hj.
      unfold g in E.
      destruct (Z.ltb_spec (f i) v); destruct (Z.ltb_spec (f j) v); lia.
Qed.

Lemma add32_ok (x y : Z) : word_ok (MD5.add32 x y).
Proof.
  unfold word_ok, MD5.add32, MD5.mask.
  change 0xFFFFFFFF with (Z.ones 32). rewrite Z.land_ones by lia.
  apply Z.mod_pos_bound. lia.
Qed.

Lemma compress_ok (st : MD5.state) (block : list Z) : state_ok (MD5.compress st block).
Proof.
  unfold MD5.compress. destruct st as [[[A0 B0] C0] D0].
  destruct (fold_left _ _ _) as [[[A B] C] D].
  repeat split; apply add32_ok.
Qed.

Lemma blocks_ok (fuel : nat) (bs : list Z) (st : MD5.state) :
  state_ok st -> state_ok (MD5.blocks fuel bs st).
Proof.
  revert bs st. induction fuel as [|fuel IH]; intros bs st Hst; simpl; [exact Hst|].
  destruct bs; [exact Hst|]. apply IH, compress_ok.
Qed.

Lemma md5_state_ok (s : string) : state_ok (md5_state s).
Proof.
  unfold md5_state. apply blocks_ok. cbv. repeat split; discriminate.
Qed.

Lemma state_number_range (st : MD5.state) :
  state_ok st -> 0 <= state_number st < 2 ^ 128.
Proof.
  destruct st as [[[A B] C] D]. unfold state_ok, word_ok, state_number.
  change (2 ^ 128) with (2 ^ 32 * (2 ^ 32 * (2 ^ 32 * 2 ^ 32))).
  change (2 ^ 32) with 4294967296. intros (HA & HB & HC & HD). nia.
Qed.

Lemma state_number_inj (st st' : MD5.state) :
  state_ok st -> state_ok st' -> state_number st = state_number st' -> st = st'.
Proof.
  destruct st as [[[A B] C] D], st' as [[[A' B'] C'] D'].
  unfold state_ok, word_ok, state_number. change (2 ^ 32) with 4294967296.
  intros (HA & HB & HC & HD) (HA' & HB' & HC' & HD') E.
  assert (A = A') by lia. subst A'.
  assert (B = B') by lia. subst B'.
  assert (C = C') by lia. subst C'.
  assert (D = D') by lia. subst D'. reflexivity.
Qed.

Lemma md5_hex_of_state (s s' : string) :
  md5_state s = md5_state s' -> md5_hex s = md5_hex s'.
Proof.
  unfold md5_hex, MD5.digest, md5_state. intro H. cbv zeta. now rewrite H.
Qed.

Lemma letters_length (n : nat) : length (letters n) = n.
Proof. induction n as [|n IH]; simpl; [reflexivity|now rewrite IH]. Qed.

(** [generateUID] of src/calendar.js is not injective on (title, start,
    end): among the sessions of one hour titled a, aa, aaa, ... two have
    different titles and the same identifier, because their MD5 states
    are numbers below 2^128. *)
Theorem generateUID_not_injective :
  exists i j : nat,
    title (session i) <> title (session j) /\
    start (session i) = start (session j) /\ end_ (session i) = end_ (session j) /\
    plain (start (session i)) /\ plain (end_ (session i)) /\
    Calendar.generateUID (session i) = Calendar.generateUID (session j).
Proof.
  set (f := fun i => state_number (md5_state (Calendar.uid_content (session i)))).
  destruct (pigeonhole (Z.to_nat (2 ^ 128)) f) as (i & j & Hij & E).
  - intros i _. rewrite Z2Nat.id by (apply Z.pow_nonneg; lia).
    apply state_number_range, md5_state_ok.
  - exists i, j. split; [|split; [reflexivity|split; [reflexivity|split; [|split]]]].
    + intro H. apply (f_equal length) in H.
      change (length (letters i) = length (letters j)) in H.
      rewrite !letters_length in H. lia.
    + cbv. split; discriminate.
    + cbv. split; discriminate.
    + unfold Calendar.generateUID. f_equal.
      apply md5_hex_of_state.
      apply state_number_inj; [apply md5_state_ok|apply md5_state_ok|exact E].
Qed.

(** ** Further properties of the extractors *)

(** Empty input gives an empty result and no error: the HTML extractor
    on the empty page, the DOM extractor on a document in which no
    selector matches. *)
Example empty_input_empty_result :
  forall (Date_parse : string -> option Z) (tza : Z),
    Api.extractAppointmentsFromHTML Date_parse tza "" = [] /\
    Scraper.extractAppointments Date_parse tza (fun _ => []) = Ok [].
Proof. intros Date_parse tza. split; reflexivity. Qed.

(** An empty extraction is not an error: on a page without bookings the
    serverless handler builds a calendar without events and serves it
    with status 200, marked MISS. *)
Example empty_extraction_is_served :
  forall (Date_parse : string -> option Z) (tza : Z)
         (ical_toString : ICal.Calendar -> string),
    let empty := ICal.mkCalendar None "America/New_York"
                   (Some ("appointy-sync", "calendar", "EN")) (60 * 60) [] in
    Api.buildCalendar (Api.extractAppointmentsFromHTML Date_parse tza "") None = Ok empty /\
    fst (Api.handler Date_parse tza ical_toString sample_config
           (Api.mkRequest (Some "abcd") None) (mkUpstream 0 (Ok "")) fresh_world)
    = Ok (miss_response (ical_toString empty)).
Proof. intros Date_parse tza ical_toString empty. split; reflexivity. Qed.

Lemma substring_length (n : nat) (s : string) : (length (substring 0 n s) <= n)%nat.
Proof.
  revert s. induction n as [|n IH]; intros [|a s]; simpl; try lia.
  specialize (IH s). lia.
Qed.


(** The scenario of the specification with the date [1/5/26] and the
    single time [9:30am]: one appointment from 09:30 to 10:30 on
    5 January 2026 (host in UTC) under the default title. *)
Example scenario_single_time :
  let apts := Api.extractAppointmentsFromHTML iso_only_parse 0
                "Upcoming 1/5/26 Scheduled 9:30am" in
  map title apts = ["Mathnasium Session"] /\
  map (fun a => option_map toISOString (start a)) apts
  = [Some "2026-01-05T09:30:00.000Z"] /\
  map (fun a => option_map toISOString (end_ a)) apts
  = [Some "2026-01-05T10:30:00.000Z"].
Proof. vm_compute. repeat split. Qed.

(** No roll-over past midnight: for [11:30 PM - 12:15 AM] the end is set
    on the calendar day of the start, so it lies before the start. *)
Example end_before_start_is_kept :
  let apts := Api.extractAppointmentsFromHTML iso_only_parse 0
                "<article>1/5/26 11:30 PM - 12:15 AM</article>" in
  map (fun a => option_map toISOString (start a)) apts
  = [Some "2026-01-05T23:30:00.000Z"] /\
  map (fun a => option_map toISOString (end_ a)) apts
  = [Some "2026-01-05T00:15:00.000Z"].
Proof. vm_compute. repeat split. Qed.

(* ================================================================== *)
(** * Further properties: matcher, extractors, panels, FlareSolverr    *)
(* ================================================================== *)

(** ** The matcher is sound *)

Lemma append_nil_r (s : string) : s ++ "" = s.
Proof. induction s as [|a s IH]; simpl; [reflexivity|now rewrite IH]. Qed.

Lemma substring_prefix (s y : string) : substring 0 (length s) (s ++ y) = s.
Proof.
  induction s as [|a s IH]; simpl.
  - destruct y; reflexivity.
  - now rewrite IH.
Qed.

Lemma consumed_prefix (s y : string) :
  substring 0 (length (s ++ y) - length y) (s ++ y) = s.
Proof.
  rewrite length_append.
  replace (length s + length y - length y)%nat with (length s) by lia.
  apply substring_prefix.
Qed.

Lemma rep_loop_sound (r : regex) (IHr : sound r) :
  forall fuel g lo hi x c k res,
    rep_loop (fun y cy k' => match_re r y cy k') fuel g lo hi x c k = Some res ->
    exists s y c', x = s ++ y /\ Matches (Rep g lo hi r) s c c' /\ k y c' = Some res.
Proof.
  assert (Hstop : forall g lo hi x c (k : cont) res,
             lo = O \/ hi_zero hi = true -> k x c = Some res ->
             exists s y c', x = s ++ y /\ Matches (Rep g lo hi r) s c c' /\ k y c' = Some res).
  { intros g lo hi x c k res Hlo Hk. exists "", x, c. split; [reflexivity|].
    split; [now constructor|exact Hk]. }
  induction fuel as [|fuel IH]; intros g lo hi x c k res; simpl.
  - destruct (hi_zero hi) eqn:Hhi; [intro H; apply Hstop; auto|].
    destruct (Nat.eqb_spec lo 0) as [->|Hlo]; [|discriminate].
    intro H. apply Hstop; auto.
  - destruct (hi_zero hi) eqn:Hhi; [intro H; apply Hstop; auto|].
    set (d := fun (y : string) (cy : captures) =>
                if Nat.eqb lo 0 && Nat.eqb (length y) (length x) then None
                else rep_loop (fun y0 cy0 k' => match_re r y0 cy0 k') fuel g
                       (Nat.pred lo) (option_map Nat.pred hi) y cy k).
    assert (Hmore : match_re r x c d = Some res ->
             exists s y c', x = s ++ y /\ Matches (Rep g lo hi r) s c c' /\ k y c' = Some res).
    { intro H. apply IHr in H as (s1 & y1 & c1 & -> & Hm1 & Hd).
      unfold d in Hd.
      destruct (Nat.eqb lo 0 && Nat.eqb (length y1) (length (s1 ++ y1))); [discriminate|].
      apply IH in Hd as (s2 & y & c2 & -> & Hm2 & Hk).
      exists (s1 ++ s2), y, c2. split; [now rewrite append_assoc|].
      split; [|exact Hk]. now apply M_RepMore with (c1 := c1). }
    destruct (Nat.eqb_spec lo 0) as [->|Hlo]; simpl.
    + destruct g.
      * destruct (match_re r x c d) as [z|] eqn:E.
        -- intro H. injection H as ->. now apply Hmore.
        -- intro H. apply Hstop; auto.
      * destruct (k x c) as [z|] eqn:E.
        -- intro H. injection H as ->. apply Hstop; auto.
        -- exact Hmore.
    + exact Hmore.
Qed.

Lemma match_re_sound (r : regex) : sound r.
Proof.
  induction r as [|p|r1 IH1 r2 IH2|r1 IH1 r2 IH2|g lo hi r IH|n r IH];
    intros x c k res; simpl.
  - intro H. exists "", x, c. split; [reflexivity|]. split; [constructor|exact H].
  - destruct x as [|a x]; [discriminate|].
    destruct (p a) eqn:Hp; [|discriminate].
    intro H. exists (String a ""), x, c. split; [reflexivity|].
    split; [now constructor|exact H].
  - intro H. apply IH1 in H as (s1 & y1 & c1 & -> & Hm1 & H).
    apply IH2 in H as (s2 & y & c2 & -> & Hm2 & H).
    exists (s1 ++ s2), y, c2. split; [now rewrite append_assoc|].
    split; [|exact H]. now apply M_Seq with (c1 := c1).
  - destruct (match_re r1 x c k) as [z|] eqn:E.
    + intro H. injection H as ->. apply IH1 in E as (s & y & c' & -> & Hm & H).
      exists s, y, c'. split; [reflexivity|]. split; [now apply M_AltL|exact H].
    + intro H. apply IH2 in H as (s & y & c' & -> & Hm & H).
      exists s, y, c'. split; [reflexivity|]. split; [now apply M_AltR|exact H].
  - apply rep_loop_sound. exact IH.
  - intro H. apply IH in H as (s & y & c' & -> & Hm & H).
    rewrite consumed_prefix in H.
    exists s, y, ((n, s) :: c'). split; [reflexivity|]. split; [now constructor|exact H].
Qed.

Lemma search_unfold (r : regex) (x : string) (idx : nat) :
  search r x idx
  = match match_re r x [] (fun y cy => Some (y, cy)) with
    | Some (y, cy) =>
        Some (mkMatch idx (substring 0 (length x - length y) x) cy
                      (idx + (length x - length y)))
    | None =>
        match x with
        | String _ x' => search r x' (S idx)
        | EmptyString => None
        end
    end.
Proof. destruct x; reflexivity. Qed.

Lemma head_found (r : regex) (x y : string) (cy : captures) :
  match_re r x [] (fun y cy => Some (y, cy)) = Some (y, cy) ->
  exists s,
    x = s ++ y /\ substring 0 (length x - length y) x = s /\
    (length x - length y)%nat = length s /\ Matches r s [] cy.
Proof.
  intro E. apply match_re_sound in E as (s & y' & c' & -> & Hm & Hk).
  injection Hk as -> ->. exists s. rewrite consumed_prefix, length_append.
  split; [reflexivity|]. split; [reflexivity|]. split; [lia|exact Hm].
Qed.

(** What [search] finds at position [idx] of a text that continues
    with [x]. *)
Lemma search_sound (r : regex) (x : string) (idx : nat) (m : MatchResult) :
  search r x idx = Some m ->
  exists pre rest,
    x = pre ++ matched m ++ rest /\ index m = (idx + length pre)%nat /\
    lastIndex m = (index m + length (matched m))%nat /\
    Matches r (matched m) [] (groups m).
Proof.
  revert idx m. induction x as [|a x IH]; intros idx m; rewrite search_unfold;
    (destruct (match_re r _ [] _) as [[y cy]|] eqn:E;
     [apply head_found in E as (s & Hx & Hsub & Hlen & Hm);
      rewrite Hsub, Hlen; intro H; injection H as <-;
      exists "", y; cbn [matched index lastIndex groups];
      split; [exact Hx|]; split; [simpl; lia|]; split; [lia|exact Hm]|]).
  - discriminate.
  - intro H. apply IH in H as (pre & rest & -> & Hi & Hl & Hm).
    exists (String a pre), rest. simpl. split; [reflexivity|].
    split; [lia|]. split; [exact Hl|exact Hm].
Qed.

Lemma drop_split (n : nat) (s : string) :
  (n <= length s)%nat -> exists pre, s = pre ++ drop n s /\ length pre = n.
Proof.
  revert s. induction n as [|n IH]; intros s Hn.
  - exists "". split; [destruct s; reflexivity|reflexivity].
  - destruct s as [|a s]; simpl in Hn; [lia|].
    destruct (IH s ltac:(lia)) as (pre & E & Hl).
    exists (String a pre). simpl. split; [now rewrite <- E|now rewrite Hl].
Qed.

Lemma exec_at_found (r : regex) (s : string) (from : nat) (m : MatchResult) :
  exec_at r s from = Some m -> found r s m /\ (from <= index m)%nat.
Proof.
  unfold exec_at. destruct (Nat.ltb_spec (length s) from) as [Hlt|Hle]; [discriminate|].
  intro H. apply search_sound in H as (pre & rest & E & Hi & Hl & Hm).
  destruct (drop_split from s Hle) as (pre0 & Es & Hp).
  split; [|lia].
  exists (pre0 ++ pre), rest. rewrite append_assoc, <- E, <- Es.
  split; [reflexivity|]. rewrite length_append. split; [lia|]. split; [exact Hl|exact Hm].
Qed.

Lemma exec_loop_found (r : regex) (s : string) (fuel from : nat) (m : MatchResult) :
  In m (exec_loop fuel r s from) -> found r s m /\ (from <= index m)%nat.
Proof.
  revert from. induction fuel as [|fuel IH]; intro from; simpl; [intros []|].
  destruct (exec_at r s from) as [m0|] eqn:E; [|intros []].
  apply exec_at_found in E as [Hf Hfrom].
  intros [<-|H]; [now split|].
  apply IH in H as [Hm Hi]. split; [exact Hm|].
  destruct Hf as (pre & rest & _ & _ & Hl & _).
  destruct (Nat.eqb (lastIndex m0) (index m0)); lia.
Qed.

Lemma matchAll_found (r : regex) (s : string) (m : MatchResult) :
  In m (matchAll r s) -> found r s m.
Proof. intro H. now apply exec_loop_found in H. Qed.

Lemma match_first_found (r : regex) (s : string) (m : MatchResult) :
  match_first r s = Some m -> found r s m.
Proof. intro H. now apply exec_at_found in H. Qed.

(** ** Reading a match back *)

Lemma Matches_Seq_inv (r1 r2 : regex) (s : string) (c c2 : captures) :
  Matches (Seq r1 r2) s c c2 ->
  exists s1 s2 c1, s = s1 ++ s2 /\ Matches r1 s1 c c1 /\ Matches r2 s2 c1 c2.
Proof. intro H. inversion H; subst. eauto 6. Qed.

Lemma Matches_Grp_inv (n : nat) (r : regex) (s : string) (c c2 : captures) :
  Matches (Grp n r) s c c2 -> exists c1, c2 = (n, s) :: c1 /\ Matches r s c c1.
Proof. intro H. inversion H; subst. eauto. Qed.

Lemma Matches_Alt_inv (r1 r2 : regex) (s : string) (c c' : captures) :
  Matches (Alt r1 r2) s c c' -> Matches r1 s c c' \/ Matches r2 s c c'.
Proof. intro H. inversion H; subst; auto. Qed.

Lemma Matches_Chr_inv (p : ascii -> bool) (s : string) (c c' : captures) :
  Matches (Chr p) s c c' -> exists a, s = String a "" /\ p a = true /\ c' = c.
Proof. intro H. inversion H; subst. eauto. Qed.

Lemma capture_free_keeps (r : regex) (s : string) (c c' : captures) :
  Matches r s c c' -> capture_free r = true -> c' = c.
Proof.
  induction 1 as [c|p a c Hp|r1 r2 s1 s2 c c1 c2 H1 IH1 H2 IH2|r1 r2 s c c' H IH
                  |r1 r2 s c c' H IH|n r s c c' H IH|g lo hi r c Hlo
                  |g lo hi r s1 s2 c c1 c2 Hhi H1 IH1 H2 IH2]; simpl; intro Hf;
    try reflexivity; try discriminate.
  - apply andb_prop in Hf as [Hf1 Hf2]. rewrite (IH2 Hf2). now apply IH1.
  - apply andb_prop in Hf as [Hf1 Hf2]. now apply IH.
  - apply andb_prop in Hf as [Hf1 Hf2]. now apply IH.
  - rewrite (IH2 Hf). now apply IH1.
Qed.

Lemma all_chars_app (p : ascii -> bool) (s t : string) :
  all_chars p (s ++ t) = all_chars p s && all_chars p t.
Proof. induction s as [|a s IH]; simpl; [reflexivity|]. now rewrite IH, andb_assoc. Qed.

(** A quantified character class matches [lo] to [hi] characters of the
    class. *)
Lemma Matches_class (p : ascii -> bool) (g : bool) (lo : nat) (hi : option nat)
    (s : string) (c c' : captures) :
  bounds_ok lo hi ->
  Matches (Rep g lo hi (Chr p)) s c c' ->
  c' = c /\ all_chars p s = true /\ (lo <= length s)%nat /\
  (forall h, hi = Some h -> (length s <= h)%nat).
Proof.
  intros Hb H. remember (Rep g lo hi (Chr p)) as r eqn:Er.
  revert lo hi Hb Er.
  induction H as [c|p0 a c Hp|r1 r2 s1 s2 c c1 c2 H1 IH1 H2 IH2|r1 r2 s c c' H IH
                  |r1 r2 s c c' H IH|n r s c c' H IH|g0 lo0 hi0 r c Hlo
                  |g0 lo0 hi0 r s1 s2 c c1 c2 Hhi H1 IH1 H2 IH2];
    intros lo hi Hb Er; try discriminate; injection Er as -> -> -> ->.
  - split; [reflexivity|]. split; [reflexivity|]. simpl. split; [|intros; lia].
    destruct Hlo as [->|Hz]; [lia|].
    destruct hi as [[|h]|]; try discriminate. specialize (Hb O eq_refl). lia.
  - apply Matches_Chr_inv in H1 as (a & -> & Hp & ->).
    destruct (IH2 (Nat.pred lo) (option_map Nat.pred hi)) as (-> & Hall & Hlo & Hmax).
    + intros h Eh. destruct hi as [h0|]; [|discriminate]. injection Eh as <-.
      specialize (Hb h0 eq_refl). lia.
    + reflexivity.
    + split; [reflexivity|]. simpl. rewrite Hp, Hall. split; [reflexivity|].
      split; [lia|]. intros h Eh. subst hi. simpl in Hhi.
      destruct h as [|h]; [discriminate|]. specialize (Hmax h eq_refl). lia.
Qed.

Lemma Matches_times (p : ascii -> bool) (lo hi : nat) (s : string) (c c' : captures) :
  (lo <= hi)%nat ->
  Matches (times lo hi (Chr p)) s c c' ->
  c' = c /\ all_chars p s = true /\ (lo <= length s <= hi)%nat.
Proof.
  intros Hle H. apply Matches_class in H as (-> & Hall & Hlo & Hhi).
  - split; [reflexivity|]. split; [exact Hall|]. split; [exact Hlo|now apply Hhi].
  - intros h Eh. injection Eh as <-. exact Hle.
Qed.

(** A literal under the [i] flag matches its text up to letter case. *)
Lemma Matches_lit_i (t s : string) (c c' : captures) :
  Matches (lit_i t) s c c' -> c' = c /\ toUpperCase s = toUpperCase t.
Proof.
  revert s c c'. induction t as [|a t IH]; intros s c c' H.
  - inversion H; subst. split; reflexivity.
  - destruct t as [|b t].
    + simpl in H. apply Matches_Chr_inv in H as (x & -> & Hx & ->).
      split; [reflexivity|]. simpl. unfold eqb_i in Hx.
      apply Ascii.eqb_eq in Hx. now rewrite Hx.
    + change (lit_i (String a (String b t)))
        with (Seq (Chr (eqb_i a)) (lit_i (String b t))) in H.
      apply Matches_Seq_inv in H as (s1 & s2 & c1 & -> & H1 & H2).
      apply Matches_Chr_inv in H1 as (x & -> & Hx & ->).
      apply IH in H2 as (-> & E). split; [reflexivity|].
      unfold eqb_i in Hx. apply Ascii.eqb_eq in Hx.
      change (toUpperCase (String x "" ++ s2)) with (String (to_upper x) (toUpperCase s2)).
      rewrite E, <- Hx. reflexivity.
Qed.

Lemma Matches_meridiem (s : string) (c c' : captures) :
  Matches (alt [lit_i "am"; lit_i "pm"]) s c c' ->
  c' = c /\ (toLowerCase s = "am" \/ toLowerCase s = "pm").
Proof.
  intro H. apply Matches_Alt_inv in H as [H|H]; apply Matches_lit_i in H as (-> & E);
    (split; [reflexivity|]).
  - left. now apply upper_AM_lower.
  - right. now apply upper_PM_lower.
Qed.

(** ** parseInt on digit captures *)

Lemma digit_not_space (a : ascii) : is_digit a = true -> is_space a = false.
Proof.
  unfold is_digit, is_space. intro H. apply andb_prop in H as [H1 H2].
  apply Z.leb_le in H1, H2.
  destruct (Z.eqb_spec (code a) 32); [lia|]. simpl.
  destruct (Z.leb_spec 9 (code a)); [|reflexivity].
  destruct (Z.leb_spec (code a) 13); [lia|reflexivity].
Qed.

Lemma digits_value_bounds (s : string) (acc : Z) :
  all_chars is_digit s = true -> 0 <= acc ->
  acc * 10 ^ Z.of_nat (length s) <= digits_value s acc
  < (acc + 1) * 10 ^ Z.of_nat (length s).
Proof.
  revert acc. induction s as [|a s IH]; intros acc Hall Hacc.
  - simpl. lia.
  - simpl in Hall. apply andb_prop in Hall as [Ha Hall].
    cbn [digits_value length]. rewrite Ha.
    assert (Hd : 0 <= code a - 48 <= 9).
    { unfold is_digit in Ha. apply andb_prop in Ha as [H1 H2].
      apply Z.leb_le in H1, H2. lia. }
    specialize (IH (10 * acc + (code a - 48)) Hall ltac:(lia)).
    rewrite Nat2Z.inj_succ, Z.pow_succ_r by lia.
    assert (Hp : 0 < 10 ^ Z.of_nat (length s)) by (apply Z.pow_pos_nonneg; lia).
    nia.
Qed.

(** [parseInt] of one to [n] digits is a number below [10 ^ n], never
    NaN. *)
Lemma parseInt_digits (lo hi : nat) (s : string) :
  (1 <= lo)%nat -> digits lo hi s ->
  exists v, parseInt s = Some v /\ 0 <= v < 10 ^ Z.of_nat hi.
Proof.
  intros Hlo [Hall Hlen]. destruct s as [|a s]; [simpl in Hlen; lia|].
  pose proof Hall as Hall'. simpl in Hall. apply andb_prop in Hall as [Ha _].
  unfold parseInt. cbn [skip_spaces]. rewrite (digit_not_space _ Ha), Ha.
  eexists. split; [reflexivity|].
  pose proof (digits_value_bounds (String a s) 0 Hall' ltac:(lia)) as Hb.
  assert (10 ^ Z.of_nat (length (String a s)) <= 10 ^ Z.of_nat hi)
    by (apply Z.pow_le_mono_r; lia).
  lia.
Qed.

Lemma appointyPattern_captures (s : string) (c' : captures) :
  Matches ServerPage.appointyPattern s [] c' ->
  exists dayName month day yy hour minute ampm,
    c' = [(7, ampm); (6, minute); (5, hour); (4, yy); (3, day); (2, month);
          (1, dayName)]%nat /\
    length month = 3%nat /\
    digits 1 2 day /\ digits 2 2 yy /\ digits 1 2 hour /\ digits 2 2 minute /\
    (toLowerCase ampm = "am" \/ toLowerCase ampm = "pm").
Proof.
  unfold ServerPage.appointyPattern. cbn [seq]. intro H.
  unseq_by Matches_Seq_inv H.
  leaves_by Matches_Grp_inv Matches_times Matches_meridiem
    capture_free_keeps. subst.
  do 7 eexists. split; [reflexivity|]. unfold digits.
  split; [lia|]. auto 10.
Qed.

Lemma datePattern_captures (s : string) (c' : captures) :
  Matches ServerPage.datePattern s [] c' ->
  exists month day year,
    c' = [(3, year); (2, day); (1, month)]%nat /\
    length month = 3%nat /\ digits 1 2 day /\ digits 2 4 year.
Proof.
  unfold ServerPage.datePattern. cbn [seq]. intro H.
  unseq_by Matches_Seq_inv H.
  leaves_by Matches_Grp_inv Matches_times Matches_meridiem
    capture_free_keeps. subst.
  do 3 eexists. split; [reflexivity|]. unfold digits.
  split; [lia|]. auto.
Qed.

Lemma timePattern_captures (s : string) (c' : captures) :
  Matches ServerPage.timePattern s [] c' ->
  exists hour minute ampm,
    c' = [(3, ampm); (2, minute); (1, hour)]%nat /\
    digits 1 2 hour /\ digits 2 2 minute /\
    (toLowerCase ampm = "am" \/ toLowerCase ampm = "pm").
Proof.
  unfold ServerPage.timePattern. cbn [seq]. intro H.
  unseq_by Matches_Seq_inv H.
  leaves_by Matches_Grp_inv Matches_times Matches_meridiem
    capture_free_keeps. subst.
  do 3 eexists. split; [reflexivity|]. unfold digits. auto.
Qed.

Lemma reads_digits (lo hi : nat) (s : string) (top : Z) :
  (1 <= lo)%nat -> digits lo hi s -> 10 ^ Z.of_nat hi - 1 <= top -> reads s 0 top.
Proof.
  intros Hlo Hd Htop. destruct (parseInt_digits lo hi s Hlo Hd) as (v & E & Hv).
  exists v. split; [exact E|lia].
Qed.

(** ['20' + yy] for two digits [yy] reads as a year of this century. *)
Lemma reads_century (yy : string) : digits 2 2 yy -> reads ("20" ++ yy) 2000 2099.
Proof.
  intros [Hall Hlen]. unfold reads, parseInt. simpl.
  eexists. split; [reflexivity|].
  pose proof (digits_value_bounds yy 20 Hall ltac:(lia)) as Hb.
  replace (Z.of_nat (length yy)) with 2 in Hb by lia.
  change (10 ^ 2) with 100 in Hb. lia.
Qed.

Lemma reads_weaken (s : string) (lo hi lo' hi' : Z) :
  reads s lo hi -> lo' <= lo -> hi <= hi' -> reads s lo' hi'.
Proof. intros (v & E & Hv) Hlo Hhi. exists v. split; [exact E|lia]. Qed.

(** ** The entries that src/server.js extracts from the page text *)

Lemma ofMatch_ok (bodyText : string) (m : MatchResult) :
  In m (matchAll ServerPage.appointyPattern bodyText) ->
  entry_ok (ServerPage.fields (ServerPage.ofMatch m)).
Proof.
  intro H. apply matchAll_found in H as (pre & rest & _ & _ & _ & Hm).
  apply appointyPattern_captures in Hm
    as (dayName & month & day & yy & hour & minute & ampm & Hc & Hmo & Hd & Hy & Hh & Hmi & Hmer).
  unfold ServerPage.ofMatch, group. rewrite Hc. cbn [capture Nat.eqb ServerPage.text_of ServerPage.fields].
  unfold entry_ok. cbn [Server.raw_title Server.month Server.day Server.year Server.hour
                        Server.minute Server.ampm].
  split; [reflexivity|]. split; [now exists month|].
  split; [apply (reads_digits 1 2); [lia|assumption|simpl; lia]|].
  split; [apply (reads_weaken _ 2000 2099); [now apply reads_century|lia|lia]|].
  split; [apply (reads_digits 1 2); [lia|assumption|simpl; lia]|].
  split; [apply (reads_digits 2 2); [lia|assumption|simpl; lia]|].
  now exists ampm.
Qed.

Lemma nearDate_ok (bodyText : string) (dm : MatchResult) :
  In dm (matchAll ServerPage.datePattern bodyText) ->
  exists entries,
    ServerPage.nearDate bodyText dm = Ok entries /\
    forall e, In e entries -> entry_ok (ServerPage.fields e).
Proof.
  intro H. apply matchAll_found in H as (pre & rest & _ & _ & _ & Hm).
  apply datePattern_captures in Hm as (month & day & year & Hc & Hmo & Hd & Hy).
  unfold ServerPage.nearDate.
  destruct (exec_at ServerPage.timePattern _ 0) as [tm|] eqn:Etm.
  2:{ exists []. split; [reflexivity|intros e []]. }
  apply exec_at_found in Etm as [(pre' & rest' & _ & _ & _ & Htm) _].
  apply timePattern_captures in Htm as (hour & minute & ampm & Hct & Hh & Hmi & Hmer).
  unfold group. rewrite Hc, Hct. cbn [capture Nat.eqb ServerPage.text_of].
  eexists. split; [reflexivity|].
  intros e [<-|[]]. unfold entry_ok.
  cbn [ServerPage.fields Server.raw_title Server.month Server.day Server.year Server.hour
       Server.minute Server.ampm].
  split; [reflexivity|]. split; [now exists month|].
  split; [apply (reads_digits 1 2); [lia|assumption|simpl; lia]|].
  split.
  { destruct (Nat.eqb_spec (length year) 2) as [E|E].
    - apply (reads_weaken _ 2000 2099); [|lia|lia].
      apply reads_century. destruct Hy as [Hall _]. split; [exact Hall|lia].
    - apply (reads_digits 2 4); [lia|assumption|simpl; lia]. }
  split; [apply (reads_digits 1 2); [lia|assumption|simpl; lia]|].
  split; [apply (reads_digits 2 2); [lia|assumption|simpl; lia]|].
  now exists ampm.
Qed.

Lemma map_result_all {A B : Type} (f : A -> Result (list B)) (P : B -> Prop) (l : list A) :
  (forall x, In x l -> exists ys, f x = Ok ys /\ forall y, In y ys -> P y) ->
  exists yss, Scraper.map_result f l = Ok yss /\ forall y, In y (List.concat yss) -> P y.
Proof.
  induction l as [|x l IH]; intro H; simpl.
  - exists []. split; [reflexivity|intros y []].
  - destruct (H x (or_introl eq_refl)) as (ys & -> & Hys).
    destruct IH as (yss & -> & Hyss); [intros x' Hx'; apply H; now right|].
    exists (ys :: yss). split; [reflexivity|].
    simpl. intros y Hy. apply in_app_or in Hy as [Hy|Hy]; auto.
Qed.

Lemma server_extract_ok (bodyText : string) :
  exists entries,
    ServerPage.extractAppointments bodyText = Ok entries /\
    forall e, In e entries -> entry_ok (ServerPage.fields e).
Proof.
  unfold ServerPage.extractAppointments.
  destruct (map ServerPage.ofMatch (matchAll ServerPage.appointyPattern bodyText))
    as [|e0 l] eqn:E.
  - destruct (map_result_all (ServerPage.nearDate bodyText)
                (fun e => entry_ok (ServerPage.fields e))
                (matchAll ServerPage.datePattern bodyText)) as (yss & -> & Hyss).
    + intros dm Hdm. now apply nearDate_ok.
    + now exists (List.concat yss).
  - exists (e0 :: l). split; [reflexivity|]. rewrite <- E.
    intros e He. apply in_map_iff in He as (m & <- & Hm).
    now apply (ofMatch_ok bodyText).
Qed.

(** ** From the page text to the calendar of the Express server *)

Lemma parseAppointmentData_entry (tza : Z) (raw : Server.RawAppointment) :
  entry_ok raw ->
  if known_month raw
  then exists s,
         Server.parseAppointmentData tza raw
         = Some (mkAppointment "Mathnasium Session" (Some s) (Some (s + 60 * 60 * 1000))
                               None None None)
  else Server.parseAppointmentData tza raw = None.
Proof.
  intros (Ht & (mo & Hmo & _) & (dd & Hd & _) & (y & Hy & _) & (h & Hh & _)
          & (mi & Hmi & _) & _).
  unfold known_month, Server.parseAppointmentData. rewrite Hmo.
  destruct (Server.lookup (toLowerCase mo) Server.monthMap) as [monthIndex|];
    [|reflexivity].
  cbn [Scraper.is_some]. rewrite Hy, Hd, Hh, Hmi, Ht.
  eexists. reflexivity.
Qed.

Lemma addRaw_entry (tza : Z) (c : ICal.Calendar) (raw : Server.RawAppointment) :
  entry_ok raw ->
  exists added,
    ICal.events (Server.addRaw tza c raw) = (ICal.events c ++ added)%list /\
    List.length added = (if known_month raw then 1 else 0)%nat /\
    forall e, In e added -> e = express_event (ICal.ev_start e).
Proof.
  intro Hok. pose proof (parseAppointmentData_entry tza raw Hok) as Hp.
  unfold Server.addRaw. destruct (known_month raw).
  - destruct Hp as (s & ->). eexists. split; [reflexivity|]. split; [reflexivity|].
    intros e [<-|[]]. reflexivity.
  - rewrite Hp. exists []. split; [now rewrite app_nil_r|]. split; [reflexivity|].
    intros e [].
Qed.

Lemma fold_addRaw_entries (tza : Z) (raws : list Server.RawAppointment) :
  (forall raw, In raw raws -> entry_ok raw) ->
  forall c, exists added,
    ICal.events (fold_left (Server.addRaw tza) raws c) = (ICal.events c ++ added)%list /\
    List.length added = List.length (filter known_month raws) /\
    forall e, In e added -> e = express_event (ICal.ev_start e).
Proof.
  induction raws as [|raw raws IH]; intros Hok c; simpl.
  - exists []. split; [now rewrite app_nil_r|]. split; [reflexivity|intros e []].
  - destruct (addRaw_entry tza c raw (Hok raw (or_introl eq_refl)))
      as (a1 & E1 & L1 & P1).
    destruct (IH (fun r Hr => Hok r (or_intror Hr)) (Server.addRaw tza c raw))
      as (a2 & E2 & L2 & P2).
    exists (a1 ++ a2)%list. rewrite E2, E1, <- app_assoc. split; [reflexivity|].
    split.
    + rewrite length_app, L1, L2. now destruct (known_month raw).
    + intros e He. apply in_app_or in He as [He|He]; auto.
Qed.

(** The entries that src/server.js reads off the page text always have
    the shape its patterns promise: extraction never throws, every entry
    is titled [Mathnasium Session], has a month of three characters, a
    meridiem that is am or pm up to letter case, and day, year, hour and
    minute texts on which [parseInt] is a number, never NaN (the year
    from 0 to 9999, the others below 100). *)
Theorem server_extraction_shape :
  forall bodyText : string,
    exists entries,
      ServerPage.extractAppointments bodyText = Ok entries /\
      forall e, In e entries -> entry_ok (ServerPage.fields e).
Proof. exact server_extract_ok. Qed.


(** ** The scroll loop *)

Lemma rounds_attempts (page : nat -> string) (n : nat) :
  ServerPage.scrollAttempts (rounds page n) = n.
Proof. induction n as [|n IH]; simpl; [reflexivity|now rewrite IH]. Qed.

Lemma rounds_count (page : nat -> string) (n : nat) :
  ServerPage.previousCount (rounds page n) = seen page n.
Proof. destruct n; reflexivity. Qed.

Lemma unchanged_step (page : nat -> string) (k m : nat) :
  unchanged page (S k) (S m) <->
  seen page (S m) = seen page m /\ unchanged page k m.
Proof.
  unfold unchanged. split.
  - intros [Hk H]. split.
    + specialize (H O ltac:(lia)).
      replace (S m - 0)%nat with (S m) in H by lia.
      replace (S m - 1)%nat with m in H by lia. exact H.
    + split; [lia|]. intros j Hj. specialize (H (S j) ltac:(lia)).
      replace (S m - S j)%nat with (m - j)%nat in H by lia.
      replace (S m - S (S j))%nat with (m - S j)%nat in H by lia. exact H.
  - intros [H0 [Hk H]]. split; [lia|]. intros [|j] Hj.
    + replace (S m - 0)%nat with (S m) by lia.
      replace (S m - 1)%nat with m by lia. exact H0.
    + specialize (H j ltac:(lia)).
      replace (S m - S j)%nat with (m - j)%nat by lia.
      replace (S m - S (S j))%nat with (m - S j)%nat by lia. exact H.
Qed.

(** [noChangeCount] counts the rounds, up to the last one, that left
    the count as it was. *)
Lemma rounds_noChange (page : nat -> string) (m k : nat) :
  (k <= ServerPage.noChangeCount (rounds page m))%nat <-> unchanged page k m.
Proof.
  revert k. induction m as [|m IH]; intro k.
  - simpl. unfold unchanged. split.
    + intro H. split; [exact H|]. intros j Hj. lia.
    + intros [H _]. exact H.
  - destruct k as [|k].
    + split; [|lia]. intros _. split; [lia|]. intros j Hj. lia.
    + rewrite unchanged_step, <- IH.
      cbn [rounds ServerPage.scrollOnce ServerPage.noChangeCount].
      rewrite rounds_count. change (ServerPage.countDates (page m)) with (seen page (S m)).
      destruct (Nat.eqb_spec (seen page (S m)) (seen page m)) as [E|E].
      * split; [intro H; split; [exact E|lia]|intros [_ H]; lia].
      * split; [lia|intros [H _]; contradiction].
Qed.

Lemma scrollLoop_rounds (page : nat -> string) (fuel n : nat) :
  (n + fuel = ServerPage.maxScrollAttempts)%nat ->
  (forall m, (m < n)%nat -> ~ unchanged page 5 m) ->
  exists n',
    ServerPage.scrollLoop fuel page (rounds page n) = rounds page n' /\
    (n' <= ServerPage.maxScrollAttempts)%nat /\
    ((n' < ServerPage.maxScrollAttempts)%nat -> unchanged page 5 n') /\
    (forall m, (m < n')%nat -> ~ unchanged page 5 m).
Proof.
  revert n. induction fuel as [|fuel IH]; intros n Hn Hbefore.
  - exists n. simpl. split; [reflexivity|]. split; [lia|]. split; [lia|exact Hbefore].
  - cbn [ServerPage.scrollLoop]. rewrite rounds_attempts.
    destruct (Nat.ltb_spec n ServerPage.maxScrollAttempts) as [Hlt|Hge]; [|lia].
    destruct (Nat.ltb_spec (ServerPage.noChangeCount (rounds page n)) 5) as [Hk|Hk];
      cbn [andb].
    + apply (IH (S n)); [lia|].
      intros m Hm Hu. destruct (Nat.eq_dec m n) as [->|Hne].
      * apply rounds_noChange in Hu. lia.
      * apply (Hbefore m); [lia|exact Hu].
    + exists n. split; [reflexivity|]. split; [lia|]. split; [|exact Hbefore].
      intros _. now apply rounds_noChange.
Qed.

(** The scroll loop of [scrapeAppointments] ends by itself within its
    50 rounds: it stops after [n] rounds, where [n] is the first round
    count at which the five rounds before left the number of dates as it
    was, or 50 when there is none below; so it runs at least five rounds.
    The count it reports is the one of the last round. *)
Theorem scroll_loop_ends :
  forall page : nat -> string,
    let st := ServerPage.scrollToEnd page in
    let n := ServerPage.scrollAttempts st in
    st = rounds page n /\
    (5 <= n <= 50)%nat /\
    ((n < 50)%nat -> unchanged page 5 n) /\
    (forall m, (m < n)%nat -> ~ unchanged page 5 m) /\
    ServerPage.previousCount st = seen page n /\
    ((ServerPage.scrollAttempts st <? ServerPage.maxScrollAttempts)%nat
     && (ServerPage.noChangeCount st <? 5)%nat = false).
Proof.
  intros page st n.
  destruct (scrollLoop_rounds page ServerPage.maxScrollAttempts 0 eq_refl)
    as (n' & E & Hle & Hstop & Hmin); [intros m Hm; lia|].
  assert (Hn : n = n').
  { unfold n, st, ServerPage.scrollToEnd. change (ServerPage.mkScroll 0 0 0) with (rounds page 0).
    rewrite E. apply rounds_attempts. }
  assert (Hst : st = rounds page n).
  { rewrite Hn. exact E. }
  change ServerPage.maxScrollAttempts with 50%nat in *.
  split; [exact Hst|]. rewrite Hn. split.
  { split; [|exact Hle].
    destruct (Nat.lt_ge_cases n' 50) as [Hlt|Hge]; [|lia].
    destruct (Hstop Hlt) as [H5 _]. exact H5. }
  split; [exact Hstop|]. split; [exact Hmin|]. split.
  { rewrite Hst, Hn. apply rounds_count. }
  fold n. rewrite Hn.
  destruct (Nat.ltb_spec n' 50) as [Hlt|Hge]; [|reflexivity].
  cbn [andb]. apply Nat.ltb_ge. rewrite Hst, Hn. apply rounds_noChange. now apply Hstop.
Qed.

(** ** The matcher is complete on productive patterns *)

Lemma append_empty (s t : string) : s ++ t = "" -> s = "" /\ t = "".
Proof. destruct s; simpl; [auto|discriminate]. Qed.

Lemma not_nullable (r : regex) (s : string) (c c' : captures) :
  Matches r s c c' -> nullable r = false -> s <> "".
Proof.
  induction 1 as [c|p a c Hp|r1 r2 s1 s2 c c1 c2 H1 IH1 H2 IH2|r1 r2 s c c' H IH
                  |r1 r2 s c c' H IH|n r s c c' H IH|g lo hi r c Hlo
                  |g lo hi r s1 s2 c c1 c2 Hhi H1 IH1 H2 IH2]; simpl; intro Hn;
    try discriminate.
  - intro E. apply append_empty in E as [-> ->].
    apply andb_false_iff in Hn as [Hn|Hn]; [now apply IH1|now apply IH2].
  - apply orb_false_iff in Hn as [Hn _]. now apply IH.
  - apply orb_false_iff in Hn as [_ Hn]. now apply IH.
  - now apply IH.
  - apply orb_false_iff in Hn as [Hn _]. apply orb_false_iff in Hn as [Hl Hh].
    destruct Hlo as [->|Hz]; [discriminate|congruence].
  - apply orb_false_iff in Hn as [_ Hn]. intro E. apply append_empty in E as [-> _].
    now apply IH1.
Qed.

Lemma rep_loop_complete (r : regex) (IHr : complete r) (Hnn : nullable r = false) :
  forall fuel g lo hi s c c2,
    Matches (Rep g lo hi r) s c c2 ->
    forall y (k : cont),
      k y c2 <> None -> (lo + length (s ++ y) <= fuel)%nat ->
      rep_loop (fun y0 cy k' => match_re r y0 cy k') fuel g lo hi (s ++ y) c k <> None.
Proof.
  induction fuel as [|fuel IH]; intros g lo hi s c c2 Hm y k Hk Hfuel;
    inversion Hm as [| | | | | |g0 lo0 hi0 r0 c0 Hlo
                     |g0 lo0 hi0 r0 s1 s2 c0 c1 c3 Hhi H1 H2]; subst.
  - simpl. destruct (hi_zero hi); [exact Hk|].
    destruct Hlo as [->|Hz]; [exact Hk|discriminate].
  - exfalso. apply (not_nullable _ _ _ _ H1 Hnn).
    rewrite !length_append in Hfuel. destruct s1; [reflexivity|simpl in Hfuel; lia].
  - cbn [rep_loop append]. destruct (hi_zero hi) eqn:Hhi; [exact Hk|].
    destruct Hlo as [->|Hz]; [|discriminate]. cbn [Nat.eqb negb].
    destruct g.
    + destruct (match_re r y c2 _); [discriminate|exact Hk].
    + destruct (k y c2); [discriminate|now contradiction Hk].
  - cbn [rep_loop]. rewrite Hhi.
    set (x := (s1 ++ s2) ++ y).
    set (dd := fun (y0 : string) (cy : captures) =>
                 if Nat.eqb lo 0 && Nat.eqb (length y0) (length x) then None
                 else rep_loop (fun y1 cy0 k' => match_re r y1 cy0 k') fuel g
                        (Nat.pred lo) (option_map Nat.pred hi) y0 cy k).
    assert (Hs1 : (1 <= length s1)%nat).
    { pose proof (not_nullable _ _ _ _ H1 Hnn). destruct s1; [congruence|simpl; lia]. }
    assert (Hd : match_re r x c dd <> None).
    { unfold x. rewrite append_assoc. apply (IHr _ _ _ H1). unfold dd.
      assert (E : Nat.eqb (length (s2 ++ y)) (length x) = false).
      { apply Nat.eqb_neq. unfold x. rewrite !length_append. lia. }
      rewrite E, andb_false_r.
      apply (IH _ _ _ _ _ _ H2 _ _ Hk).
      unfold x in Hfuel. rewrite !length_append in *. lia. }
    destruct (negb (Nat.eqb lo 0)); [exact Hd|].
    destruct g.
    + destruct (match_re r x c dd); [discriminate|now contradiction Hd].
    + destruct (k x c); [discriminate|exact Hd].
Qed.

Lemma Matches_Eps_inv (s : string) (c c' : captures) :
  Matches Eps s c c' -> s = "" /\ c' = c.
Proof. intro H. inversion H; subst. auto. Qed.

Lemma match_re_complete (r : regex) : productive r = true -> complete r.
Proof.
  induction r as [|p|r1 IH1 r2 IH2|r1 IH1 r2 IH2|g lo hi r IH|n r IH];
    simpl; intros Hp s c c1 Hm y k Hk.
  - apply Matches_Eps_inv in Hm as [-> ->]. exact Hk.
  - apply Matches_Chr_inv in Hm as (a & -> & Ha & ->). simpl. rewrite Ha. exact Hk.
  - apply andb_prop in Hp as [Hp1 Hp2].
    apply Matches_Seq_inv in Hm as (s1 & s2 & c' & -> & H1 & H2).
    rewrite append_assoc. cbn [match_re].
    apply (IH1 Hp1 _ _ _ H1). now apply (IH2 Hp2 _ _ _ H2).
  - apply andb_prop in Hp as [Hp1 Hp2]. cbn [match_re].
    apply Matches_Alt_inv in Hm as [Hm|Hm].
    + pose proof (IH1 Hp1 _ _ _ Hm y k Hk) as H.
      destruct (match_re r1 (s ++ y) c k); [discriminate|now contradiction H].
    + destruct (match_re r1 (s ++ y) c k); [discriminate|].
      now apply (IH2 Hp2 _ _ _ Hm).
  - apply andb_prop in Hp as [Hn Hp]. apply negb_true_iff in Hn.
    cbn [match_re]. apply (rep_loop_complete r (IH Hp) Hn _ _ _ _ _ _ _ Hm _ _ Hk).
    lia.
  - apply Matches_Grp_inv in Hm as (c' & -> & Hm). cbn [match_re].
    apply (IH Hp _ _ _ Hm). now rewrite consumed_prefix.
Qed.

(** [search] finds a match wherever one exists. *)
Lemma search_complete (r : regex) (pre s rest : string) (c' : captures) (idx : nat) :
  productive r = true -> Matches r s [] c' ->
  search r (pre ++ s ++ rest) idx <> None.
Proof.
  intros Hp Hm. revert idx. induction pre as [|a pre IH]; intro idx.
  - cbn [append]. rewrite search_unfold.
    pose proof (match_re_complete r Hp _ _ _ Hm rest (fun y cy => Some (y, cy))
                  ltac:(discriminate)) as H.
    destruct (match_re r (s ++ rest) [] _) as [[y cy]|]; [discriminate|now contradiction H].
  - rewrite search_unfold. cbn [append].
    destruct (match_re r _ [] _) as [[y cy]|]; [discriminate|apply IH].
Qed.

Lemma match_first_complete (r : regex) (pre s rest : string) (c' : captures) :
  productive r = true -> Matches r s [] c' ->
  match_first r (pre ++ s ++ rest) <> None.
Proof.
  intros Hp Hm. unfold match_first, exec_at. cbn [Nat.ltb Nat.leb drop].
  replace (drop 0 (pre ++ s ++ rest)) with (pre ++ s ++ rest)
    by (destruct (pre ++ s ++ rest); reflexivity).
  now apply search_complete with (c' := c').
Qed.

(** Capture groups do not change what a pattern matches. *)
Lemma strip_matches (r : regex) (s : string) (c c' : captures) :
  Matches r s c c' -> forall c0, Matches (strip r) s c0 c0.
Proof.
  induction 1 as [c|p a c Hp|r1 r2 s1 s2 c c1 c2 H1 IH1 H2 IH2|r1 r2 s c c' H IH
                  |r1 r2 s c c' H IH|n r s c c' H IH|g lo hi r c Hlo
                  |g lo hi r s1 s2 c c1 c2 Hhi H1 IH1 H2 IH2]; intro c0; simpl.
  - constructor.
  - now constructor.
  - now apply M_Seq with (c1 := c0).
  - now apply M_AltL.
  - now apply M_AltR.
  - apply IH.
  - now constructor.
  - apply M_RepMore with (c1 := c0); [exact Hhi|apply IH1|apply IH2].
Qed.

Lemma rep_unstrip (r : regex) (s : string) (c c' : captures) (r0 : regex) :
  (forall s c c', Matches (strip r) s c c' -> forall c0, exists c1, Matches r s c0 c1) ->
  Matches r0 s c c' ->
  forall g lo hi, r0 = Rep g lo hi (strip r) ->
  forall c0, exists c1, Matches (Rep g lo hi r) s c0 c1.
Proof.
  intros IHr H.
  induction H as [c|p a c Hp|r1 r2 s1 s2 c c1 c2 H1 IH1 H2 IH2|r1 r2 s c c' H IH
                  |r1 r2 s c c' H IH|n r' s c c' H IH|g0 lo0 hi0 r' c Hlo
                  |g0 lo0 hi0 r' s1 s2 c c1 c2 Hhi H1 IH1 H2 IH2];
    intros g lo hi E c0; try discriminate; injection E as -> -> -> ->.
  - exists c0. now constructor.
  - destruct (IHr _ _ _ H1 c0) as [c1' Hc1].
    destruct (IH2 _ _ _ eq_refl c1') as [c2' Hc2].
    exists c2'. now apply M_RepMore with (c1 := c1').
Qed.

Lemma matches_unstrip (r : regex) :
  forall s c c', Matches (strip r) s c c' -> forall c0, exists c1, Matches r s c0 c1.
Proof.
  induction r as [|p|r1 IH1 r2 IH2|r1 IH1 r2 IH2|g lo hi r IH|n r IH];
    simpl; intros s c c' H c0.
  - apply Matches_Eps_inv in H as [-> _]. exists c0. constructor.
  - apply Matches_Chr_inv in H as (a & -> & Ha & _). exists c0. now constructor.
  - apply Matches_Seq_inv in H as (s1 & s2 & c1 & -> & H1 & H2).
    destruct (IH1 _ _ _ H1 c0) as [c1' Hc1].
    destruct (IH2 _ _ _ H2 c1') as [c2' Hc2].
    exists c2'. now apply M_Seq with (c1 := c1').
  - apply Matches_Alt_inv in H as [H|H].
    + destruct (IH1 _ _ _ H c0) as [c1' Hc1]. exists c1'. now apply M_AltL.
    + destruct (IH2 _ _ _ H c0) as [c1' Hc1]. exists c1'. now apply M_AltR.
  - now apply (rep_unstrip r s c c' _ IH H).
  - destruct (IH _ _ _ H c0) as [c1' Hc1]. eexists. constructor. exact Hc1.
Qed.

(** Two patterns that differ in their groups only match the same
    texts. *)
Lemma same_language (r r' : regex) (s : string) (c c' : captures) :
  strip r = strip r' -> Matches r s c c' -> forall c0, exists c1, Matches r' s c0 c1.
Proof.
  intros E H c0. apply (matches_unstrip r' s c0 c0). rewrite <- E.
  now apply (strip_matches r s c c').
Qed.

(** ** src/scraper.js: what the page gives is always parsed *)

Lemma Matches_opt_inv (r : regex) (s : string) (c c' : captures) :
  Matches (opt r) s c c' -> (s = "" /\ c' = c) \/ Matches r s c c'.
Proof.
  unfold opt. intro H.
  inversion H as [| | | | | |g lo hi r0 c0 Hlo
                  |g lo hi r0 s1 s2 c0 c1 c2 Hhi H1 H2]; subst.
  - left. auto.
  - right. simpl in H2.
    inversion H2 as [| | | | | |g' lo' hi' r0' c0' Hlo'
                     |g' lo' hi' r0' s1' s2' c0' c1' c2' Hhi' H1' H2']; subst.
    + now rewrite append_nil_r.
    + discriminate.
Qed.

(** The captures of [(\d{1,2}:\d{2}\s*(AM|PM)?)]: the reading, under
    group [g], and the meridiem, if there is one. *)
Lemma clock_text_captures (g : nat) (s : string) (c c' : captures) :
  Matches (Scraper.clock_text g) s c c' ->
  clock_reading s /\
  (c' = (g, s) :: c \/ exists mer, c' = (g, s) :: (S g, mer) :: c).
Proof.
  intro H. split.
  - exists c, c. apply (strip_matches _ _ _ _ H).
  - unfold Scraper.clock_text in H. apply Matches_Grp_inv in H as (c1 & -> & H).
    cbn [seq] in H. unseq_by Matches_Seq_inv H.
    match goal with
    | Ho : Matches (opt _) _ _ _ |- _ => apply Matches_opt_inv in Ho as [[_ Ec]|Ho]
    end.
    +
    leaves_by Matches_Grp_inv Matches_times Matches_meridiem
      capture_free_keeps. subst. now left.
    + match goal with
      | Ho : Matches (Grp _ _) _ _ _ |- _ => apply Matches_Grp_inv in Ho as (c5 & Ec & Ho)
      end.
      leaves_by Matches_Grp_inv Matches_times Matches_meridiem
        capture_free_keeps. subst. right. eauto.
Qed.

Lemma cardRangeRe_captures (s : string) (c' : captures) :
  Matches Scraper.cardRangeRe s [] c' ->
  exists t1 t4,
    capture 1 c' = Some t1 /\ capture 4 c' = Some t4 /\
    clock_reading t1 /\ clock_reading t4.
Proof.
  unfold Scraper.cardRangeRe. cbn [seq]. intro H. unseq_by Matches_Seq_inv H.
  repeat match goal with
         | Hc : Matches (Scraper.clock_text _) _ _ _ |- _ =>
             apply clock_text_captures in Hc as [? ?]
         | Hg : Matches (Grp 3 _) _ _ _ |- _ =>
             apply Matches_Grp_inv in Hg as (? & ? & Hg);
             apply capture_free_keeps in Hg; [|reflexivity]
         end.
  leaves_by Matches_Grp_inv Matches_times Matches_meridiem capture_free_keeps. subst.
  do 2 eexists.
  repeat match goal with
         | Hor : _ \/ _ |- _ => destruct Hor as [->|[? ->]]
         end; (split; [reflexivity|]; split; [reflexivity|]; split; assumption).
Qed.

Lemma clockRe_captures (s : string) (c' : captures) :
  Matches Scraper.clockRe s [] c' -> capture 1 c' = Some s /\ clock_reading s.
Proof.
  intro H. apply clock_text_captures in H as [Hr [->|[mer ->]]]; auto.
Qed.

Lemma clock_reading_nonempty (t : string) : clock_reading t -> t <> "".
Proof. intros (c & c' & H). now apply (not_nullable _ _ _ _ H). Qed.

Lemma truthy_clock (t : string) : clock_reading t -> truthy (Some t) = true.
Proof. intro H. apply truthy_Some. now apply clock_reading_nonempty. Qed.

Lemma global_clock (text : string) (tm : list string) (n : nat) :
  match_global Scraper.clockRe text = Some tm -> clock_or_absent (nth_error tm n).
Proof.
  unfold match_global.
  assert (Hall : forall t, In t (map matched (matchAll Scraper.clockRe text)) ->
                           clock_reading t).
  { intros t Ht. apply in_map_iff in Ht as (m & <- & Hm).
    apply matchAll_found in Hm as (pre & rest & _ & _ & _ & Hm).
    now apply clockRe_captures in Hm. }
  destruct (matchAll Scraper.clockRe text) as [|m ms]; [discriminate|].
  intro H. injection H as <-.
  destruct (nth_error _ n) as [t|] eqn:En; [|exact I].
  apply Hall. now apply nth_error_In in En.
Qed.

(** Every time text that the page function hands over is a clock
    reading. *)
Lemma scanCard_clock (card : Scraper.Element) (raw : Scraper.RawAppointment) :
  In raw (Scraper.scanCard card) ->
  clock_or_absent (Scraper.startTime raw) /\ clock_or_absent (Scraper.endTime raw).
Proof.
  unfold Scraper.scanCard.
  destruct (Scraper.is_some _ || Scraper.is_some _); [|intros []].
  intros [<-|[]]. cbn [Scraper.startTime Scraper.endTime].
  assert (Hsingle : clock_or_absent
                      (Scraper.group_of (match_first Scraper.clockRe (Scraper.innerText card)) 1)).
  { destruct (match_first Scraper.clockRe _) as [m|] eqn:E; [|exact I].
    apply match_first_found in E as (pre & rest & _ & _ & _ & Hm).
    apply clockRe_captures in Hm as [Hc Hr]. simpl. unfold group. now rewrite Hc. }
  destruct (match_first Scraper.cardRangeRe _) as [m|] eqn:E.
  - apply match_first_found in E as (pre & rest & _ & _ & _ & Hm).
    apply cardRangeRe_captures in Hm as (t1 & t4 & H1 & H4 & Hr1 & Hr4).
    cbn [Scraper.group_of Nat.eqb]. unfold group. rewrite H1, H4.
    unfold Scraper.or_else. rewrite (truthy_clock _ Hr1). split; assumption.
  - cbn [Scraper.group_of]. unfold Scraper.or_else. cbn [truthy]. split; [exact Hsingle|exact I].
Qed.

Lemma strategy1_clock (document : Scraper.Document) (selectors : list string)
    (raw : Scraper.RawAppointment) :
  In raw (Scraper.strategy1 document selectors) ->
  clock_or_absent (Scraper.startTime raw) /\ clock_or_absent (Scraper.endTime raw).
Proof.
  induction selectors as [|sel rest IH]; simpl; [intros []|].
  destruct (flat_map Scraper.scanCard (document sel)) eqn:E; [exact IH|].
  rewrite <- E. intro H. apply in_flat_map in H as (card & _ & H).
  now apply scanCard_clock in H.
Qed.

Lemma scanRow_clock (row : Scraper.Element) (raw : Scraper.RawAppointment) :
  In raw (Scraper.scanRow row) ->
  clock_or_absent (Scraper.startTime raw) /\ clock_or_absent (Scraper.endTime raw).
Proof.
  unfold Scraper.scanRow.
  destruct (match_first Scraper.rowDateRe _) as [dm|]; [|intros []].
  destruct (match_global Scraper.clockRe _) as [tm|] eqn:E; [|intros []].
  intros [<-|[]]. cbn [Scraper.startTime Scraper.endTime].
  split; now apply (global_clock (Scraper.innerText row)).
Qed.

Lemma scanItem_clock (item : Scraper.Element) (raw : Scraper.RawAppointment) :
  In raw (Scraper.scanItem item) ->
  clock_or_absent (Scraper.startTime raw) /\ clock_or_absent (Scraper.endTime raw).
Proof.
  unfold Scraper.scanItem.
  destruct (match_first Scraper.rowDateRe _) as [dm|]; [|intros []].
  intros [<-|[]]. cbn [Scraper.startTime Scraper.endTime].
  destruct (match_global Scraper.clockRe _) as [tm|] eqn:E; [|split; exact I].
  split; now apply (global_clock (Scraper.innerText item)).
Qed.

Lemma evaluate_clock (document : Scraper.Document) (raw : Scraper.RawAppointment) :
  In raw (Scraper.evaluate document) ->
  clock_or_absent (Scraper.startTime raw) /\ clock_or_absent (Scraper.endTime raw).
Proof.
  unfold Scraper.evaluate.
  destruct (Scraper.strategy1 document Scraper.cardSelectors) as [|r0 l0] eqn:E1.
  - destruct (flat_map Scraper.scanRow _) as [|r1 l1] eqn:E2.
    + intro H. apply in_flat_map in H as (item & _ & H). now apply scanItem_clock in H.
    + rewrite <- E2. intro H. apply in_flat_map in H as (row & _ & H).
      now apply scanRow_clock in H.
  - rewrite <- E1. apply strategy1_clock.
Qed.

Lemma timeRe_captures (s : string) (c' : captures) :
  Matches Scraper.timeRe s [] c' ->
  exists hours minutes,
    capture 1 c' = Some hours /\ capture 2 c' = Some minutes /\
    digits 1 2 hours /\ digits 2 2 minutes.
Proof.
  unfold Scraper.timeRe. cbn [seq]. intro H. unseq_by Matches_Seq_inv H.
  match goal with
  | Ho : Matches (opt _) _ _ _ |- _ => apply Matches_opt_inv in Ho as [[_ Ec]|Ho]
  end.
  -
  leaves_by Matches_Grp_inv Matches_times Matches_meridiem
    capture_free_keeps. subst. do 2 eexists. unfold digits. repeat split; eauto; lia.
  - match goal with
    | Ho : Matches (Grp 3 _) _ _ _ |- _ => apply Matches_Grp_inv in Ho as (c5 & Ec & Ho)
    end.
    leaves_by Matches_Grp_inv Matches_times Matches_meridiem
      capture_free_keeps. subst. do 2 eexists. unfold digits. repeat split; eauto; lia.
Qed.

(** [parseDateTime] never gives up on a clock reading. *)
Lemma parseDateTime_clock (tza date : Z) (t : string) :
  clock_reading t -> exists v, Scraper.parseDateTime tza (Some date) (Some t) = Some v.
Proof.
  intros Hr. pose proof (clock_reading_nonempty t Hr) as Hne.
  destruct Hr as (c & c' & Hm).
  destruct (matches_unstrip Scraper.timeRe t c c' Hm []) as [c1 Hc1].
  pose proof (match_first_complete Scraper.timeRe "" t "" c1 eq_refl Hc1) as Hfirst.
  cbn [append] in Hfirst. rewrite append_nil_r in Hfirst.
  unfold Scraper.parseDateTime. rewrite (eqb_empty_false _ Hne).
  destruct (match_first Scraper.timeRe t) as [tm|] eqn:E; [|now contradiction Hfirst].
  apply match_first_found in E as (pre & rest & _ & _ & _ & Htm).
  apply timeRe_captures in Htm as (hours & minutes & H1 & H2 & Hd1 & Hd2).
  unfold group. rewrite H1, H2.
  destruct (parseInt_digits 1 2 hours ltac:(lia) Hd1) as (h & -> & _).
  destruct (parseInt_digits 2 2 minutes ltac:(lia) Hd2) as (m & -> & _).
  eexists. reflexivity.
Qed.

Lemma parseAppointment_clock (Date_parse : string -> option Z) (tza : Z)
    (raw : Scraper.RawAppointment) :
  clock_or_absent (Scraper.startTime raw) -> clock_or_absent (Scraper.endTime raw) ->
  exists apt, Scraper.parseAppointment Date_parse tza raw = Ok apt /\ paired apt.
Proof.
  intros Hs He. unfold Scraper.parseAppointment.
  destruct (if truthy (Scraper.dateText raw) then _ else None) as [date|];
    cbn [Scraper.is_some andb].
  2:{ eexists. split; [reflexivity|]. left. split; reflexivity. }
  destruct (Scraper.startTime raw) as [t|]; cbn [truthy].
  2:{ eexists. split; [reflexivity|]. left. split; reflexivity. }
  destruct (negb (t =? "")%string).
  2:{ eexists. split; [reflexivity|]. left. split; reflexivity. }
  simpl in Hs. destruct (parseDateTime_clock tza date t Hs) as (v & Ev).
  destruct (Scraper.endTime raw) as [t2|]; cbn [truthy].
  - destruct (negb (t2 =? "")%string).
    + simpl in He. destruct (parseDateTime_clock tza date t2 He) as (v2 & Ev2).
      rewrite Ev, Ev2. eexists. split; [reflexivity|]. right. simpl. eauto.
    + rewrite Ev. eexists. split; [reflexivity|]. right. simpl. eauto.
  - rewrite Ev. eexists. split; [reflexivity|]. right. simpl. eauto.
Qed.

Lemma map_result_total {A B : Type} (f : A -> Result B) (P : B -> Prop) (l : list A) :
  (forall x, In x l -> exists y, f x = Ok y /\ P y) ->
  exists ys, Scraper.map_result f l = Ok ys /\ forall y, In y ys -> P y.
Proof.
  induction l as [|x l IH]; intro H; simpl.
  - exists []. split; [reflexivity|intros y []].
  - destruct (H x (or_introl eq_refl)) as (y & -> & Hy).
    destruct IH as (ys & -> & Hys); [intros x' Hx'; apply H; now right|].
    exists (y :: ys). split; [reflexivity|].
    intros y' [<-|Hy']; auto.
Qed.

(** On every page, [extractAppointments] of src/scraper.js returns: the
    read of [appointment.start.getTime()] never meets a [null] start,
    because every time text that the page function hands over is a clock
    reading, on which [parseDateTime] does not give up.  Each appointment
    it returns has both a start and an end, or neither. *)
Theorem scraper_extraction_total :
  forall (Date_parse : string -> option Z) (tza : Z) (document : Scraper.Document),
    exists appointments,
      Scraper.extractAppointments Date_parse tza document = Ok appointments /\
      forall apt, In apt appointments -> paired apt.
Proof.
  intros Date_parse tza document. unfold Scraper.extractAppointments.
  apply map_result_total. intros raw Hraw.
  apply evaluate_clock in Hraw as [Hs He].
  now apply parseAppointment_clock.
Qed.

(** ** Maps *)

Lemma get_set_same {V : Type} (k : string) (v : V) (m : Web.Dict V) :
  Web.get k (Web.set k v m) = Some v.
Proof.
  induction m as [|[k0 v0] m IH]; simpl.
  - now rewrite String.eqb_refl.
  - destruct (String.eqb_spec k0 k) as [->|Hne]; simpl.
    + now rewrite String.eqb_refl.
    + rewrite (proj2 (String.eqb_neq _ _) Hne). exact IH.
Qed.

Lemma get_set_other {V : Type} (k k' : string) (v : V) (m : Web.Dict V) :
  k <> k' -> Web.get k' (Web.set k v m) = Web.get k' m.
Proof.
  intro Hne. induction m as [|[k0 v0] m IH]; simpl.
  - now rewrite (proj2 (String.eqb_neq _ _) Hne).
  - destruct (String.eqb_spec k0 k) as [->|Hk]; simpl.
    + now rewrite (proj2 (String.eqb_neq _ _) Hne).
    + now rewrite IH.
Qed.

Lemma get_delete_same {V : Type} (k : string) (m : Web.Dict V) :
  Web.get k (Web.delete k m) = None.
Proof.
  induction m as [|[k0 v0] m IH]; simpl; [reflexivity|].
  destruct (String.eqb_spec k0 k) as [->|Hk]; simpl; [exact IH|].
  now rewrite (proj2 (String.eqb_neq _ _) Hk).
Qed.

Lemma get_delete_other {V : Type} (k k' : string) (m : Web.Dict V) :
  k <> k' -> Web.get k' (Web.delete k m) = Web.get k' m.
Proof.
  intro Hne. induction m as [|[k0 v0] m IH]; simpl; [reflexivity|].
  destruct (String.eqb_spec k0 k) as [->|Hk]; simpl.
  - now rewrite (proj2 (String.eqb_neq _ _) Hne).
  - now rewrite IH.
Qed.

(** ** Cookies *)

Lemma rev_string_app (s acc : string) : rev_string s acc = rev_string s "" ++ acc.
Proof.
  revert acc. induction s as [|a s IH]; intro acc; simpl; [reflexivity|].
  rewrite (IH (String a acc)), (IH (String a "")), append_assoc. reflexivity.
Qed.

Lemma rev_string_append (s t : string) :
  rev_string (s ++ t) "" = rev_string t "" ++ rev_string s "".
Proof.
  induction s as [|a s IH]; simpl.
  - now rewrite append_nil_r.
  - rewrite (rev_string_app (s ++ t)), IH, (rev_string_app s (String a "")).
    now rewrite append_assoc.
Qed.

Lemma rev_string_involutive (s : string) : rev_string (rev_string s "") "" = s.
Proof.
  induction s as [|a s IH]; simpl; [reflexivity|].
  rewrite (rev_string_app s), rev_string_append, IH. reflexivity.
Qed.

Lemma all_chars_rev (p : ascii -> bool) (s : string) :
  all_chars p (rev_string s "") = all_chars p s.
Proof.
  induction s as [|a s IH]; simpl; [reflexivity|].
  rewrite rev_string_app, all_chars_app, IH. simpl.
  rewrite andb_true_r. apply andb_comm.
Qed.

Lemma skip_spaces_none (s : string) :
  all_chars (fun a => negb (is_space a)) s = true -> skip_spaces s = s.
Proof.
  destruct s as [|a s]; simpl; [reflexivity|].
  intro H. apply andb_prop in H as [Ha _]. apply negb_true_iff in Ha. now rewrite Ha.
Qed.

Lemma trim_none (s : string) :
  all_chars (fun a => negb (is_space a)) s = true -> trim s = s.
Proof.
  intro H. unfold trim. rewrite (skip_spaces_none s H).
  rewrite skip_spaces_none by now rewrite all_chars_rev.
  apply rev_string_involutive.
Qed.

Lemma all_chars_weaken (p q : ascii -> bool) (s : string) :
  (forall a, p a = true -> q a = true) -> all_chars p s = true -> all_chars q s = true.
Proof.
  intro Hpq. induction s as [|a s IH]; simpl; [reflexivity|].
  intro H. apply andb_prop in H as [Ha Hs]. now rewrite (Hpq a Ha), IH.
Qed.

Lemma split_none (sep : ascii) (s : string) :
  all_chars (fun a => negb (Ascii.eqb a sep)) s = true -> Web.split sep s = [s].
Proof.
  induction s as [|a s IH]; simpl; [reflexivity|].
  intro H. apply andb_prop in H as [Ha Hs]. apply negb_true_iff in Ha.
  now rewrite Ha, (IH Hs).
Qed.

Lemma split_append (sep : ascii) (s t : string) :
  all_chars (fun a => negb (Ascii.eqb a sep)) s = true ->
  Web.split sep (s ++ String sep t) = s :: Web.split sep t.
Proof.
  induction s as [|a s IH]; simpl.
  - intros _. now rewrite Ascii.eqb_refl.
  - intro H. apply andb_prop in H as [Ha Hs]. apply negb_true_iff in Ha.
    now rewrite Ha, (IH Hs).
Qed.

Lemma cookie_char_parts (a : ascii) :
  cookie_char a = true ->
  is_space a = false /\ Ascii.eqb a ";" = false /\ Ascii.eqb a "=" = false.
Proof.
  unfold cookie_char. intro H. apply andb_prop in H as [H H3].
  apply andb_prop in H as [H1 H2].
  now rewrite negb_true_iff in H1, H2, H3.
Qed.

(** ** Sessions *)

Lemma validateSession_live (now : Z) (token : string) (sessions : Web.Dict Z) :
  live sessions token now -> Web.validateSession now token sessions = (true, sessions).
Proof.
  intros (t0 & Hg & Hz & Hage). unfold Web.validateSession. rewrite Hg.
  rewrite (proj2 (Z.eqb_neq _ _) Hz).
  destruct (Z.gtb_spec (now - t0) 86400000); [lia|reflexivity].
Qed.

Lemma validateSession_spec (now : Z) (token : string) (sessions : Web.Dict Z) :
  fst (Web.validateSession now token sessions) = true <-> live sessions token now.
Proof.
  split.
  - unfold Web.validateSession, live.
    destruct (Web.get token sessions) as [t0|]; [|discriminate].
    destruct (Z.eqb_spec t0 0); [discriminate|].
    destruct (Z.gtb_spec (now - t0) 86400000); [discriminate|].
    intros _. exists t0. repeat split; [assumption|lia].
  - intro H. now rewrite validateSession_live.
Qed.

(** A session that is refused is gone or was never there: it is
    refused from then on, whatever the clock reads. *)
Lemma validateSession_refused (now later : Z) (token : string) (sessions : Web.Dict Z) :
  fst (Web.validateSession now token sessions) = false ->
  fst (Web.validateSession later token (snd (Web.validateSession now token sessions)))
  = false.
Proof.
  unfold Web.validateSession.
  destruct (Web.get token sessions) as [t0|] eqn:Hg; simpl.
  - destruct (Z.eqb_spec t0 0) as [->|Hz]; simpl.
    + intros _. now rewrite Hg.
    + destruct (Z.gtb_spec (now - t0) 86400000); simpl; [|discriminate].
      intros _. now rewrite get_delete_same.
  - intros _. now rewrite Hg.
Qed.

Lemma validateSession_others (now : Z) (token other : string) (sessions : Web.Dict Z) :
  token <> other ->
  Web.get other (snd (Web.validateSession now token sessions)) = Web.get other sessions.
Proof.
  intro Hne. unfold Web.validateSession.
  destruct (Web.get token sessions) as [t0|]; [|reflexivity].
  destruct (t0 =? 0); [reflexivity|].
  destruct (now - t0 >? 86400000); [|reflexivity].
  simpl. now apply get_delete_other.
Qed.

(** ** Cookie headers with several cookies *)

Lemma split_nonempty (sep : ascii) (s : string) : Web.split sep s <> [].
Proof.
  destruct s as [|a s]; simpl; [discriminate|].
  destruct (Ascii.eqb a sep); [discriminate|].
  destruct (Web.split sep s); discriminate.
Qed.

(** [(s + sep + t).split(sep)] is [s.split(sep)] followed by
    [t.split(sep)]. *)
Lemma split_app (sep : ascii) (s t : string) :
  Web.split sep (s ++ String sep t) = (Web.split sep s ++ Web.split sep t)%list.
Proof.
  induction s as [|a s IH]; simpl.
  - now rewrite Ascii.eqb_refl.
  - destruct (Ascii.eqb a sep); [now rewrite IH|].
    rewrite IH. pose proof (split_nonempty sep s) as Hne.
    destruct (Web.split sep s) as [|piece rest]; [now contradiction Hne|reflexivity].
Qed.

(** One piece of the header leaves the cookies as they are or sets one
    of them, and which of the two does not depend on the cookies read
    before. *)
Lemma addCookie_cases (piece : string) :
  (forall cookies, Web.addCookie cookies piece = cookies) \/
  (exists name value, forall cookies,
      Web.addCookie cookies piece = Web.set name value cookies).
Proof.
  unfold Web.addCookie.
  destruct (Web.split "=" (trim piece)) as [|name [|value rest]];
    try (left; reflexivity).
  destruct (negb (name =? "")%string && negb (value =? "")%string);
    [|left; reflexivity].
  destruct (name =? "__proto__")%string; [left; reflexivity|right; now exists name, value].
Qed.

Lemma parseCookies_fold (header : string) :
  Web.parseCookies (Some header) = fold_left Web.addCookie (Web.split ";" header) [].
Proof.
  unfold Web.parseCookies. destruct header as [|a s]; [reflexivity|].
  rewrite truthy_Some, or_default_Some; [reflexivity|discriminate|discriminate].
Qed.

Lemma get_fold_addCookie (name : string) (pieces : list string) (acc : Web.Dict string) :
  Web.get name (fold_left Web.addCookie pieces acc)
  = match Web.get name (fold_left Web.addCookie pieces []) with
    | Some v => Some v
    | None => Web.get name acc
    end.
Proof.
  revert acc. induction pieces as [|piece pieces IH]; intro acc; [reflexivity|].
  cbn [fold_left]. rewrite (IH (Web.addCookie acc piece)), (IH (Web.addCookie [] piece)).
  destruct (Web.get name (fold_left Web.addCookie pieces [])) as [v|]; [reflexivity|].
  destruct (addCookie_cases piece) as [Hsame|(n & v & Hset)].
  - now rewrite !Hsame.
  - rewrite !Hset. destruct (String.eqb_spec n name) as [->|Hne].
    + now rewrite !get_set_same.
    + rewrite !get_set_other by congruence. reflexivity.
Qed.

Lemma addCookie_pair (cookies : Web.Dict string) (name value : string) :
  cookie_safe name -> name <> "__proto__" -> cookie_safe value ->
  Web.addCookie cookies (" " ++ name ++ "=" ++ value) = Web.set name value cookies /\
  Web.addCookie cookies (name ++ "=" ++ value) = Web.set name value cookies.
Proof.
  intros [Hn Hna] Hproto [Hv Hva].
  assert (Hall : all_chars (fun a => negb (is_space a)) (name ++ "=" ++ value) = true).
  { rewrite !all_chars_app. cbn [all_chars].
    rewrite (all_chars_weaken cookie_char _ name), (all_chars_weaken cookie_char _ value);
      try assumption; try reflexivity;
      intros a Ha; apply cookie_char_parts in Ha as (-> & _ & _); reflexivity. }
  assert (Hsplit : Web.split "=" (name ++ "=" ++ value) = [name; value]).
  { change (name ++ "=" ++ value) with (name ++ String "=" value).
    rewrite split_append.
    2:{ revert Hna. apply all_chars_weaken. intros a Ha.
        apply cookie_char_parts in Ha as (_ & _ & ->). reflexivity. }
    rewrite split_none; [reflexivity|].
    revert Hva. apply all_chars_weaken. intros a Ha.
    apply cookie_char_parts in Ha as (_ & _ & ->). reflexivity. }
  assert (Htrim : trim (" " ++ name ++ "=" ++ value) = name ++ "=" ++ value).
  { unfold trim.
    change (skip_spaces (" " ++ name ++ "=" ++ value))
      with (skip_spaces (name ++ "=" ++ value)).
    now apply trim_none. }
  unfold Web.addCookie. rewrite Htrim, (trim_none _ Hall), Hsplit.
  rewrite (eqb_empty_false _ Hn), (eqb_empty_false _ Hv).
  rewrite (proj2 (String.eqb_neq _ _) Hproto). split; reflexivity.
Qed.

Lemma session_names (name : string) :
  name = "session" \/ name = "admin_session" ->
  cookie_safe name /\ name <> "__proto__".
Proof. intros [->| ->]; (split; [split; [discriminate|reflexivity]|discriminate]). Qed.

(** How the session cookie is read, under either of its names.  A piece
    [name=value], with or without the space that follows a semicolon,
    is read back as it was written; and of two headers joined by a
    semicolon the second one decides when it holds the name, the first
    one when it does not: a later cookie replaces an earlier one of the
    same name, and cookies of other names never hide it. *)
Theorem cookies_are_read_back :
  forall (name value : string),
    name = "session" \/ name = "admin_session" -> cookie_safe value ->
    Web.get name (Web.parseCookies (Some (name ++ "=" ++ value))) = Some value /\
    Web.get name (Web.parseCookies (Some (" " ++ name ++ "=" ++ value))) = Some value /\
    (forall (first second : string),
        Web.get name (Web.parseCookies (Some (first ++ ";" ++ second)))
        = match Web.get name (Web.parseCookies (Some second)) with
          | Some v => Some v
          | None => Web.get name (Web.parseCookies (Some first))
          end).
Proof.
  intros name value Hname Hv.
  destruct (session_names name Hname) as [Hn Hproto].
  assert (Hsemi : forall lead : string,
             all_chars (fun a => negb (Ascii.eqb a ";")) lead = true ->
             Web.split ";" (lead ++ name ++ "=" ++ value) = [lead ++ name ++ "=" ++ value]).
  { intros lead Hlead. apply split_none.
    destruct Hn as [_ Hna], Hv as [_ Hva].
    rewrite !all_chars_app. cbn [all_chars]. rewrite Hlead.
    rewrite (all_chars_weaken cookie_char _ name), (all_chars_weaken cookie_char _ value);
      try assumption; try reflexivity;
      intros a Ha; apply cookie_char_parts in Ha as (_ & -> & _); reflexivity. }
  split; [|split].
  - pose proof (Hsemi "" eq_refl) as Hone.
    change (Web.split ";" (name ++ "=" ++ value) = [name ++ "=" ++ value]) in Hone.
    rewrite parseCookies_fold, Hone. cbn [fold_left].
    rewrite (proj2 (addCookie_pair [] name value Hn Hproto Hv)). apply get_set_same.
  - rewrite parseCookies_fold, (Hsemi " " eq_refl). cbn [fold_left].
    rewrite (proj1 (addCookie_pair [] name value Hn Hproto Hv)). apply get_set_same.
  - intros first second. rewrite !parseCookies_fold.
    change (first ++ ";" ++ second) with (first ++ String ";" second).
    rewrite split_app, fold_left_app. apply get_fold_addCookie.
Qed.

(** ** The admin routes of src/server.js *)

Lemma isLoggedIn_live (now : Z) (token : string) (sessions : Web.Dict Z) :
  token <> "" -> live sessions token now ->
  Web.isLoggedIn now (Some token) sessions = (true, sessions).
Proof.
  intros Hne Hlive. unfold Web.isLoggedIn.
  rewrite (truthy_Some _ Hne), (or_default_Some _ _ Hne).
  now apply validateSession_live.
Qed.

Lemma live_earlier (sessions : Web.Dict Z) (token : string) (now later : Z) :
  now <= later -> live sessions token later -> live sessions token now.
Proof. intros Hle (t0 & Hg & Hz & Hage). exists t0. repeat split; [assumption..|lia]. Qed.

Lemma state_eta (st : ServerAdmin.State) :
  ServerAdmin.mkState (ServerAdmin.config st) (ServerAdmin.sessions st) = st.
Proof. now destruct st. Qed.

(** The panel is shown to the holder of a live session. *)
Lemma get_admin_live (later : Z) (req : ServerAdmin.Request) (st : ServerAdmin.State)
    (token : string) :
  Web.get "session" (Web.parseCookies (ServerAdmin.cookie req)) = Some token ->
  token <> "" -> live (ServerAdmin.sessions st) token later ->
  truthy (ServerAdmin.adminPassword (ServerAdmin.config st)) = true ->
  ServerAdmin.get_admin later req st
  = (ServerAdmin.Shows (ServerAdmin.AdminPage (ServerAdmin.config st) req), st).
Proof.
  intros Hc Hne Hlive Hpw. unfold ServerAdmin.get_admin.
  rewrite Hc, (isLoggedIn_live _ _ _ Hne Hlive), Hpw. simpl. now rewrite state_eta.
Qed.

(** Logging in: the right password opens a session, and a request
    whose cookies carry the token of the reply within a day is shown the
    panel. *)
Theorem express_login_opens_panel :
  forall (now later : Z) (entropy : ServerAdmin.Entropy)
         (req req' : ServerAdmin.Request) (st : ServerAdmin.State) (pw : string),
    ServerAdmin.adminPassword (ServerAdmin.config st) = Some pw -> pw <> "" ->
    ServerAdmin.action (ServerAdmin.body req) = Some "login" ->
    ServerAdmin.password (ServerAdmin.body req) = Some pw ->
    ServerAdmin.hex32 entropy <> "" ->
    now <> 0 -> now <= later <= now + 86400000 ->
    Web.get "session" (Web.parseCookies (ServerAdmin.cookie req'))
    = Some (ServerAdmin.hex32 entropy) ->
    let '(reply, st1) := ServerAdmin.post_admin now entropy req st in
    reply = ServerAdmin.Redirects "/admin"
              (Some ("session=" ++ ServerAdmin.hex32 entropy
                     ++ "; Path=/; HttpOnly; Max-Age=86400")) /\
    ServerAdmin.config st1 = ServerAdmin.config st /\
    ServerAdmin.get_admin later req' st1
    = (ServerAdmin.Shows (ServerAdmin.AdminPage (ServerAdmin.config st) req'), st1).
Proof.
  intros now later entropy req req' st pw Hpw Hne Hact Hpass Htok Hnow Hlater Hcookie.
  unfold ServerAdmin.post_admin.
  destruct (Web.isLoggedIn now _ (ServerAdmin.sessions st)) as [logged sessions'].
  rewrite Hact, Hpass, Hpw. cbn [strict_eq String.eqb Ascii.eqb Bool.eqb ServerAdmin.same].
  rewrite String.eqb_refl.
  split; [reflexivity|]. split; [reflexivity|].
  rewrite (get_admin_live later req' _ (ServerAdmin.hex32 entropy)).
  - reflexivity.
  - exact Hcookie.
  - exact Htok.
  - exists now. cbn [ServerAdmin.sessions]. unfold ServerAdmin.createSession.
    rewrite get_set_same. repeat split; [assumption|lia].
  - cbn [ServerAdmin.config]. rewrite Hpw. now apply truthy_Some.
Qed.

(** The setup action is open to everyone at all times: whoever posts
    it, with or without a session and whether or not a configuration
    exists, replaces the stored configuration, admin password included,
    draws a new calendar token and is given a session.  From then on the
    calendar route refuses every token but the new one. *)
Theorem express_setup_is_open :
  forall (tza : Z) (ical_toString : ICal.Calendar -> string)
         (now : Z) (entropy : ServerAdmin.Entropy) (req : ServerAdmin.Request)
         (st : ServerAdmin.State)
         (feed : Server.Request) (up : Upstream (list Server.RawAppointment)) (w : World),
    ServerAdmin.action (ServerAdmin.body req) = Some "setup" ->
    ServerAdmin.hex24 entropy <> "" ->
    let '(reply, st1) := ServerAdmin.post_admin now entropy req st in
    reply = ServerAdmin.Redirects "/admin"
              (Some (ServerAdmin.sessionCookie (ServerAdmin.hex32 entropy))) /\
    ServerAdmin.adminPassword (ServerAdmin.config st1)
    = ServerAdmin.f_adminPassword (ServerAdmin.body req) /\
    ServerAdmin.calendarToken (ServerAdmin.config st1) = Some (ServerAdmin.hex24 entropy) /\
    Web.get (ServerAdmin.hex32 entropy) (ServerAdmin.sessions st1) = Some now /\
    (Server.token feed <> ServerAdmin.hex24 entropy ->
     Server.get_calendar tza ical_toString
       (ServerAdmin.calendar_config (ServerAdmin.config st1)) feed up w
     = (Ok invalid_token_text, w)).
Proof.
  intros tza ical_toString now entropy req st feed up w Hact Hhex.
  unfold ServerAdmin.post_admin.
  destruct (Web.isLoggedIn now _ (ServerAdmin.sessions st)) as [logged sessions'].
  rewrite Hact. cbn [strict_eq String.eqb Ascii.eqb Bool.eqb].
  split; [reflexivity|]. split; [reflexivity|]. split; [reflexivity|].
  split.
  - cbn [ServerAdmin.sessions]. apply get_set_same.
  - intro Hne.
    rewrite (server_route_gate tza ical_toString _ feed up w (ServerAdmin.hex24 entropy));
      [|reflexivity|exact Hhex].
    destruct (String.eqb_spec (ServerAdmin.hex24 entropy) (Server.token feed)) as [E|_];
      [now contradiction Hne|reflexivity].
Qed.

(** Logging out of the Express panel clears the cookie of the browser
    and nothing else: the session stays in the store, and whoever still
    presents its token is shown the panel until the day is over. *)
Theorem express_logout_keeps_session :
  forall (now later : Z) (entropy : ServerAdmin.Entropy)
         (req req' : ServerAdmin.Request) (st : ServerAdmin.State) (token : string),
    Web.get "session" (Web.parseCookies (ServerAdmin.cookie req)) = Some token ->
    Web.get "session" (Web.parseCookies (ServerAdmin.cookie req')) = Some token ->
    token <> "" ->
    now <= later -> live (ServerAdmin.sessions st) token later ->
    truthy (ServerAdmin.adminPassword (ServerAdmin.config st)) = true ->
    ServerAdmin.action (ServerAdmin.body req) = Some "logout" ->
    let '(reply, st1) := ServerAdmin.post_admin now entropy req st in
    reply = ServerAdmin.Redirects "/admin" (Some "session=; Path=/; HttpOnly; Max-Age=0") /\
    st1 = st /\
    ServerAdmin.get_admin later req' st1
    = (ServerAdmin.Shows (ServerAdmin.AdminPage (ServerAdmin.config st) req'), st).
Proof.
  intros now later entropy req req' st token Hc Hc' Hne Hle Hlive Hpw Hact.
  unfold ServerAdmin.post_admin.
  rewrite Hc, (isLoggedIn_live _ _ _ Hne (live_earlier _ _ _ _ Hle Hlive)), Hact.
  cbn [strict_eq String.eqb Ascii.eqb Bool.eqb]. rewrite state_eta.
  split; [reflexivity|]. split; [reflexivity|].
  now apply (get_admin_live later req' st token).
Qed.

(** What the Express admin routes never do: the stored configuration
    changes only by the setup action or by the save action of a request
    whose cookie carries a live session, and a session is opened only by
    the setup action or by a login with the stored password.  The GET
    route changes neither. *)
Theorem express_admin_integrity :
  forall (now : Z) (entropy : ServerAdmin.Entropy) (req : ServerAdmin.Request)
         (st : ServerAdmin.State),
    let form := ServerAdmin.body req in
    let session := Web.get "session" (Web.parseCookies (ServerAdmin.cookie req)) in
    let st1 := snd (ServerAdmin.post_admin now entropy req st) in
    let st2 := snd (ServerAdmin.get_admin now req st) in
    (ServerAdmin.config st1 = ServerAdmin.config st \/
     ServerAdmin.action form = Some "setup" \/
     (ServerAdmin.action form = Some "save" /\
      exists token, session = Some token /\ live (ServerAdmin.sessions st) token now)) /\
    (ServerAdmin.sessions st1 = snd (Web.isLoggedIn now session (ServerAdmin.sessions st)) \/
     ServerAdmin.action form = Some "setup" \/
     (ServerAdmin.action form = Some "login" /\
      ServerAdmin.password form = ServerAdmin.adminPassword (ServerAdmin.config st))) /\
    ServerAdmin.config st2 = ServerAdmin.config st /\
    ServerAdmin.sessions st2 = snd (Web.isLoggedIn now session (ServerAdmin.sessions st)).
Proof.
  intros now entropy req st form session st1 st2.
  unfold st1, st2, ServerAdmin.post_admin, ServerAdmin.get_admin. fold session form.
  destruct (Web.isLoggedIn now session (ServerAdmin.sessions st)) as [logged sessions'] eqn:El.
  cbn [snd].
  assert (Hstrict : forall x lit, strict_eq x lit = true -> x = Some lit).
  { intros [s|] lit; simpl; [|discriminate]. intro H. apply String.eqb_eq in H. now subst. }
  assert (Hsame : forall x y, ServerAdmin.same x y = true -> x = y).
  { intros [a|] [b|]; simpl; try discriminate; [|reflexivity].
    intro H. apply String.eqb_eq in H. now subst. }
  assert (Hlive : logged = true ->
                  exists token, session = Some token /\ live (ServerAdmin.sessions st) token now).
  { intro Hl. unfold Web.isLoggedIn in El.
    destruct (truthy session) eqn:Et; [|congruence].
    apply truthy_inv in Et as (token & Es & Hne). exists token. split; [exact Es|].
    rewrite Es, (or_default_Some _ _ Hne) in El.
    apply validateSession_spec. now rewrite El. }
  split; [|split; [|split]].
  - destruct (strict_eq (ServerAdmin.action form) "setup") eqn:E1;
      [right; left; now apply Hstrict|].
    destruct (strict_eq (ServerAdmin.action form) "login") eqn:E2.
    { left. now destruct (ServerAdmin.same _ _). }
    destruct (strict_eq (ServerAdmin.action form) "logout") eqn:E3; [now left|].
    destruct (strict_eq (ServerAdmin.action form) "save") eqn:E4; [|now left].
    destruct logged; [|now left].
    right; right. split; [now apply Hstrict|now apply Hlive].
  - destruct (strict_eq (ServerAdmin.action form) "setup") eqn:E1;
      [right; left; now apply Hstrict|].
    destruct (strict_eq (ServerAdmin.action form) "login") eqn:E2.
    { destruct (ServerAdmin.same _ _) eqn:Es; [|now left].
      right; right. split; [now apply Hstrict|now apply Hsame]. }
    destruct (strict_eq (ServerAdmin.action form) "logout") eqn:E3; [now left|].
    destruct (strict_eq (ServerAdmin.action form) "save" && logged); now left.
  - destruct (negb (truthy _)); [reflexivity|]. destruct (negb logged); reflexivity.
  - destruct (negb (truthy _)); [reflexivity|]. destruct (negb logged); reflexivity.
Qed.

(** Sessions end for good: [validateSession] accepts a token exactly
    while its session is less than a day old and then leaves the store as
    it is; a token that it refuses is refused at every later call,
    whatever the clock reads then, and the sessions of other tokens are
    not touched. *)
Theorem session_expires_for_good :
  forall (now later : Z) (token other : string) (sessions : Web.Dict Z),
    let '(ok, sessions1) := Web.validateSession now token sessions in
    (ok = true <-> live sessions token now) /\
    (if ok then sessions1 = sessions
     else fst (Web.validateSession later token sessions1) = false) /\
    (other = token \/ Web.get other sessions1 = Web.get other sessions).
Proof.
  intros now later token other sessions.
  pose proof (validateSession_spec now token sessions) as Hspec.
  pose proof (validateSession_refused now later token sessions) as Href.
  pose proof (validateSession_live now token sessions) as Hlive.
  pose proof (validateSession_others now token other sessions) as Hoth.
  destruct (Web.validateSession now token sessions) as [ok sessions1].
  cbn [fst snd] in *. split; [exact Hspec|]. split.
  - destruct ok.
    + specialize (Hlive (proj1 Hspec eq_refl)). congruence.
    + now apply Href.
  - destruct (string_dec token other) as [->|Hne]; [now left|right; now apply Hoth].
Qed.

(** ** The admin handler of api/admin.js *)

Lemma get_in {V : Type} (k : string) (v : V) (m : Web.Dict V) :
  Web.get k m = Some v -> In (k, v) m.
Proof.
  induction m as [|[k0 v0] m IH]; simpl; [discriminate|].
  destruct (String.eqb_spec k0 k) as [->|Hne].
  - intro H. injection H as ->. now left.
  - intro H. right. now apply IH.
Qed.

Lemma in_get {V : Type} (k : string) (v : V) (m : Web.Dict V) :
  In (k, v) m -> Web.get k m <> None.
Proof.
  induction m as [|[k0 v0] m IH]; simpl; [intros []|].
  intros [E|H].
  - injection E as -> ->. now rewrite String.eqb_refl.
  - destruct (k0 =? k)%string; [discriminate|now apply IH].
Qed.

Lemma get_filter {V : Type} (p : string * V -> bool) (k : string) (v : V) (m : Web.Dict V) :
  Web.get k m = Some v -> p (k, v) = true -> Web.get k (filter p m) = Some v.
Proof.
  induction m as [|[k0 v0] m IH]; simpl; [discriminate|].
  destruct (String.eqb_spec k0 k) as [->|Hne].
  - intro H. injection H as ->. intro Hp. rewrite Hp. simpl. now rewrite String.eqb_refl.
  - intros H Hp. destruct (p (k0, v0)); simpl.
    + rewrite (proj2 (String.eqb_neq _ _) Hne). now apply IH.
    + now apply IH.
Qed.

Lemma filter_get {V : Type} (p : string * V -> bool) (k : string) (v : V) (m : Web.Dict V) :
  Web.get k (filter p m) = Some v -> p (k, v) = true /\ Web.get k m <> None.
Proof.
  intro H. apply get_in in H. apply filter_In in H as [Hin Hp].
  split; [exact Hp|now apply in_get in Hin].
Qed.

Lemma delete_get {V : Type} (k k' : string) (m : Web.Dict V) :
  Web.get k' (Web.delete k m) <> None -> Web.get k' m <> None.
Proof.
  destruct (string_dec k k') as [->|Hne].
  - now rewrite get_delete_same.
  - now rewrite get_delete_other.
Qed.

Lemma validateSession_known (now : Z) (token t : string) (sessions : Web.Dict Z) :
  Web.get t (snd (Web.validateSession now token sessions)) <> None ->
  Web.get t sessions <> None.
Proof.
  unfold Web.validateSession.
  destruct (Web.get token sessions) as [t0|]; [|auto].
  destruct (t0 =? 0); [auto|].
  destruct (now - t0 >? 86400000); [|auto].
  simpl. apply delete_get.
Qed.

Lemma isLoggedIn_known (now : Z) (session : option string) (t : string)
    (sessions : Web.Dict Z) :
  Web.get t (snd (Web.isLoggedIn now session sessions)) <> None ->
  Web.get t sessions <> None.
Proof.
  unfold Web.isLoggedIn. destruct (truthy session); [|auto].
  apply validateSession_known.
Qed.

Lemma isLoggedIn_true (now : Z) (session : option string) (sessions : Web.Dict Z) :
  fst (Web.isLoggedIn now session sessions) = true ->
  exists token,
    session = Some token /\ token <> "" /\ live sessions token now /\
    snd (Web.isLoggedIn now session sessions) = sessions.
Proof.
  unfold Web.isLoggedIn. destruct (truthy session) eqn:Et; [|discriminate].
  apply truthy_inv in Et as (token & -> & Hne). rewrite (or_default_Some _ _ Hne).
  intro H. apply validateSession_spec in H. exists token.
  repeat split; [assumption..|]. now rewrite validateSession_live.
Qed.

Lemma isLoggedIn_refused (now later : Z) (token : string) (sessions : Web.Dict Z) :
  Web.get token sessions = None ->
  Web.isLoggedIn later (Some token) sessions = (false, sessions).
Proof.
  intro Hg. unfold Web.isLoggedIn. destruct (truthy (Some token)) eqn:Et; [|reflexivity].
  apply truthy_inv in Et as (t & E & Hne). injection E as <-.
  rewrite (or_default_Some _ _ Hne). unfold Web.validateSession. now rewrite Hg.
Qed.

Lemma api_state_eta (st : ApiAdmin.State) :
  ApiAdmin.mkState (ApiAdmin.stored st) (ApiAdmin.sessions st) = st.
Proof. now destruct st. Qed.

(** Logging out of the serverless panel ends the session: its token is
    removed from the store, and a later request that presents it is
    shown the login page. *)
Theorem api_logout_ends_session :
  forall (env : ApiAdmin.Env) (redis redis' : ApiAdmin.Redis) (now later : Z)
         (hex24 hex32 hex24' hex32' : string)
         (req req' : ApiAdmin.Request) (form : ApiAdmin.Form)
         (st : ApiAdmin.State) (token : string),
    truthy (ApiAdmin.ADMIN_PASSWORD env) = true -> ApiAdmin.hasRedis env = true ->
    ApiAdmin.method req = "POST" -> ApiAdmin.body req = Some form ->
    ApiAdmin.action form = Some "logout" ->
    Web.get "admin_session" (Web.parseCookies (ApiAdmin.cookie req)) = Some token ->
    Web.get "admin_session" (Web.parseCookies (ApiAdmin.cookie req')) = Some token ->
    token <> "" ->
    ApiAdmin.method req' = "GET" ->
    let '(reply, st1) := ApiAdmin.handler env redis now hex24 hex32 req st in
    reply = Ok (ApiAdmin.Redirects 302 "/api/admin"
                  (Some "admin_session=; Path=/; HttpOnly; Max-Age=0")) /\
    ApiAdmin.stored st1 = ApiAdmin.stored st /\
    Web.get token (ApiAdmin.sessions st1) = None /\
    ApiAdmin.handler env redis' later hex24' hex32' req' st1
    = (Ok (ApiAdmin.Shows (ApiAdmin.LoginPage "")), st1).
Proof.
  intros env redis redis' now later hex24 hex32 hex24' hex32' req req' form st token
         Hpw Hredis Hpost Hbody Hact Hc Hc' Hne Hget.
  unfold ApiAdmin.handler at 1. rewrite Hpw, Hredis, Hc. cbn [negb].
  destruct (Web.isLoggedIn now (Some token) (ApiAdmin.sessions st)) as [logged sessions'].
  rewrite Hpost, Hbody, Hact. cbn [String.eqb Ascii.eqb Bool.eqb strict_eq ApiAdmin.stored].
  rewrite (truthy_Some _ Hne), (or_default_Some _ _ Hne).
  split; [reflexivity|]. split; [reflexivity|]. split; [apply get_delete_same|].
  unfold ApiAdmin.handler. rewrite Hpw, Hredis, Hc'. cbn [negb ApiAdmin.sessions].
  rewrite (isLoggedIn_refused now later token _ (get_delete_same token sessions')).
  rewrite Hget. cbn [String.eqb Ascii.eqb Bool.eqb ApiAdmin.stored].
  unfold ApiAdmin.showPanel. reflexivity.
Qed.

Lemma same_eq (x y : option string) : ServerAdmin.same x y = true -> x = y.
Proof.
  destruct x as [a|], y as [b|]; simpl; try discriminate; [|reflexivity].
  intro H. apply String.eqb_eq in H. now subst.
Qed.

Lemma showPanel_state (env : ApiAdmin.Env) (redis : ApiAdmin.Redis)
    (req : ApiAdmin.Request) (logged : bool) (st : ApiAdmin.State) :
  snd (ApiAdmin.showPanel env redis req logged st) = st.
Proof.
  unfold ApiAdmin.showPanel. destruct (negb logged); [reflexivity|].
  now destruct (ApiAdmin.getConfig env redis st).
Qed.

(** What the serverless admin handler never does: the configuration
    under [appointy:config] changes only by the save action of a POST
    request whose cookie carries a live session, in a deployment with an
    admin password and Redis, and only when Redis takes the write; a
    session is opened only by a login with the admin password of the
    environment. *)
Theorem api_admin_integrity :
  forall (env : ApiAdmin.Env) (redis : ApiAdmin.Redis) (now : Z) (hex24 hex32 : string)
         (req : ApiAdmin.Request) (st : ApiAdmin.State),
    let form := match ApiAdmin.body req with
                | Some form => form
                | None => ApiAdmin.no_form
                end in
    let session := Web.get "admin_session" (Web.parseCookies (ApiAdmin.cookie req)) in
    let st1 := snd (ApiAdmin.handler env redis now hex24 hex32 req st) in
    (ApiAdmin.stored st1 = ApiAdmin.stored st \/
     (truthy (ApiAdmin.ADMIN_PASSWORD env) = true /\ ApiAdmin.hasRedis env = true /\
      ApiAdmin.method req = "POST" /\ ApiAdmin.action form = Some "save" /\
      redis = ApiAdmin.Answers /\
      (exists token, session = Some token /\ live (ApiAdmin.sessions st) token now) /\
      ApiAdmin.stored st1 = Some (ApiAdmin.newConfig now hex24 form))) /\
    (forall t, Web.get t (ApiAdmin.sessions st1) <> None ->
       Web.get t (ApiAdmin.sessions st) <> None \/
       (t = hex32 /\ ApiAdmin.method req = "POST" /\
        ApiAdmin.action form = Some "login" /\
        ApiAdmin.password form = ApiAdmin.ADMIN_PASSWORD env)).
Proof.
  intros env redis now hex24 hex32 req st form session st1.
  unfold st1, ApiAdmin.handler. fold session form.
  destruct (truthy (ApiAdmin.ADMIN_PASSWORD env)) eqn:Hpw; cbn [negb];
    [|split; [now left|intros t Ht; now left]].
  destruct (ApiAdmin.hasRedis env) eqn:Hredis; cbn [negb];
    [|split; [now left|intros t Ht; now left]].
  pose proof (isLoggedIn_true now session (ApiAdmin.sessions st)) as Hlogged.
  pose proof (fun t => isLoggedIn_known now session t (ApiAdmin.sessions st)) as Hknown.
  destruct (Web.isLoggedIn now session (ApiAdmin.sessions st)) as [logged sessions'].
  cbn [fst snd] in Hlogged, Hknown.
  destruct (String.eqb_spec (ApiAdmin.method req) "POST") as [Hpost|Hpost].
  2:{ rewrite showPanel_state. cbn [ApiAdmin.stored ApiAdmin.sessions].
      split; [now left|]. intros t Ht. left. now apply (Hknown t). }
  destruct (strict_eq (ApiAdmin.action form) "login") eqn:E1.
  { destruct (ServerAdmin.same _ _) eqn:Es; cbn [snd ApiAdmin.stored ApiAdmin.sessions].
    - split; [now left|]. intros t Ht.
      destruct (string_dec t hex32) as [->|Hne].
      + right. repeat split; [assumption|now apply strict_eq_true|now apply same_eq].
      + left. apply (Hknown t). unfold ApiAdmin.createSession in Ht.
        destruct (Web.get t (filter _ _)) as [v|] eqn:Eg; [|congruence].
        apply filter_get in Eg as [_ Eg].
        rewrite get_set_other in Eg by congruence. exact Eg.
    - split; [now left|]. intros t Ht. left. now apply (Hknown t). }
  destruct (strict_eq (ApiAdmin.action form) "logout") eqn:E2.
  { cbn [snd ApiAdmin.stored ApiAdmin.sessions]. split; [now left|].
    intros t Ht. left. apply (Hknown t).
    destruct (truthy session); [now apply delete_get in Ht|exact Ht]. }
  destruct (strict_eq (ApiAdmin.action form) "save") eqn:E3; cbn [andb].
  2:{ rewrite showPanel_state. cbn [ApiAdmin.stored ApiAdmin.sessions].
      split; [now left|]. intros t Ht. left. now apply (Hknown t). }
  destruct logged.
  2:{ rewrite showPanel_state. cbn [ApiAdmin.stored ApiAdmin.sessions].
      split; [now left|]. intros t Ht. left. now apply (Hknown t). }
  destruct (Hlogged eq_refl) as (token & Es & Hne & Hlive & Hsame).
  unfold ApiAdmin.saveConfig. rewrite Hredis. cbn [negb].
  destruct redis; cbn [snd ApiAdmin.stored ApiAdmin.sessions].
  - split.
    + right. repeat split; try assumption; try reflexivity.
      * now apply strict_eq_true.
      * exists token. now split.
    + intros t Ht. left. now apply (Hknown t).
  - split; [now left|]. intros t Ht. left. now apply (Hknown t).
  - split; [now left|]. intros t Ht. left. now apply (Hknown t).
Qed.

Lemma or_default_nonempty (x : option string) (dflt : string) :
  dflt <> "" -> or_default x dflt <> "".
Proof.
  intro Hd. destruct x as [s|]; simpl; [|exact Hd].
  destruct (String.eqb_spec s ""); assumption.
Qed.

(** Saving from the panel puts the feed behind the saved token: a
    logged-in save that Redis takes stores a configuration whose calendar
    token is the posted one or, when that is blank, a fresh random one,
    never an empty one; the feed handler then works with the stored
    configuration, whatever the environment says, and lets a request
    through exactly when it presents this token. *)
Theorem api_save_opens_feed :
  forall (Date_parse : string -> option Z) (tza : Z)
         (ical_toString : ICal.Calendar -> string)
         (env : ApiAdmin.Env) (now : Z) (hex24 hex32 : string)
         (req : ApiAdmin.Request) (form : ApiAdmin.Form) (st : ApiAdmin.State)
         (token : string) (feed : Api.Request) (up : Upstream string) (w : World),
    truthy (ApiAdmin.ADMIN_PASSWORD env) = true -> ApiAdmin.hasRedis env = true ->
    ApiAdmin.method req = "POST" -> ApiAdmin.body req = Some form ->
    ApiAdmin.action form = Some "save" ->
    Web.get "admin_session" (Web.parseCookies (ApiAdmin.cookie req)) = Some token ->
    token <> "" -> live (ApiAdmin.sessions st) token now ->
    hex24 <> "" ->
    let secret := or_default (option_map trim (ApiAdmin.f_calendarToken form)) hex24 in
    let '(reply, st1) := ApiAdmin.handler env ApiAdmin.Answers now hex24 hex32 req st in
    reply = Ok (ApiAdmin.Redirects 302 "/api/admin?saved=1" None) /\
    ApiAdmin.stored st1 = Some (ApiAdmin.newConfig now hex24 form) /\
    secret <> "" /\
    exists r w',
      api_feed Date_parse tza ical_toString env ApiAdmin.Answers st1 feed up w = (Ok r, w') /\
      (status r <> 403 <-> Api.token feed = Some secret).
Proof.
  intros Date_parse tza ical_toString env now hex24 hex32 req form st token feed up w
         Hpw Hredis Hpost Hbody Hact Hc Hne Hlive Hhex secret.
  assert (Hsecret : secret <> "") by now apply or_default_nonempty.
  unfold ApiAdmin.handler. rewrite Hpw, Hredis, Hc. cbn [negb].
  rewrite (isLoggedIn_live _ _ _ Hne Hlive), Hpost, Hbody, Hact.
  cbn [String.eqb Ascii.eqb Bool.eqb strict_eq andb].
  unfold ApiAdmin.saveConfig. rewrite Hredis. cbn [negb ApiAdmin.stored ApiAdmin.sessions].
  split; [reflexivity|]. split; [reflexivity|]. split; [exact Hsecret|].
  unfold api_feed, ApiAdmin.feedConfig, ApiAdmin.redisGet. rewrite Hredis.
  cbn [negb ApiAdmin.stored ApiAdmin.saved_config ApiAdmin.newConfig].
  fold secret.
  set (config := Api.mkConfig _ _ _ _ (Some secret) _).
  rewrite (api_handler_gate Date_parse tza ical_toString config feed up w secret eq_refl Hsecret).
  set (provided := or_default (Api.token feed) "").
  pose proof (or_default_token (Api.token feed) secret Hsecret) as Htok.
  fold provided in Htok.
  destruct (Nat.eqb_spec (length secret) (length provided)) as [Hlen|Hlen].
  - destruct (String.eqb_spec secret provided) as [Heq|Hneq].
    + destruct (api_serve_total Date_parse tza ical_toString config feed up
                  (compared w (Buffer_from secret) (Buffer_from provided)))
        as (r & w' & -> & Hr & _).
      exists r, w'. split; [reflexivity|].
      split; [intros _; now apply Htok|intros _; exact Hr].
    + eexists _, _. split; [reflexivity|].
      simpl. split; [intro H; now contradiction H|].
      intro H. apply Htok in H. now symmetry in H.
  - eexists _, _. split; [reflexivity|].
    simpl. split; [intro H; now contradiction H|].
    intro H. apply Htok in H. rewrite H in Hlen. now contradiction Hlen.
Qed.

(** Logging in to the serverless panel: the admin password of the
    environment opens a session and clears the store of every session
    older than a day; a request whose cookies carry the token of the
    reply within a day is shown the panel. *)
Theorem api_login_opens_panel :
  forall (env : ApiAdmin.Env) (now later : Z) (hex24 hex32 hex24' hex32' : string)
         (req req' : ApiAdmin.Request) (form : ApiAdmin.Form) (st : ApiAdmin.State),
    truthy (ApiAdmin.ADMIN_PASSWORD env) = true -> ApiAdmin.hasRedis env = true ->
    ApiAdmin.method req = "POST" -> ApiAdmin.body req = Some form ->
    ApiAdmin.action form = Some "login" ->
    ApiAdmin.password form = ApiAdmin.ADMIN_PASSWORD env ->
    hex32 <> "" -> now <> 0 -> now <= later <= now + 86400000 ->
    ApiAdmin.method req' = "GET" ->
    Web.get "admin_session" (Web.parseCookies (ApiAdmin.cookie req')) = Some hex32 ->
    let '(reply, st1) := ApiAdmin.handler env ApiAdmin.Answers now hex24 hex32 req st in
    reply = Ok (ApiAdmin.Redirects 302 "/api/admin"
                  (Some ("admin_session=" ++ hex32
                         ++ "; Path=/; HttpOnly; SameSite=Strict; Max-Age=86400"))) /\
    (forall t t0, Web.get t (ApiAdmin.sessions st1) = Some t0 -> now - t0 <= 86400000) /\
    ApiAdmin.handler env ApiAdmin.Answers later hex24' hex32' req' st1
    = (Ok (ApiAdmin.Shows
             (ApiAdmin.AdminPage (ApiAdmin.stored st)
                (or_default (ApiAdmin.proto req') "https" ++ "://"
                 ++ or_default (ApiAdmin.host req') "localhost")
                (strict_eq (ApiAdmin.saved req') "1"))), st1).
Proof.
  intros env now later hex24 hex32 hex24' hex32' req req' form st
         Hpw Hredis Hpost Hbody Hact Hpass Htok Hnow Hlater Hget Hcookie.
  unfold ApiAdmin.handler at 1. rewrite Hpw, Hredis. cbn [negb].
  destruct (Web.isLoggedIn now _ (ApiAdmin.sessions st)) as [logged sessions'].
  rewrite Hpost, Hbody, Hact, Hpass.
  cbn [String.eqb Ascii.eqb Bool.eqb strict_eq ApiAdmin.stored].
  assert (Hsame : ServerAdmin.same (ApiAdmin.ADMIN_PASSWORD env) (ApiAdmin.ADMIN_PASSWORD env)
                  = true).
  { destruct (ApiAdmin.ADMIN_PASSWORD env); simpl; [apply String.eqb_refl|reflexivity]. }
  rewrite Hsame.
  split; [reflexivity|]. split.
  - cbn [ApiAdmin.sessions]. unfold ApiAdmin.createSession. intros t t0 Hg.
    apply filter_get in Hg as [Hp _]. cbn [snd] in Hp. apply negb_true_iff in Hp.
    destruct (Z.gtb_spec (now - t0) 86400000); [discriminate|lia].
  - unfold ApiAdmin.handler. rewrite Hpw, Hredis, Hcookie. cbn [negb ApiAdmin.sessions].
    rewrite isLoggedIn_live.
    + rewrite Hget. cbn [String.eqb Ascii.eqb Bool.eqb ApiAdmin.stored].
      unfold ApiAdmin.showPanel, ApiAdmin.getConfig, ApiAdmin.redisGet.
      rewrite Hredis. reflexivity.
    + exact Htok.
    + exists now. split; [|split; [exact Hnow|lia]].
      unfold ApiAdmin.createSession. apply get_filter; [apply get_set_same|].
      cbn [snd]. replace (now - now) with 0 by lia. reflexivity.
Qed.

(** ** The health report *)

(** The health report tells which settings are present and nothing
    about their values: two stored configurations that have the same
    settings present, and whose FlareSolverr addresses answer the test
    request alike, give the same report. *)
Theorem health_hides_the_values :
  forall (JSON_parse : string -> Result Api.Config)
         (probe : string -> Result (option string))
         (env : ApiAdmin.Env) (now : Z) (text text' : string) (c c' : Api.Config),
    text <> "" -> text' <> "" ->
    JSON_parse text = Ok c -> JSON_parse text' = Ok c' ->
    truthy (Api.appointyEmail c) = truthy (Api.appointyEmail c') ->
    truthy (Api.appointyPassword c) = truthy (Api.appointyPassword c') ->
    truthy (Api.flaresolverrUrl c) = truthy (Api.flaresolverrUrl c') ->
    truthy (Api.calendarToken c) = truthy (Api.calendarToken c') ->
    probe (or_default (Api.flaresolverrUrl c) "" ++ "/v1")
    = probe (or_default (Api.flaresolverrUrl c') "" ++ "/v1") ->
    ApiHealth.handler JSON_parse probe env now (Ok (Some text))
    = ApiHealth.handler JSON_parse probe env now (Ok (Some text')).
Proof.
  intros JSON_parse probe env now text text' c c' Ht Ht' Hc Hc' He Hp Hf Hk Hprobe.
  unfold ApiHealth.handler. destruct (ApiAdmin.hasRedis env); [|reflexivity].
  unfold ApiHealth.readConfig.
  rewrite (truthy_Some _ Ht), (truthy_Some _ Ht'), (or_default_Some _ _ Ht),
    (or_default_Some _ _ Ht'), Hc, Hc'.
  unfold ApiHealth.testFlaresolverr. cbn [ApiHealth.field].
  rewrite He, Hp, Hf, Hk, Hprobe. reflexivity.
Qed.

(** ** api/calendar.js: a candidate is dropped for its date only *)

Lemma api_timePattern_captures (s : string) (c' : captures) :
  Matches Api.timePattern s [] c' ->
  (exists h m, capture 1 c' = Some h /\ capture 2 c' = Some m /\
               digits 1 2 h /\ digits 2 2 m) /\
  (capture 4 c' = None \/
   exists h m, capture 4 c' = Some h /\ capture 5 c' = Some m /\
               digits 1 2 h /\ digits 2 2 m).
Proof.
  unfold Api.timePattern, Api.meridiem. cbn [seq]. intro H. unseq_by Matches_Seq_inv H.
  repeat match goal with
         | Ho : Matches (opt _) _ _ _ |- _ =>
             apply Matches_opt_inv in Ho as [[_ ?]|Ho]
         | Ho : Matches (Seq _ _) _ _ _ |- _ => unseq_by Matches_Seq_inv Ho
         | Ho : Matches (Grp 3 _) _ _ _ |- _ =>
             apply Matches_Grp_inv in Ho as (? & ? & Ho);
             apply capture_free_keeps in Ho; [|reflexivity]
         | Ho : Matches (Grp 6 _) _ _ _ |- _ =>
             apply Matches_Grp_inv in Ho as (? & ? & Ho);
             apply capture_free_keeps in Ho; [|reflexivity]
         end;
    leaves_by Matches_Grp_inv Matches_times Matches_meridiem
      capture_free_keeps; subst; unfold digits; cbn [capture Nat.eqb];
    (split; [do 2 eexists; repeat split; eauto; lia|]);
    first [left; reflexivity|right; do 2 eexists; repeat split; eauto; lia].
Qed.

Lemma api_slashRe_captures (s : string) (c' : captures) :
  Matches Api.slashRe s [] c' ->
  exists month day year,
    c' = [(3, year); (2, day); (1, month)]%nat /\
    digits 1 2 month /\ digits 1 2 day /\ digits 2 4 year.
Proof.
  unfold Api.slashRe. cbn [seq]. intro H. unseq_by Matches_Seq_inv H.
  leaves_by Matches_Grp_inv Matches_times Matches_meridiem
    capture_free_keeps. subst.
  do 3 eexists. split; [reflexivity|]. unfold digits. auto.
Qed.

Lemma reads_some (s : string) (lo hi : Z) : reads s lo hi -> exists v, parseInt s = Some v.
Proof. intros (v & E & _). now exists v. Qed.

Lemma expanded_year_reads (year : string) :
  digits 2 4 year ->
  exists y, parseInt (if Nat.eqb (length year) 2 then "20" ++ year else year) = Some y.
Proof.
  intro Hy. destruct (Nat.eqb_spec (length year) 2) as [E|E].
  - apply (reads_some _ 2000 2099). apply reads_century.
    destruct Hy as [Hall _]. split; [exact Hall|lia].
  - destruct (parseInt_digits 2 4 year ltac:(lia) Hy) as (v & Ev & _). now exists v.
Qed.

(** The date text is given up exactly when neither the engine nor the
    pattern of numeric dates reads it. *)
Lemma api_resolveDate_none (Date_parse : string -> option Z) (tza : Z) (dateStr : string) :
  let cleaned := trim (replace_all (chr ",") "" dateStr) in
  Api.resolveDate Date_parse tza dateStr = None <->
  Date_parse cleaned = None /\ match_first Api.slashRe cleaned = None.
Proof.
  intro cleaned. unfold Api.resolveDate. fold cleaned.
  destruct (Date_parse cleaned) as [date|].
  { split; [discriminate|intros [H _]; discriminate]. }
  destruct (match_first Api.slashRe cleaned) as [m|] eqn:Em.
  2:{ split; auto. }
  apply match_first_found in Em as (pre & rest & _ & _ & _ & Hm).
  apply api_slashRe_captures in Hm as (month & day & year & Hc & Hmo & Hd & Hy).
  unfold group. rewrite Hc. cbn [capture Nat.eqb].
  destruct (expanded_year_reads year Hy) as (y & ->).
  destruct (parseInt_digits 1 2 month ltac:(lia) Hmo) as (mo & -> & _).
  destruct (parseInt_digits 1 2 day ltac:(lia) Hd) as (dd & -> & _).
  split; [discriminate|intros [_ H]; discriminate].
Qed.

Lemma api_clockOn_total (tza date : Z) (tm : MatchResult) :
  Matches Api.timePattern (matched tm) [] (groups tm) ->
  (exists s, Api.clockOn tza date tm 1 2 3 = Some s) /\
  (truthy (group 4 tm) = true -> exists e, Api.clockOn tza date tm 4 5 6 = Some e).
Proof.
  intro Hm. apply api_timePattern_captures in Hm
    as [(h & m & H1 & H2 & Hh & Hmi) Hend].
  unfold Api.clockOn, group. split.
  - rewrite H1, H2.
    destruct (parseInt_digits 1 2 h ltac:(lia) Hh) as (hv & -> & _).
    destruct (parseInt_digits 2 2 m ltac:(lia) Hmi) as (mv & -> & _).
    eexists. reflexivity.
  - destruct Hend as [H4|(h2 & m2 & H4 & H5 & Hh2 & Hm2)]; rewrite H4.
    + discriminate.
    + intros _. rewrite H5.
      destruct (parseInt_digits 1 2 h2 ltac:(lia) Hh2) as (hv & -> & _).
      destruct (parseInt_digits 2 2 m2 ltac:(lia) Hm2) as (mv & -> & _).
      eexists. reflexivity.
Qed.

(** In api/calendar.js a candidate, a date text with a time match near
    it, is dropped for its date only: [parseAppointment] returns [null]
    exactly when neither the [Date] constructor of the engine nor the
    pattern of numeric dates reads the date text.  The time match never
    makes it fail: its captures are digits, on which [parseInt] is a
    number. *)
Theorem api_drops_for_the_date_only :
  forall (Date_parse : string -> option Z) (tza : Z)
         (text dateStr contextText : string) (from : nat) (timeMatch : MatchResult),
    exec_at Api.timePattern text from = Some timeMatch ->
    let cleaned := trim (replace_all (chr ",") "" dateStr) in
    Api.parseAppointment Date_parse tza dateStr timeMatch contextText = None <->
    Date_parse cleaned = None /\ match_first Api.slashRe cleaned = None.
Proof.
  intros Date_parse tza text dateStr contextText from timeMatch Hexec cleaned.
  unfold cleaned. pose proof (api_resolveDate_none Date_parse tza dateStr) as Hres.
  cbv zeta in Hres. rewrite <- Hres. clear Hres.
  apply exec_at_found in Hexec as [(pre & rest & _ & _ & _ & Hm) _].
  unfold Api.parseAppointment.
  destruct (Api.resolveDate Date_parse tza dateStr) as [date|]; [|tauto].
  destruct (api_clockOn_total tza date timeMatch Hm) as [(s & ->) Hend].
  destruct (truthy (group 4 timeMatch)).
  - destruct (Hend eq_refl) as (e & ->). split; discriminate.
  - split; discriminate.
Qed.

Lemma api_drops_witness :
  exists timeMatch,
    exec_at Api.timePattern "9:30am" 0 = Some timeMatch /\
    (Api.parseAppointment iso_only_parse 0 "Jan 5" timeMatch "" = None <->
     iso_only_parse "Jan 5" = None /\ match_first Api.slashRe "Jan 5" = None).
Proof.
  eexists. split; [vm_compute; reflexivity|].
  apply (api_drops_for_the_date_only iso_only_parse 0 "9:30am" "Jan 5" "" 0).
  vm_compute. reflexivity.
Defined.

(** ** No roll-over past midnight *)

Lemma setHours_difference (tza date h1 m1 h2 m2 : Z) :
  setHours tza date h2 m2 0 0 - setHours tza date h1 m1 0 0
  = (h2 * 60 + m2 - (h1 * 60 + m1)) * 60000.
Proof.
  unfold setHours, UTC, MakeDate, MakeTime, msPerHour, msPerMinute, msPerSecond, msPerDay.
  lia.
Qed.



(** ** A page without bookings empties the feed *)

(** A page on which the extractor finds nothing is not an error: with a
    valid token and no fresh cache, the serverless handler answers 200,
    marked MISS, with the calendar without events, and puts that
    document in the place of whatever the cache held. *)
Theorem api_empty_page_replaces_cache :
  forall (Date_parse : string -> option Z) (tza : Z)
         (ical_toString : ICal.Calendar -> string)
         (config : Api.Config) (req : Api.Request) (up : Upstream string) (w : World)
         (secret html : string),
    secret <> "" -> Api.calendarToken config = Some secret ->
    Api.token req = Some secret ->
    api_ready config = true -> is_hit (Api.refresh req) w = false ->
    outcome up = Ok html ->
    Api.extractAppointmentsFromHTML Date_parse tza html = [] ->
    let empty := ical_toString (api_empty_calendar (Api.calendarName config)) in
    exists w',
      Api.handler Date_parse tza ical_toString config req up w
      = (Ok (miss_response empty), w') /\
      cachedICS w' = Some empty /\ cacheTime w' = clock w.
Proof.
  intros Date_parse tza ical_toString config req up w secret html
         Hs Hc Ht Hready Hhit Hup Hempty empty.
  rewrite (api_handler_valid Date_parse tza ical_toString config req up w secret Hs Hc Ht).
  destruct (api_serve_regenerates Date_parse tza ical_toString config req up
              (compared w (Buffer_from secret) (Buffer_from secret)) html Hhit Hready Hup)
    as (calendar & Hbuild & ->).
  rewrite Hempty in Hbuild. injection Hbuild as <-.
  eexists. split; [reflexivity|]. split; reflexivity.
Qed.

Lemma api_empty_page_witness :
  let w := cached_world "BEGIN:VCALENDAR;UID:1;END:VCALENDAR" (20 * 60 * 1000) in
  let req := Api.mkRequest (Some "abcd") None in
  let up := mkUpstream 1500 (Ok "<html><body>Please sign in</body></html>") in
  let empty := sample_toString (api_empty_calendar (Api.calendarName sample_config)) in
  exists w',
    Api.handler iso_only_parse 0 sample_toString sample_config req up w
    = (Ok (miss_response empty), w') /\
    cachedICS w' = Some empty /\ cacheTime w' = clock w.
Proof.
  intros w req up empty.
  apply (api_empty_page_replaces_cache iso_only_parse 0 sample_toString sample_config
           req up w "abcd" "<html><body>Please sign in</body></html>");
    first [discriminate|reflexivity|vm_compute; reflexivity].
Defined.

(** ** Once a calendar was generated, the feed stays available *)

Section Availability.

Variable Date_parse : string -> option Z.
Variable tza : Z.
Variable ical_toString : ICal.Calendar -> string.
Hypothesis ical_nonempty : forall c, ical_toString c <> "".

Lemma cached_doc (w : World) :
  truthy (cachedICS w) = true -> or_default (cachedICS w) "" <> "".
Proof.
  intro H. apply truthy_inv in H as (doc & E & Hne). rewrite E.
  now rewrite (or_default_Some _ _ Hne).
Qed.

Lemma api_serve_available config req up w :
  truthy (cachedICS w) = true ->
  exists r w',
    Api.serve Date_parse tza ical_toString config req up w = (Ok r, w') /\
    truthy (cachedICS w') = true /\ serves_calendar (Ok r).
Proof.
  intro Hcache. pose proof (cached_doc w Hcache) as Hdoc.
  destruct (is_hit (Api.refresh req) w) eqn:Hhit.
  - rewrite (api_serve_hit _ _ _ _ _ _ _ Hhit). eexists _, _.
    split; [reflexivity|]. split; [exact Hcache|]. eexists _, _. split; [reflexivity|exact Hdoc].
  - destruct (api_ready config) eqn:Hready.
    + destruct (outcome up) as [html|message] eqn:Hup.
      * destruct (api_serve_regenerates Date_parse tza ical_toString _ req _ w _ Hhit Hready Hup)
          as (c & _ & ->).
        eexists _, _. split; [reflexivity|]. split.
        -- simpl. apply truthy_Some, ical_nonempty.
        -- eexists _, _. split; [reflexivity|apply ical_nonempty].
      * rewrite (api_serve_fetch_fails _ _ _ _ _ _ _ _ Hhit Hready Hup).
        eexists _, _. split; [reflexivity|]. split; [exact Hcache|].
        unfold api_fallback. rewrite Hcache. eexists _, _. split; [reflexivity|exact Hdoc].
    + rewrite (api_serve_unready _ _ _ _ _ _ _ Hhit Hready).
      eexists _, _. split; [reflexivity|]. split; [exact Hcache|].
      unfold api_fallback. rewrite Hcache. eexists _, _. split; [reflexivity|exact Hdoc].
Qed.

Lemma server_serve_available config req up w :
  truthy (cachedICS w) = true ->
  exists r w',
    Server.serve tza ical_toString config req up w = (Ok r, w') /\
    truthy (cachedICS w') = true /\ serves_calendar (Ok r).
Proof.
  intro Hcache. pose proof (cached_doc w Hcache) as Hdoc.
  destruct (is_hit (Server.refresh req) w) eqn:Hhit.
  - rewrite (server_serve_hit _ _ _ _ _ _ Hhit). eexists _, _.
    split; [reflexivity|]. split; [exact Hcache|]. eexists _, _. split; [reflexivity|exact Hdoc].
  - destruct (outcome up) as [raws|message] eqn:Hup.
    + rewrite (server_serve_regenerates _ _ _ _ _ _ _ Hhit Hup).
      eexists _, _. split; [reflexivity|]. split.
      * simpl. apply truthy_Some, ical_nonempty.
      * eexists _, _. split; [reflexivity|].
        rewrite or_default_Some by apply ical_nonempty. apply ical_nonempty.
    + rewrite (server_serve_fetch_fails _ _ _ _ _ _ _ Hhit Hup).
      eexists _, _. split; [reflexivity|]. split; [exact Hcache|].
      unfold server_fallback. rewrite Hcache. eexists _, _. split; [reflexivity|exact Hdoc].
Qed.

Lemma api_handler_available config req up w secret :
  Api.calendarToken config = Some secret -> secret <> "" ->
  truthy (cachedICS w) = true ->
  exists r w',
    Api.handler Date_parse tza ical_toString config req up w = (r, w') /\
    truthy (cachedICS w') = true /\
    (Api.token req = Some secret -> serves_calendar r) /\
    (Api.token req <> Some secret -> refuses r).
Proof.
  intros Hc Hs Hcache.
  rewrite (api_handler_gate Date_parse tza ical_toString config req up w secret Hc Hs).
  set (provided := or_default (Api.token req) "").
  pose proof (or_default_token (Api.token req) secret Hs) as Htok. fold provided in Htok.
  destruct (Nat.eqb_spec (length secret) (length provided)) as [Hlen|Hlen].
  - destruct (String.eqb_spec secret provided) as [Heq|Hneq].
    + destruct (api_serve_available config req up
                  (compared w (Buffer_from secret) (Buffer_from provided)) Hcache)
        as (r & w' & -> & Hc' & Hr).
      exists (Ok r), w'. split; [reflexivity|]. split; [exact Hc'|].
      split; [intros _; exact Hr|].
      intro H. exfalso. apply H, Htok. now symmetry.
    + eexists _, _. split; [reflexivity|]. split; [exact Hcache|]. split.
      * intro H. apply Htok in H. now contradiction Hneq.
      * intros _. eexists. reflexivity.
  - eexists _, _. split; [reflexivity|]. split; [exact Hcache|]. split.
    + intro H. apply Htok in H. rewrite H in Hlen. now contradiction Hlen.
    + intros _. eexists. reflexivity.
Qed.

Lemma server_route_available config req up w secret :
  Server.calendarToken config = Some secret -> secret <> "" ->
  truthy (cachedICS w) = true ->
  exists r w',
    Server.get_calendar tza ical_toString config req up w = (r, w') /\
    truthy (cachedICS w') = true /\
    (Server.token req = secret -> serves_calendar r) /\
    (Server.token req <> secret -> refuses r).
Proof.
  intros Hc Hs Hcache.
  rewrite (server_route_gate tza ical_toString config req up w secret Hc Hs).
  destruct (String.eqb_spec secret (Server.token req)) as [Heq|Hneq].
  - destruct (server_serve_available config req up w Hcache) as (r & w' & -> & Hc' & Hr).
    exists (Ok r), w'. split; [reflexivity|]. split; [exact Hc'|].
    split; [intros _; exact Hr|]. intro H. now contradiction H.
  - eexists _, _. split; [reflexivity|]. split; [exact Hcache|]. split.
    + intro H. now contradiction Hneq.
    + intros _. eexists. reflexivity.
Qed.

Lemma run_available {Req Page : Type}
    (handle : Req -> Upstream Page -> M Response) (valid : Req -> Prop) :
  (forall req up w, truthy (cachedICS w) = true ->
     exists r w', handle req up w = (r, w') /\ truthy (cachedICS w') = true /\
                  (valid req -> serves_calendar r) /\ (~ valid req -> refuses r)) ->
  forall arrivals w, truthy (cachedICS w) = true ->
    Forall2 (fun a r => (valid (request a) -> serves_calendar r) /\
                        (~ valid (request a) -> refuses r))
            arrivals (fst (run handle arrivals w)).
Proof.
  intros Hstep arrivals. induction arrivals as [|a rest IH]; intros w Hcache; simpl.
  - constructor.
  - destruct (Hstep (request a) (upstream a) (at_time w (clock w + wait a)) Hcache)
      as (r & w1 & -> & Hc1 & Hv & Hn).
    specialize (IH w1 Hc1). destruct (run handle rest w1) as [rs w2].
    simpl in *. constructor; [now split|exact IH].
Qed.

End Availability.


(** ** Further properties of the panels *)

(** A save from the Express panel never removes the admin password or
    the calendar token: a blank field keeps the stored value, so a panel
    that is protected stays protected and a feed that has a token keeps
    one.  The other settings are overwritten by whatever was posted. *)
Theorem express_save_keeps_secrets :
  forall (now : Z) (entropy : ServerAdmin.Entropy) (req : ServerAdmin.Request)
         (st : ServerAdmin.State) (token : string),
    ServerAdmin.action (ServerAdmin.body req) = Some "save" ->
    Web.get "session" (Web.parseCookies (ServerAdmin.cookie req)) = Some token ->
    token <> "" -> live (ServerAdmin.sessions st) token now ->
    let form := ServerAdmin.body req in
    let '(reply, st1) := ServerAdmin.post_admin now entropy req st in
    reply = ServerAdmin.Redirects "/admin?saved=1" None /\
    (truthy (ServerAdmin.adminPassword (ServerAdmin.config st)) = true ->
     truthy (ServerAdmin.adminPassword (ServerAdmin.config st1)) = true) /\
    (truthy (ServerAdmin.calendarToken (ServerAdmin.config st)) = true ->
     truthy (ServerAdmin.calendarToken (ServerAdmin.config st1)) = true) /\
    ServerAdmin.appointyEmail (ServerAdmin.config st1) = ServerAdmin.f_appointyEmail form /\
    ServerAdmin.appointyPassword (ServerAdmin.config st1) = ServerAdmin.f_appointyPassword form /\
    ServerAdmin.appointyBookingUrl (ServerAdmin.config st1)
    = ServerAdmin.f_appointyBookingUrl form /\
    ServerAdmin.calendarName (ServerAdmin.config st1) = ServerAdmin.f_calendarName form /\
    ServerAdmin.sessions st1 = ServerAdmin.sessions st.
Proof.
  intros now entropy req st token Hact Hc Hne Hlive form.
  unfold ServerAdmin.post_admin. fold form.
  rewrite Hc, (isLoggedIn_live _ _ _ Hne Hlive). unfold form. rewrite Hact.
  cbn [strict_eq String.eqb Ascii.eqb Bool.eqb andb ServerAdmin.config ServerAdmin.sessions
       ServerAdmin.adminPassword ServerAdmin.calendarToken ServerAdmin.appointyEmail
       ServerAdmin.appointyPassword ServerAdmin.appointyBookingUrl ServerAdmin.calendarName].
  split; [reflexivity|]. split; [|split].
  - destruct (truthy (ServerAdmin.f_adminPassword (ServerAdmin.body req))) eqn:E; auto.
  - destruct (truthy (ServerAdmin.f_calendarToken (ServerAdmin.body req))) eqn:E; auto.
  - repeat split; reflexivity.
Qed.

Lemma express_save_witness :
  let st := ServerAdmin.mkState sample_stored [("c0ffee42", noon)] in
  let req := express_request (Some "session=c0ffee42") (express_form "save" None) in
  let '(reply, st1) := ServerAdmin.post_admin one_o_clock sample_entropy req st in
  reply = ServerAdmin.Redirects "/admin?saved=1" None /\
  (truthy (ServerAdmin.adminPassword (ServerAdmin.config st)) = true ->
   truthy (ServerAdmin.adminPassword (ServerAdmin.config st1)) = true) /\
  (truthy (ServerAdmin.calendarToken (ServerAdmin.config st)) = true ->
   truthy (ServerAdmin.calendarToken (ServerAdmin.config st1)) = true) /\
  ServerAdmin.appointyEmail (ServerAdmin.config st1) = None /\
  ServerAdmin.appointyPassword (ServerAdmin.config st1) = None /\
  ServerAdmin.appointyBookingUrl (ServerAdmin.config st1) = None /\
  ServerAdmin.calendarName (ServerAdmin.config st1) = None /\
  ServerAdmin.sessions st1 = ServerAdmin.sessions st.
Proof.
  intros st req.
  apply (express_save_keeps_secrets one_o_clock sample_entropy req st "c0ffee42");
    first [ reflexivity | discriminate
          | split; [discriminate|reflexivity]
          | unfold noon, one_o_clock; lia
          | exists noon; split; [reflexivity|];
            split; [discriminate|unfold noon, one_o_clock; lia] ].
Defined.

(** ** Instances of the theorems on the panels *)

Lemma express_login_witness :
  let st := ServerAdmin.mkState sample_stored [] in
  let req := express_request None (express_form "login" (Some "opensesame")) in
  let req' := express_request (Some "session=c0ffee42") (express_form "" None) in
  let '(reply, st1) := ServerAdmin.post_admin noon sample_entropy req st in
  reply = ServerAdmin.Redirects "/admin"
            (Some "session=c0ffee42; Path=/; HttpOnly; Max-Age=86400") /\
  ServerAdmin.config st1 = sample_stored /\
  ServerAdmin.get_admin one_o_clock req' st1
  = (ServerAdmin.Shows (ServerAdmin.AdminPage sample_stored req'), st1).
Proof.
  intros st req req'.
  apply (express_login_opens_panel noon one_o_clock sample_entropy req req' st "opensesame");
    first [ reflexivity | discriminate
          | split; [discriminate|reflexivity]
          | unfold noon, one_o_clock; lia
          | exists noon; split; [reflexivity|];
            split; [discriminate|unfold noon, one_o_clock; lia] ].
Defined.

Lemma express_setup_witness :
  let st := ServerAdmin.mkState sample_stored [] in
  let form := ServerAdmin.mkForm (Some "setup") None (Some "intruder") None None None None None in
  let req := express_request None form in
  let feed := Server.mkRequest "abcd" None in
  let up := mkUpstream 0 (Ok sample_raws) in
  let '(reply, st1) := ServerAdmin.post_admin noon sample_entropy req st in
  reply = ServerAdmin.Redirects "/admin"
            (Some (ServerAdmin.sessionCookie "c0ffee42")) /\
  ServerAdmin.adminPassword (ServerAdmin.config st1) = Some "intruder" /\
  ServerAdmin.calendarToken (ServerAdmin.config st1) = Some "5f2a9c" /\
  Web.get "c0ffee42" (ServerAdmin.sessions st1) = Some noon /\
  ("abcd" <> "5f2a9c" ->
   Server.get_calendar 0 sample_toString
     (ServerAdmin.calendar_config (ServerAdmin.config st1)) feed up fresh_world
   = (Ok invalid_token_text, fresh_world)).
Proof.
  intros st form req feed up.
  apply (express_setup_is_open 0 sample_toString noon sample_entropy req st feed up
           fresh_world); [reflexivity|discriminate].
Defined.

Lemma express_logout_witness :
  let st := ServerAdmin.mkState sample_stored [("c0ffee42", noon)] in
  let req := express_request (Some "session=c0ffee42") (express_form "logout" None) in
  let req' := express_request (Some "theme=dark; session=c0ffee42") (express_form "" None) in
  let '(reply, st1) := ServerAdmin.post_admin noon sample_entropy req st in
  reply = ServerAdmin.Redirects "/admin" (Some "session=; Path=/; HttpOnly; Max-Age=0") /\
  st1 = st /\
  ServerAdmin.get_admin one_o_clock req' st1
  = (ServerAdmin.Shows (ServerAdmin.AdminPage sample_stored req'), st).
Proof.
  intros st req req'.
  apply (express_logout_keeps_session noon one_o_clock sample_entropy req req' st "c0ffee42");
    first [ reflexivity | discriminate
          | split; [discriminate|reflexivity]
          | unfold noon, one_o_clock; lia
          | exists noon; split; [reflexivity|];
            split; [discriminate|unfold noon, one_o_clock; lia] ].
Defined.

Lemma api_logout_witness :
  let st := ApiAdmin.mkState None [("c0ffee42", noon)] in
  let req := api_request "POST" (Some "admin_session=c0ffee42")
                         (Some (api_form "logout" None)) in
  let req' := api_request "GET" (Some "admin_session=c0ffee42") None in
  let '(reply, st1) := ApiAdmin.handler sample_env ApiAdmin.Answers noon "5f2a9c" "77aa" req st in
  reply = Ok (ApiAdmin.Redirects 302 "/api/admin"
                (Some "admin_session=; Path=/; HttpOnly; Max-Age=0")) /\
  ApiAdmin.stored st1 = ApiAdmin.stored st /\
  Web.get "c0ffee42" (ApiAdmin.sessions st1) = None /\
  ApiAdmin.handler sample_env ApiAdmin.Answers one_o_clock "5f2a9c" "77aa" req' st1
  = (Ok (ApiAdmin.Shows (ApiAdmin.LoginPage "")), st1).
Proof.
  intros st req req'.
  apply (api_logout_ends_session sample_env ApiAdmin.Answers ApiAdmin.Answers noon one_o_clock
           "5f2a9c" "77aa" "5f2a9c" "77aa" req req' (api_form "logout" None) st "c0ffee42");
    first [reflexivity|discriminate].
Defined.

Lemma api_login_witness :
  let st := ApiAdmin.mkState None [("0ld", 1)] in
  let req := api_request "POST" None (Some (api_form "login" (Some "opensesame"))) in
  let req' := api_request "GET" (Some "admin_session=c0ffee42") None in
  let '(reply, st1) :=
    ApiAdmin.handler sample_env ApiAdmin.Answers noon "5f2a9c" "c0ffee42" req st in
  reply = Ok (ApiAdmin.Redirects 302 "/api/admin"
                (Some "admin_session=c0ffee42; Path=/; HttpOnly; SameSite=Strict; Max-Age=86400")) /\
  (forall t t0, Web.get t (ApiAdmin.sessions st1) = Some t0 -> noon - t0 <= 86400000) /\
  ApiAdmin.handler sample_env ApiAdmin.Answers one_o_clock "5f2a9c" "77aa" req' st1
  = (Ok (ApiAdmin.Shows (ApiAdmin.AdminPage None "https://feed.example" false)), st1).
Proof.
  intros st req req'.
  apply (api_login_opens_panel sample_env noon one_o_clock "5f2a9c" "c0ffee42" "5f2a9c" "77aa"
           req req' (api_form "login" (Some "opensesame")) st);
    first [ reflexivity | discriminate
          | split; [discriminate|reflexivity]
          | unfold noon, one_o_clock; lia
          | exists noon; split; [reflexivity|];
            split; [discriminate|unfold noon, one_o_clock; lia] ].
Defined.

Lemma api_save_witness :
  let st := ApiAdmin.mkState None [("c0ffee42", noon)] in
  let req := api_request "POST" (Some "admin_session=c0ffee42")
                         (Some (api_form "save" None)) in
  let feed := Api.mkRequest (Some "from-env") None in
  let up := mkUpstream 0 (Ok sample_html) in
  let '(reply, st1) :=
    ApiAdmin.handler sample_env ApiAdmin.Answers one_o_clock "5f2a9c" "77aa" req st in
  reply = Ok (ApiAdmin.Redirects 302 "/api/admin?saved=1" None) /\
  ApiAdmin.stored st1
  = Some (ApiAdmin.newConfig one_o_clock "5f2a9c" (api_form "save" None)) /\
  "5f2a9c" <> "" /\
  exists r w',
    api_feed iso_only_parse 0 sample_toString sample_env ApiAdmin.Answers st1 feed up
      fresh_world = (Ok r, w') /\
    (status r <> 403 <-> Api.token feed = Some "5f2a9c").
Proof.
  intros st req feed up.
  apply (api_save_opens_feed iso_only_parse 0 sample_toString sample_env one_o_clock
           "5f2a9c" "77aa" req (api_form "save" None) st "c0ffee42" feed up fresh_world);
    first [ reflexivity | discriminate
          | split; [discriminate|reflexivity]
          | unfold noon, one_o_clock; lia
          | exists noon; split; [reflexivity|];
            split; [discriminate|unfold noon, one_o_clock; lia] ].
Defined.

Lemma health_witness :
  ApiHealth.handler sample_JSON_parse sample_probe sample_env noon (Ok (Some "A"))
  = ApiHealth.handler sample_JSON_parse sample_probe sample_env noon (Ok (Some "B")).
Proof.
  apply (health_hides_the_values sample_JSON_parse sample_probe sample_env noon "A" "B"
           (Api.mkConfig (Some "me@example.com") (Some "hunter2") None
                         (Some "http://flaresolverr:8191") (Some "abcd") None)
           (Api.mkConfig (Some "you@example.org") (Some "correct horse") None
                         (Some "http://10.0.0.7:8191") (Some "wxyz") None));
    first [discriminate|reflexivity].
Defined.


Lemma cookies_witness :
  Web.get "session" (Web.parseCookies (Some ("session" ++ "=" ++ "c0ffee42")))
  = Some "c0ffee42" /\
  Web.get "session" (Web.parseCookies (Some (" " ++ "session" ++ "=" ++ "c0ffee42")))
  = Some "c0ffee42" /\
  (forall (first second : string),
      Web.get "session" (Web.parseCookies (Some (first ++ ";" ++ second)))
      = match Web.get "session" (Web.parseCookies (Some second)) with
        | Some v => Some v
        | None => Web.get "session" (Web.parseCookies (Some first))
        end).
Proof.
  apply (cookies_are_read_back "session" "c0ffee42");
    [now left|split; [discriminate|reflexivity]].
Defined.

(** ** From the page to the calendar of the serverless handler *)

Lemma api_addEvents_starts (appointments : list Appointment) :
  forall c c',
    Api.addEvents c appointments = Ok c' ->
    map (fun e => Some (ICal.ev_start e)) (ICal.events c')
    = (map (fun e => Some (ICal.ev_start e)) (ICal.events c) ++ map start appointments)%list /\
    map ICal.summary (ICal.events c')
    = (map ICal.summary (ICal.events c) ++ map title appointments)%list.
Proof.
  induction appointments as [|a l IH]; intros c c'; simpl.
  - intro H. injection H as <-. now rewrite !app_nil_r.
  - unfold Api.addEvent.
    destruct (start a) as [s|] eqn:Es; [|discriminate].
    destruct (end_ a) as [t|]; [|discriminate].
    intro H. apply IH in H as [H1 H2]. rewrite H1, H2. simpl.
    rewrite !map_app. simpl. rewrite <- !app_assoc. simpl. now split.
Qed.


(** ** The requests to FlareSolverr *)

Lemma strict_eq_ok (x : option string) :
  strict_eq x "ok" = true <-> x = Some "ok".
Proof.
  destruct x as [s|]; simpl; [|split; discriminate].
  split; [intro H; apply String.eqb_eq in H; now subst|].
  intro H. injection H as ->. reflexivity.
Qed.

Lemma strict_eq_not_ok (x : option string) :
  strict_eq x "ok" = false <-> x <> Some "ok".
Proof.
  rewrite <- strict_eq_ok. destruct (strict_eq x "ok"); split; congruence.
Qed.

Lemma answered_app (fetch : nat -> Flare.Call -> Result Flare.Answer)
    (calls : list Flare.Call) (call : Flare.Call) (m : nat) (b : Flare.Answer) :
  answered fetch (calls ++ [call])%list m b ->
  answered fetch calls m b \/ (m = List.length calls /\ fetch m call = Ok b).
Proof.
  intros (c & Hnth & Hf).
  destruct (Nat.lt_ge_cases m (List.length calls)) as [Hlt|Hge].
  - left. exists c. rewrite nth_error_app1 in Hnth by exact Hlt. now split.
  - right. rewrite nth_error_app2 in Hnth by exact Hge.
    destruct (m - List.length calls)%nat as [|k] eqn:E.
    + simpl in Hnth. injection Hnth as <-. split; [lia|exact Hf].
    + simpl in Hnth. now destruct k.
Qed.

Lemma answered_bound (fetch : nat -> Flare.Call -> Result Flare.Answer)
    (calls : list Flare.Call) (m : nat) (b : Flare.Answer) :
  answered fetch calls m b -> (m < List.length calls)%nat.
Proof. intros (c & Hnth & _). apply nth_error_Some. congruence. Qed.

Lemma answered_keep (fetch : nat -> Flare.Call -> Result Flare.Answer)
    (calls : list Flare.Call) (call : Flare.Call) (m : nat) (b : Flare.Answer) :
  answered fetch calls m b -> answered fetch (calls ++ [call])%list m b.
Proof.
  intros (c & Hnth & Hf). exists c. split; [|exact Hf].
  rewrite nth_error_app1; [exact Hnth|]. apply nth_error_Some. congruence.
Qed.

Lemma answered_new (fetch : nat -> Flare.Call -> Result Flare.Answer)
    (calls : list Flare.Call) (call : Flare.Call) (a : Flare.Answer) :
  fetch (List.length calls) call = Ok a ->
  answered fetch (calls ++ [call])%list (List.length calls) a.
Proof.
  intro Hf. exists call. split; [|exact Hf].
  rewrite nth_error_app2, Nat.sub_diag; [reflexivity|lia].
Qed.

(** A call that is refused leaves the last page where it was. *)
Lemma last_page_refused (fetch : nat -> Flare.Call -> Result Flare.Answer)
    (calls : list Flare.Call) (call : Flare.Call) (a : Flare.Answer) (page : string) :
  fetch (List.length calls) call = Ok a -> Flare.status a <> Some "ok" ->
  last_page fetch calls page -> last_page fetch (calls ++ [call])%list page.
Proof.
  intros Hf Hno (n & a0 & s & Hans & Hok & Hs & Hp & Hlast).
  exists n, a0, s. repeat split; try assumption; [now apply answered_keep|].
  intros m b Hlt Hb. apply answered_app in Hb as [Hb|[-> Hb]].
  - now apply (Hlast m b).
  - rewrite Hf in Hb. injection Hb as <-. exact Hno.
Qed.

(** A call that is accepted makes its page the last one. *)
Lemma last_page_accepted (fetch : nat -> Flare.Call -> Result Flare.Answer)
    (calls : list Flare.Call) (call : Flare.Call) (a : Flare.Answer)
    (s : Flare.Solution) (page : string) :
  fetch (List.length calls) call = Ok a -> Flare.status a = Some "ok" ->
  Flare.solution a = Some s -> Flare.response s = Some page ->
  last_page fetch (calls ++ [call])%list page.
Proof.
  intros Hf Hok Hs Hp. exists (List.length calls), a, s.
  repeat split; try assumption; [now apply answered_new|].
  intros m b Hlt Hb. apply answered_bound in Hb. rewrite length_app in Hb. simpl in Hb. lia.
Qed.

Section Conversation.

Variable fetch : nat -> Flare.Call -> Result Flare.Answer.
Variable URL_origin : string -> Result string.
Hypothesis contract : flare_answers fetch URL_origin.

Lemma login_step (config : Api.Config) (calls : list Flare.Call) (page : Flare.Page) :
  in_hand fetch URL_origin calls page ->
  exists page' call,
    Flare.login fetch URL_origin config page calls = (Ok page', (calls ++ [call])%list) /\
    in_hand fetch URL_origin (calls ++ [call])%list page'.
Proof.
  intros (h & u & o & Hh & Hu & Ho & Hlast).
  unfold Flare.login, Flare.bind, Flare.read. rewrite Hh, Hu.
  cbn [ServerPage.text_of Flare.ret].
  set (loginUrl := match match_first Flare.formPattern h with
                   | Some formMatch => ServerPage.text_of (group 1 formMatch)
                   | None => u
                   end).
  assert (Hurl : exists target,
             (if String.prefix "/" loginUrl
              then Flare.bind (Flare.lift (URL_origin u))
                     (fun origin => Flare.ret (origin ++ loginUrl))
              else Flare.ret loginUrl) calls = (Ok target, calls)).
  { destruct (String.prefix "/" loginUrl).
    - unfold Flare.bind, Flare.lift. rewrite Ho. now eexists.
    - now eexists. }
  destruct Hurl as [target Hurl]. unfold Flare.bind in Hurl. rewrite Hurl.
  unfold Flare.post.
  set (call := Flare.mkCall _ _).
  destruct (contract (List.length calls) call) as (a & Hf & Hsolved).
  rewrite Hf.
  destruct (strict_eq (Flare.status a) "ok") eqn:Hst.
  - apply strict_eq_ok in Hst. destruct (Hsolved Hst) as (s & p' & u' & o' & Hs & Hp & Hu' & Ho').
    rewrite Hs. exists (Flare.ofSolution s), call. split; [reflexivity|].
    exists p', u', o'. repeat split; try assumption.
    now apply (last_page_accepted fetch calls call a s).
  - apply strict_eq_not_ok in Hst. exists page, call. split; [reflexivity|].
    exists h, u, o. repeat split; try assumption.
    now apply (last_page_refused fetch calls call a).
Qed.

Lemma navigate_step (config : Api.Config) (calls : list Flare.Call) (page : Flare.Page) :
  in_hand fetch URL_origin calls page ->
  exists page' calls',
    Flare.navigate fetch config page calls = (Ok page', calls') /\
    in_hand fetch URL_origin calls' page' /\
    (List.length calls <= List.length calls' <= S (List.length calls))%nat /\
    (forall n, (n < List.length calls)%nat -> nth_error calls' n = nth_error calls n).
Proof.
  intros (h & u & o & Hh & Hu & Ho & Hlast).
  unfold Flare.navigate, Flare.bind, Flare.read. rewrite Hu. cbn [Flare.ret].
  destruct (negb (Flare.includes "my-bookings" u)).
  - unfold Flare.post. set (call := Flare.mkCall _ _).
    destruct (contract (List.length calls) call) as (a & Hf & Hsolved).
    rewrite Hf.
    assert (Hlen : (List.length calls <= List.length (calls ++ [call])%list
                    <= S (List.length calls))%nat).
    { rewrite length_app. simpl. lia. }
    assert (Hnth : forall n, (n < List.length calls)%nat ->
                             nth_error (calls ++ [call])%list n = nth_error calls n).
    { intros n Hn. now apply nth_error_app1. }
    destruct (strict_eq (Flare.status a) "ok") eqn:Hst.
    + apply strict_eq_ok in Hst.
      destruct (Hsolved Hst) as (s & p' & u' & o' & Hs & Hp & Hu' & Ho').
      rewrite Hs. eexists _, _. split; [reflexivity|]. split; [|now split].
      exists p', u', o'. repeat split; try assumption.
      now apply (last_page_accepted fetch calls call a s).
    + apply strict_eq_not_ok in Hst.
      eexists _, _. split; [reflexivity|]. split; [|now split].
      exists h, u, o. repeat split; try assumption.
      now apply (last_page_refused fetch calls call a).
  - exists page, calls. split; [reflexivity|]. split; [|split; [lia|reflexivity]].
    now exists h, u, o.
Qed.

Lemma needsLogin_step (calls : list Flare.Call) (page : Flare.Page) :
  in_hand fetch URL_origin calls page ->
  exists needed, Flare.needsLogin page calls = (Ok needed, calls).
Proof.
  intros (h & u & o & Hh & Hu & Ho & Hlast).
  unfold Flare.needsLogin, Flare.bind, Flare.read. rewrite Hu, Hh. cbn [Flare.ret].
  destruct (Flare.includes "login" u || Flare.includes "sign-in" u); now eexists.
Qed.

(** The conversation after a first answer with the status [ok]. *)
Lemma fetchPage_accepted (config : Api.Config) (a : Flare.Answer) :
  fetch 0%nat (first_call config) = Ok a -> Flare.status a = Some "ok" ->
  exists page calls,
    Flare.fetchPage fetch URL_origin config [] = (Ok (Some page), calls) /\
    last_page fetch calls page /\
    (1 <= List.length calls <= 3)%nat /\
    nth_error calls 0 = Some (first_call config).
Proof.
  intros Hf Hok.
  destruct (contract 0%nat (first_call config)) as (a' & Hf' & Hsolved).
  rewrite Hf in Hf'. injection Hf' as <-.
  destruct (Hsolved Hok) as (s & p & u & o & Hs & Hp & Hu & Ho).
  assert (Hhand : in_hand fetch URL_origin [first_call config] (Flare.ofSolution s)).
  { exists p, u, o. repeat split; try assumption.
    now apply (last_page_accepted fetch [] (first_call config) a s). }
  unfold Flare.fetchPage, Flare.bind at 1, Flare.post.
  cbn [List.length app]. fold (first_call config). rewrite Hf.
  rewrite (proj2 (strict_eq_ok _) Hok). cbn [negb].
  unfold Flare.bind at 1, Flare.read. rewrite Hs. cbn [Flare.ret].
  unfold Flare.bind at 1.
  destruct (needsLogin_step _ _ Hhand) as [needed ->].
  unfold Flare.bind at 1.
  assert (Hlogin : exists page1 calls1,
             (if needed then Flare.login fetch URL_origin config (Flare.ofSolution s)
              else Flare.ret (Flare.ofSolution s)) [first_call config]
             = (Ok page1, calls1) /\
             in_hand fetch URL_origin calls1 page1 /\ (1 <= List.length calls1 <= 2)%nat /\
             nth_error calls1 0 = Some (first_call config)).
  { destruct needed.
    - destruct (login_step config _ _ Hhand) as (page1 & call & -> & Hhand1).
      eexists _, _. split; [reflexivity|]. split; [exact Hhand1|]. simpl. split; [lia|reflexivity].
    - eexists _, _. split; [reflexivity|]. split; [exact Hhand|]. simpl. split; [lia|reflexivity]. }
  destruct Hlogin as (page1 & calls1 & -> & Hhand1 & Hlen1 & Hfirst1).
  unfold Flare.bind at 1.
  destruct (navigate_step config _ _ Hhand1) as (page2 & calls2 & -> & Hhand2 & Hlen2 & Hnth2).
  destruct Hhand2 as (h2 & u2 & o2 & Hh2 & Hu2 & Ho2 & Hlast2).
  exists h2, calls2. cbn [Flare.ret]. rewrite Hh2.
  split; [reflexivity|]. split; [exact Hlast2|]. split; [lia|].
  rewrite Hnth2; [exact Hfirst1|lia].
Qed.

(** The conversation after a first answer with another status. *)
Lemma fetchPage_refused (config : Api.Config) (a : Flare.Answer) :
  fetch 0%nat (first_call config) = Ok a -> Flare.status a <> Some "ok" ->
  Flare.fetchPage fetch URL_origin config []
  = (Throw ("FlareSolverr error: " ++ ServerPage.text_of (Flare.message a)),
     [first_call config]).
Proof.
  intros Hf Hno.
  unfold Flare.fetchPage, Flare.bind at 1, Flare.post.
  cbn [List.length app]. fold (first_call config). rewrite Hf.
  now rewrite (proj2 (strict_eq_not_ok _) Hno).
Qed.

End Conversation.

(** A scrape through FlareSolverr, when FlareSolverr answers every call
    and solves what it accepts, makes one to three requests, the first
    one for the bookings page.  It fails only when that first request
    is not answered with the status [ok], with the message of the
    answer; after that a login or a navigation that is refused is not an
    error: the appointments are read off the page of the last request
    that was accepted. *)
Theorem flare_reads_the_last_page :
  forall (fetch : nat -> Flare.Call -> Result Flare.Answer)
         (URL_origin : string -> Result string)
         (Date_parse : string -> option Z) (tza : Z) (config : Api.Config),
    flare_answers fetch URL_origin ->
    let '(result, calls) :=
      Flare.scrapeWithFlaresolverr fetch URL_origin Date_parse tza config [] in
    (1 <= List.length calls <= 3)%nat /\
    nth_error calls 0 = Some (first_call config) /\
    forall a, fetch 0%nat (first_call config) = Ok a ->
      (Flare.status a <> Some "ok" ->
       result = Throw ("FlareSolverr error: " ++ ServerPage.text_of (Flare.message a))) /\
      (Flare.status a = Some "ok" ->
       exists page,
         last_page fetch calls page /\
         result = Ok (Api.extractAppointmentsFromHTML Date_parse tza page)).
Proof.
  intros fetch URL_origin Date_parse tza config Hc.
  destruct (Hc 0%nat (first_call config)) as (a & Hf & _).
  unfold Flare.scrapeWithFlaresolverr, Flare.bind at 1.
  destruct (strict_eq (Flare.status a) "ok") eqn:Hst.
  - apply strict_eq_ok in Hst.
    destruct (fetchPage_accepted fetch URL_origin Hc config a Hf Hst)
      as (page & calls & -> & Hlast & Hlen & Hfirst).
    cbn [Flare.read Flare.bind Flare.ret].
    split; [exact Hlen|]. split; [exact Hfirst|].
    intros a' Hf'. rewrite Hf in Hf'. injection Hf' as <-.
    split; [intro Hno; now contradiction Hno|].
    intros _. now exists page.
  - apply strict_eq_not_ok in Hst.
    rewrite (fetchPage_refused fetch URL_origin config a Hf Hst).
    split; [simpl; lia|]. split; [reflexivity|].
    intros a' Hf'. rewrite Hf in Hf'. injection Hf' as <-.
    split; [reflexivity|]. intro Hok. now contradiction Hst.
Qed.

(** The two descriptions of the scrape agree: the handler that is given
    the conversation as its collaborator gets what
    [scrapeWithFlaresolverr] returns. *)
Lemma flare_upstream_agrees (fetch : nat -> Flare.Call -> Result Flare.Answer)
    (URL_origin : string -> Result string) (Date_parse : string -> option Z) (tza : Z)
    (config : Api.Config) (elapsed : Z) (w : World) :
  fst (Api.scrapeWithFlaresolverr Date_parse tza
         (flare_upstream fetch URL_origin config elapsed) w)
  = fst (Flare.scrapeWithFlaresolverr fetch URL_origin Date_parse tza config []).
Proof.
  unfold Api.scrapeWithFlaresolverr, bind, call_upstream, flare_upstream,
    Flare.scrapeWithFlaresolverr, Flare.bind. cbn [outcome fst].
  destruct (Flare.fetchPage fetch URL_origin config []) as [[[page|]|message] calls];
    reflexivity.
Qed.

(** What the feed makes of the conversation.  With a valid token and no
    fresh cache, the answer of the serverless handler depends on the
    first answer of FlareSolverr only: when it has the status [ok], the
    reply is 200, marked MISS, with the calendar of the last page that
    was accepted, which replaces the cache, whatever became of the login
    and of the navigation; otherwise the reply is the cached document,
    marked STALE, or the status 500 with the message of FlareSolverr. *)
Theorem api_feed_hides_a_refused_login :
  forall (Date_parse : string -> option Z) (tza : Z)
         (ical_toString : ICal.Calendar -> string)
         (fetch : nat -> Flare.Call -> Result Flare.Answer)
         (URL_origin : string -> Result string)
         (config : Api.Config) (req : Api.Request) (w : World)
         (secret : string) (elapsed : Z) (a : Flare.Answer),
    secret <> "" -> Api.calendarToken config = Some secret ->
    Api.token req = Some secret ->
    api_ready config = true -> is_hit (Api.refresh req) w = false ->
    flare_answers fetch URL_origin ->
    fetch 0%nat (first_call config) = Ok a ->
    let up := flare_upstream fetch URL_origin config elapsed in
    let calls := snd (Flare.fetchPage fetch URL_origin config []) in
    (Flare.status a = Some "ok" ->
     exists page calendar w',
       last_page fetch calls page /\
       Api.buildCalendar (Api.extractAppointmentsFromHTML Date_parse tza page)
         (Api.calendarName config) = Ok calendar /\
       Api.handler Date_parse tza ical_toString config req up w
       = (Ok (miss_response (ical_toString calendar)), w') /\
       cachedICS w' = Some (ical_toString calendar) /\ cacheTime w' = clock w) /\
    (Flare.status a <> Some "ok" ->
     exists w',
       Api.handler Date_parse tza ical_toString config req up w
       = (Ok (api_fallback w
                ("FlareSolverr error: " ++ ServerPage.text_of (Flare.message a))), w') /\
       cachedICS w' = cachedICS w /\ cacheTime w' = cacheTime w).
Proof.
  intros Date_parse tza ical_toString fetch URL_origin config req w secret elapsed a
         Hs Hc Ht Hready Hhit Hcontract Hf up calls.
  rewrite (api_handler_valid Date_parse tza ical_toString config req up w secret Hs Hc Ht).
  split.
  - intro Hok.
    destruct (fetchPage_accepted fetch URL_origin Hcontract config a Hf Hok)
      as (page & calls' & Hpage & Hlast & _).
    assert (Hup : outcome up = Ok page).
    { unfold up, flare_upstream. cbn [outcome]. now rewrite Hpage. }
    destruct (api_serve_regenerates Date_parse tza ical_toString config req up
                (compared w (Buffer_from secret) (Buffer_from secret)) page Hhit Hready Hup)
      as (calendar & Hbuild & ->).
    exists page, calendar. eexists. split; [|split; [exact Hbuild|]].
    + unfold calls. now rewrite Hpage.
    + split; [reflexivity|]. split; reflexivity.
  - intro Hno.
    assert (Hup : outcome up
                  = Throw ("FlareSolverr error: " ++ ServerPage.text_of (Flare.message a))).
    { unfold up, flare_upstream. cbn [outcome].
      now rewrite (fetchPage_refused fetch URL_origin config a Hf Hno). }
    rewrite (api_serve_fetch_fails Date_parse tza ical_toString config req up
               (compared w (Buffer_from secret) (Buffer_from secret)) _ Hhit Hready Hup).
    eexists. split; [reflexivity|]. split; reflexivity.
Qed.


(** ** What is sent *)

Lemma loginData_credentials (config : Api.Config) (hiddenFields : Web.Dict string) :
  let data := Flare.loginData config hiddenFields in
  Web.get "email" data = Some (ServerPage.text_of (Api.appointyEmail config)) /\
  Web.get "password" data = Some (ServerPage.text_of (Api.appointyPassword config)) /\
  Web.get "username" data = Some (ServerPage.text_of (Api.appointyEmail config)) /\
  forall name, name <> "email" -> name <> "password" -> name <> "username" ->
               Web.get name data = Web.get name hiddenFields.
Proof.
  unfold Flare.loginData. cbv zeta. repeat split.
  - rewrite !get_set_other by discriminate. apply get_set_same.
  - rewrite get_set_other by discriminate. apply get_set_same.
  - apply get_set_same.
  - intros name He Hp Hu. now rewrite !get_set_other by congruence.
Qed.

Section Requests.

Variable fetch : nat -> Flare.Call -> Result Flare.Answer.
Variable URL_origin : string -> Result string.
Variable config : Api.Config.

Lemma needsLogin_calls (page : Flare.Page) (calls : list Flare.Call) :
  snd (Flare.needsLogin page calls) = calls.
Proof.
  unfold Flare.needsLogin, Flare.bind, Flare.read.
  destruct (Flare.currentUrl page) as [u|]; [|reflexivity]. cbn [Flare.ret].
  destruct (Flare.includes "login" u || Flare.includes "sign-in" u); [reflexivity|].
  now destruct (Flare.html page).
Qed.

Lemma login_calls (page : Flare.Page) (calls : list Flare.Call) :
  let calls' := snd (Flare.login fetch URL_origin config page calls) in
  calls' = calls \/
  exists target hiddenFields,
    calls' = (calls ++ [Flare.mkCall (ServerPage.text_of (Api.flaresolverrUrl config) ++ "/v1")
                          (Flare.request_post target (Flare.loginData config hiddenFields)
                             (Flare.jar page))])%list.
Proof.
  unfold Flare.login, Flare.bind, Flare.read.
  destruct (Flare.html page) as [h|]; [|now left]. cbn [Flare.ret].
  set (loginUrl := match match_first Flare.formPattern h with
                   | Some formMatch => ServerPage.text_of (group 1 formMatch)
                   | None => ServerPage.text_of (Flare.currentUrl page)
                   end).
  destruct (String.prefix "/" loginUrl).
  - unfold Flare.lift.
    destruct (URL_origin (ServerPage.text_of (Flare.currentUrl page))) as [origin|message];
      [|now left].
    right. eexists _, _. unfold Flare.post, Flare.ret, Flare.fail. cbv beta iota zeta.
    match goal with |- context [fetch ?n ?c] => destruct (fetch n c) as [a|message] end;
      [|reflexivity].
    destruct (strict_eq (Flare.status a) "ok"); [|reflexivity].
    now destruct (Flare.solution a).
  - right. eexists _, _. unfold Flare.post, Flare.ret, Flare.fail. cbv beta iota zeta.
    match goal with |- context [fetch ?n ?c] => destruct (fetch n c) as [a|message] end;
      [|reflexivity].
    destruct (strict_eq (Flare.status a) "ok"); [|reflexivity].
    now destruct (Flare.solution a).
Qed.

Lemma navigate_calls (page : Flare.Page) (calls : list Flare.Call) :
  let calls' := snd (Flare.navigate fetch config page calls) in
  calls' = calls \/
  calls' = (calls ++ [Flare.mkCall (ServerPage.text_of (Api.flaresolverrUrl config) ++ "/v1")
                        (Flare.request_get (Api.appointyBookingUrl config)
                           (Flare.jar page))])%list.
Proof.
  unfold Flare.navigate, Flare.bind, Flare.read.
  destruct (Flare.currentUrl page) as [u|]; [|now left]. cbn [Flare.ret].
  destruct (negb (Flare.includes "my-bookings" u)); [|now left].
  right. unfold Flare.post, Flare.ret, Flare.fail. cbv beta iota zeta.
  match goal with |- context [fetch ?n ?c] => destruct (fetch n c) as [a|message] end;
    [|reflexivity].
  destruct (strict_eq (Flare.status a) "ok"); [|reflexivity].
  now destruct (Flare.solution a).
Qed.

Lemma fetchPage_calls :
  conversation config (snd (Flare.fetchPage fetch URL_origin config [])).
Proof.
  unfold conversation, Flare.fetchPage, Flare.bind at 1, Flare.post.
  cbn [List.length app]. fold (first_call config).
  destruct (fetch 0%nat (first_call config)) as [a|message];
    [|exists [], []; repeat split; now left].
  destruct (negb (strict_eq (Flare.status a) "ok"));
    [exists [], []; repeat split; now left|].
  unfold Flare.bind at 1, Flare.read.
  destruct (Flare.solution a) as [s|]; [|exists [], []; repeat split; now left].
  cbn [Flare.ret]. unfold Flare.bind at 1.
  pose proof (needsLogin_calls (Flare.ofSolution s) [first_call config]) as Hneeds.
  destruct (Flare.needsLogin (Flare.ofSolution s) [first_call config])
    as [[needed|message] calls0]; cbn [snd] in Hneeds; subst calls0;
    [|exists [], []; repeat split; now left].
  unfold Flare.bind at 1.
  assert (Hlogin : exists posts,
             snd ((if needed then Flare.login fetch URL_origin config (Flare.ofSolution s)
                   else Flare.ret (Flare.ofSolution s)) [first_call config])
             = (first_call config :: posts) /\ one_login config posts).
  { destruct needed; [|exists []; split; [reflexivity|now left]].
    destruct (login_calls (Flare.ofSolution s) [first_call config])
      as [->|(target & hiddenFields & ->)].
    - exists []. split; [reflexivity|now left].
    - eexists. split; [reflexivity|]. right. now eexists _, _, _. }
  destruct Hlogin as (posts & Hcalls & Hposts).
  destruct ((if needed then Flare.login fetch URL_origin config (Flare.ofSolution s)
             else Flare.ret (Flare.ofSolution s)) [first_call config])
    as [[page1|message] calls1]; cbn [snd] in Hcalls; subst calls1;
    [|exists posts, []; rewrite app_nil_r; repeat split; [exact Hposts|now left]].
  unfold Flare.bind at 1.
  destruct (navigate_calls page1 (first_call config :: posts)) as [Hnav|Hnav];
    destruct (Flare.navigate fetch config page1 (first_call config :: posts))
      as [[page2|message] calls2]; cbn [snd] in Hnav; subst calls2; cbn [Flare.ret snd].
  - exists posts, []. rewrite app_nil_r. repeat split; [exact Hposts|now left].
  - exists posts, []. rewrite app_nil_r. repeat split; [exact Hposts|now left].
  - eexists posts, _. split; [reflexivity|]. split; [exact Hposts|]. right. now eexists.
  - eexists posts, _. split; [reflexivity|]. split; [exact Hposts|]. right. now eexists.
Qed.

End Requests.

(** What a scrape sends, whatever FlareSolverr answers.  Every request
    goes to the configured service.  The first one asks for the bookings
    page; at most one login follows, and at most one more request for the
    bookings page after that.  The login carries the e-mail address and
    the password of the configuration under the names [email],
    [password] and [username], which no hidden field of the page can
    replace, and the hidden fields of the page under every other
    name. *)
Theorem flare_sends_credentials_once :
  forall (fetch : nat -> Flare.Call -> Result Flare.Answer)
         (URL_origin : string -> Result string)
         (Date_parse : string -> option Z) (tza : Z) (config : Api.Config),
    let calls := snd (Flare.scrapeWithFlaresolverr fetch URL_origin Date_parse tza config []) in
    conversation config calls /\
    forall call, In call calls ->
      Flare.endpoint call = ServerPage.text_of (Api.flaresolverrUrl config) ++ "/v1" /\
      match Flare.command call with
      | Flare.request_get url _ => url = Api.appointyBookingUrl config
      | Flare.request_post _ data _ =>
          Web.get "email" data = Some (ServerPage.text_of (Api.appointyEmail config)) /\
          Web.get "password" data = Some (ServerPage.text_of (Api.appointyPassword config)) /\
          Web.get "username" data = Some (ServerPage.text_of (Api.appointyEmail config))
      end.
Proof.
  intros fetch URL_origin Date_parse tza config calls.
  assert (Hcalls : calls = snd (Flare.fetchPage fetch URL_origin config [])).
  { unfold calls, Flare.scrapeWithFlaresolverr, Flare.bind.
    destruct (Flare.fetchPage fetch URL_origin config []) as [[[page|]|message] calls'];
      reflexivity. }
  pose proof (fetchPage_calls fetch URL_origin config) as Hconv. rewrite <- Hcalls in Hconv.
  split; [exact Hconv|].
  destruct Hconv as (posts & gets & -> & Hposts & Hgets).
  intros call [<-|Hin]; [now split|].
  apply in_app_or in Hin as [Hin|Hin].
  - destruct Hposts as [->|(target & hiddenFields & jar & ->)]; [now destruct Hin|].
    destruct Hin as [<-|[]]. split; [reflexivity|]. cbn [Flare.command].
    pose proof (loginData_credentials config hiddenFields) as (He & Hp & Hu & _).
    now repeat split.
  - destruct Hgets as [->|(jar & ->)]; [now destruct Hin|].
    destruct Hin as [<-|[]]. now split.
Qed.

(** ** Instances *)

Lemma stuck_fetch_answers : flare_answers stuck_fetch sample_origin.
Proof.
  intros [|n] call; eexists; (split; [reflexivity|]); [|discriminate].
  intros _. now eexists _, _, _, _.
Qed.

Lemma flare_witness :
  let '(result, calls) :=
    Flare.scrapeWithFlaresolverr stuck_fetch sample_origin iso_only_parse 0 flare_config [] in
  (1 <= List.length calls <= 3)%nat /\
  nth_error calls 0 = Some (first_call flare_config) /\
  forall a, stuck_fetch 0%nat (first_call flare_config) = Ok a ->
    (Flare.status a <> Some "ok" ->
     result = Throw ("FlareSolverr error: " ++ ServerPage.text_of (Flare.message a))) /\
    (Flare.status a = Some "ok" ->
     exists page,
       last_page stuck_fetch calls page /\
       result = Ok (Api.extractAppointmentsFromHTML iso_only_parse 0 page)).
Proof.
  apply (flare_reads_the_last_page stuck_fetch sample_origin iso_only_parse 0 flare_config).
  exact stuck_fetch_answers.
Defined.

Lemma api_refused_login_witness :
  let w := cached_world "BEGIN:VCALENDAR;UID:1;END:VCALENDAR" (20 * 60 * 1000) in
  let req := Api.mkRequest (Some "abcd") None in
  let a := Flare.mkAnswer (Some "ok") None
             (Some (Flare.mkSolution (Some "[]") (Some login_html)
                      (Some "https://booking.example/account/login"))) in
  let up := flare_upstream stuck_fetch sample_origin flare_config 1500 in
  let calls := snd (Flare.fetchPage stuck_fetch sample_origin flare_config []) in
  (Flare.status a = Some "ok" ->
   exists page calendar w',
     last_page stuck_fetch calls page /\
     Api.buildCalendar (Api.extractAppointmentsFromHTML iso_only_parse 0 page)
       (Api.calendarName flare_config) = Ok calendar /\
     Api.handler iso_only_parse 0 sample_toString flare_config req up w
     = (Ok (miss_response (sample_toString calendar)), w') /\
     cachedICS w' = Some (sample_toString calendar) /\ cacheTime w' = clock w) /\
  (Flare.status a <> Some "ok" ->
   exists w',
     Api.handler iso_only_parse 0 sample_toString flare_config req up w
     = (Ok (api_fallback w
              ("FlareSolverr error: " ++ ServerPage.text_of (Flare.message a))), w') /\
     cachedICS w' = cachedICS w /\ cacheTime w' = cacheTime w).
Proof.
  intros w req a up calls.
  apply (api_feed_hides_a_refused_login iso_only_parse 0 sample_toString stuck_fetch
           sample_origin flare_config req w "abcd" 1500 a);
    first [ exact stuck_fetch_answers | discriminate | reflexivity ].
Defined.
